(** * Fraud-pattern detector of the civic tracker (lib/fraud-detection.ts)

    A shallow embedding of [analyzeTransactions] and of the ten detection
    methods it runs, followed by the properties of the specification.

    Modelling conventions.
    - A JavaScript [number] is a value of [number]: an exact rational, one of
      the two infinities, or NaN.  Rounding of binary64 arithmetic and the
      sign of zero are not modelled; every constant of the source
      (0.95, 0.05, 0.301, ...) is the exact decimal.  The amount of a
      transaction is a finite number, hence a [Q].
    - A JavaScript string is a [string]: a sequence of code units below 256.
    - An object literal [{}] used as a dictionary is an [Obj.t]: the own
      properties in insertion order, over the properties every plain object
      inherits from [Object.prototype].  [Object.entries] lists the own
      properties with array-index keys first.
    - A function that can throw returns a [result].
    - A template literal is a [text]: its pieces in order, the numbers in it
      not yet rendered by the runtime ([toFixed], [toLocaleString],
      [Intl.NumberFormat]).
    - [Date] parsing and [String(number)] belong to the runtime and are
      variables of the section that holds the detectors. *)

From Stdlib Require Import String Ascii DecimalString Bool Arith ZArith NArith QArith Qabs Qround Lia List.
From Stdlib Require Import Permutation Sorted Lqa.
Import ListNotations.

Open Scope string_scope.
Open Scope Q_scope.
Open Scope list_scope.

(** ** Numbers *)

Inductive number : Type :=
| Fin (q : Q)
| PInf
| NInf
| NaN.

Module Num.

Definition of_nat (n : nat) : number := Fin (inject_Z (Z.of_nat n)).

(** Sign of a rational: [Lt], [Eq] or [Gt] against zero. *)
Definition sgn (q : Q) : comparison := (q ?= 0).

Definition neg (x : number) : number :=
  match x with
  | Fin q => Fin (- q)
  | PInf => NInf
  | NInf => PInf
  | NaN => NaN
  end.

Definition add (x y : number) : number :=
  match x, y with
  | NaN, _ | _, NaN => NaN
  | Fin a, Fin b => Fin (a + b)
  | PInf, NInf | NInf, PInf => NaN
  | PInf, _ | _, PInf => PInf
  | NInf, _ | _, NInf => NInf
  end.

Definition sub (x y : number) : number := add x (neg y).

(** An infinity scaled by a finite or infinite factor of the given sign. *)
Definition scale_inf (positive : bool) (s : comparison) : number :=
  match s with
  | Eq => NaN
  | Gt => if positive then PInf else NInf
  | Lt => if positive then NInf else PInf
  end.

Definition mul (x y : number) : number :=
  match x, y with
  | NaN, _ | _, NaN => NaN
  | Fin a, Fin b => Fin (a * b)
  | PInf, Fin b => scale_inf true (sgn b)
  | NInf, Fin b => scale_inf false (sgn b)
  | Fin a, PInf => scale_inf true (sgn a)
  | Fin a, NInf => scale_inf false (sgn a)
  | PInf, PInf | NInf, NInf => PInf
  | PInf, NInf | NInf, PInf => NInf
  end.

Definition div (x y : number) : number :=
  match x, y with
  | NaN, _ | _, NaN => NaN
  | Fin a, Fin b =>
      match sgn b with
      | Eq => scale_inf true (sgn a)
      | _ => Fin (a / b)
      end
  | Fin _, (PInf | NInf) => Fin 0
  | PInf, Fin b => match sgn b with Lt => NInf | _ => PInf end
  | NInf, Fin b => match sgn b with Lt => PInf | _ => NInf end
  | (PInf | NInf), (PInf | NInf) => NaN
  end.

(** [x > y]; false as soon as one side is NaN. *)
Definition gt (x y : number) : bool :=
  match x, y with
  | NaN, _ | _, NaN => false
  | Fin a, Fin b => negb (Qle_bool a b)
  | PInf, (Fin _ | NInf) => true
  | Fin _, NInf => true
  | _, _ => false
  end.

(** [x === y] on numbers. *)
Definition eqb (x y : number) : bool :=
  match x, y with
  | Fin a, Fin b => Qeq_bool a b
  | PInf, PInf | NInf, NInf => true
  | _, _ => false
  end.

(** Truthiness of a number: 0 and NaN are falsy. *)
Definition truthy (x : number) : bool :=
  match x with
  | Fin q => negb (Qeq_bool q 0)
  | NaN => false
  | _ => true
  end.

(** [Math.round]: the nearest integer, ties towards +Infinity. *)
Definition round (x : number) : number :=
  match x with
  | Fin q => Fin (inject_Z (Qfloor (q + (1 # 2))))
  | _ => x
  end.

End Num.

(** [Math.floor] of a non-negative finite number used as an array index. *)
Definition floor_index (q : Q) : nat := Z.to_nat (Qfloor q).

(** The remainder operator [%] on finite numbers with a non-zero divisor:
    the quotient is truncated towards zero. *)
Definition Qtrunc (q : Q) : Z := if Qle_bool 0 q then Qfloor q else Qceiling q.

Definition js_rem (a d : Q) : Q := a - d * inject_Z (Qtrunc (a / d)).

(** ** Strings *)

Module Str.

Definition code (c : ascii) : nat := nat_of_ascii c.

Definition is_digit (c : ascii) : bool := (48 <=? code c)%nat && (code c <=? 57)%nat.
Definition is_upper (c : ascii) : bool := (65 <=? code c)%nat && (code c <=? 90)%nat.
Definition is_lower (c : ascii) : bool := (97 <=? code c)%nat && (code c <=? 122)%nat.
Definition is_letter (c : ascii) : bool := is_upper c || is_lower c.

(** Members of the class [\w]. *)
Definition is_word (c : ascii) : bool :=
  is_letter c || is_digit c || (code c =? 95)%nat.

(** Members of the class [\s] among the code units below 256. *)
Definition is_space (c : ascii) : bool :=
  existsb (Nat.eqb (code c)) [9; 10; 11; 12; 13; 32; 160]%nat.

(** Line terminators, which [.] does not match. *)
Definition is_line_terminator (c : ascii) : bool :=
  existsb (Nat.eqb (code c)) [10; 13]%nat.

(** Case folding of the [i] flag: only ASCII letters fold. *)
Definition fold_case (c : ascii) : ascii :=
  if is_lower c then ascii_of_nat (code c - 32) else c.

Definition eqb_ci (a b : ascii) : bool := Ascii.eqb (fold_case a) (fold_case b).

(** [s.split(sep)] for a separator of one character. *)
Fixpoint split (sep : ascii) (s : string) : list string :=
  match s with
  | EmptyString => [EmptyString]
  | String c s' =>
      if Ascii.eqb c sep then EmptyString :: split sep s'
      else match split sep s' with
           | [] => [String c EmptyString]
           | h :: tl => String c h :: tl
           end
  end.

(** [parts.join(sep)]. *)
Fixpoint join (sep : string) (parts : list string) : string :=
  match parts with
  | [] => EmptyString
  | [p] => p
  | p :: rest => (p ++ sep ++ join sep rest)%string
  end.

(** [[...new Set(xs)]]: the distinct strings in order of first occurrence. *)
Fixpoint distinct_from (seen : list string) (xs : list string) : list string :=
  match xs with
  | [] => []
  | x :: rest =>
      if existsb (String.eqb x) seen then distinct_from seen rest
      else x :: distinct_from (x :: seen) rest
  end.

Definition distinct (xs : list string) : list string := distinct_from [] xs.

(** A string is truthy when it is not empty. *)
Definition truthy (s : string) : bool :=
  match s with EmptyString => false | _ => true end.

(** Decimal text of a natural number. *)
Definition of_nat (n : nat) : string := NilZero.string_of_uint (Nat.to_uint n).

End Str.

(** ** Regular expressions

    The fragment the vendor-name patterns use.  A repetition is always over a
    single character class, so matching recurses on the expression and, for
    a repetition, on the text.  [test] answers whether some match exists, as
    [RegExp.prototype.test] does. *)

Module Regex.

Inductive re : Type :=
| Chr (p : ascii -> bool)                      (* one character of a class *)
| Seq (r1 r2 : re)
| Alt (r1 r2 : re)
| Rep (p : ascii -> bool) (min : nat) (max : option nat)
| WordB                                        (* \b *)
| Bol.                                         (* ^ without the m flag *)

Definition is_word_opt (c : option ascii) : bool :=
  match c with Some c => Str.is_word c | None => false end.

Definition head (s : string) : option ascii :=
  match s with EmptyString => None | String c _ => Some c end.

Definition word_boundary (prev : option ascii) (s : string) : bool :=
  xorb (is_word_opt prev) (is_word_opt (head s)).

Definition max_allows (max : option nat) : bool :=
  match max with Some O => false | _ => true end.

Definition max_pred (max : option nat) : option nat :=
  match max with Some n => Some (pred n) | None => None end.

(** [p{min,max}] followed by the continuation [k]. *)
Fixpoint rep (p : ascii -> bool) (min : nat) (max : option nat)
         (prev : option ascii) (s : string)
         (k : option ascii -> string -> bool) : bool :=
  (match min with O => k prev s | S _ => false end)
  || match s with
     | EmptyString => false
     | String c s' =>
         p c && max_allows max && rep p (pred min) (max_pred max) (Some c) s' k
     end.

(** [matches r prev s k]: [r] matches a prefix of [s], the character before
    [s] being [prev], and [k] accepts what follows. *)
Fixpoint matches (r : re) (prev : option ascii) (s : string)
         (k : option ascii -> string -> bool) : bool :=
  match r with
  | Chr p =>
      match s with
      | EmptyString => false
      | String c s' => p c && k (Some c) s'
      end
  | Seq r1 r2 => matches r1 prev s (fun prev' s' => matches r2 prev' s' k)
  | Alt r1 r2 => matches r1 prev s k || matches r2 prev s k
  | Rep p min max => rep p min max prev s k
  | WordB => word_boundary prev s && k prev s
  | Bol => match prev with None => k prev s | Some _ => false end
  end.

Definition accept : option ascii -> string -> bool := fun _ _ => true.

(** A match starting at the current position or at a later one. *)
Fixpoint search (r : re) (prev : option ascii) (s : string) : bool :=
  matches r prev s accept
  || match s with
     | EmptyString => false
     | String c s' => search r (Some c) s'
     end.

Definition test (r : re) (s : string) : bool := search r None s.

(** A literal word under the [i] flag. *)
Fixpoint lit_i (w : string) (rest : re) : re :=
  match w with
  | EmptyString => rest
  | String c w' => Seq (Chr (Str.eqb_ci c)) (lit_i w' rest)
  end.

Definition eps : re := Rep (fun _ => false) 0 (Some O).
Definition word_i (w : string) : re := lit_i w eps.

(** [.] *)
Definition dot (c : ascii) : bool := negb (Str.is_line_terminator c).

(** [[A-Z]] under the [i] flag. *)
Definition A_Z_i (c : ascii) : bool := Str.is_letter c.

Definition seq (rs : list re) : re := fold_right Seq eps rs.
Definition alt (r : re) (rs : list re) : re := fold_left Alt rs r.

End Regex.

(** ** Results of functions that can throw *)

Inductive exn : Type := TypeError.

Inductive result (A : Type) : Type :=
| Ok (a : A)
| Throw (e : exn).

Arguments Ok {A} a.
Arguments Throw {A} e.

Definition bind {A B : Type} (c : result A) (k : A -> result B) : result B :=
  match c with
  | Ok a => k a
  | Throw e => Throw e
  end.

Notation "x <- c ;; k" := (bind c (fun x => k))
  (at level 61, c at next level, right associativity).
Notation "' p <- c ;; k" := (bind c (fun p => k))
  (at level 61, p pattern, c at next level, right associativity).

Fixpoint foldM {A B : Type} (f : B -> A -> result B) (l : list A) (b : B) : result B :=
  match l with
  | [] => Ok b
  | x :: l' => b' <- f b x ;; foldM f l' b'
  end.

(** ** Arrays *)

(** [array.sort(compare)]: a stable sort; [compare a b > 0] moves [a] behind
    [b], and a NaN from the comparator counts as 0. *)
Module Arr.

Section Sort.
Context {A : Type} (compare : A -> A -> number).

Fixpoint insert (x : A) (l : list A) : list A :=
  match l with
  | [] => [x]
  | y :: l' =>
      if Num.gt (compare x y) (Fin 0) then y :: insert x l' else x :: y :: l'
  end.

Definition sort (l : list A) : list A := fold_right insert [] l.
End Sort.

(** [array.slice(0, n)]. *)
Definition slice0 {A : Type} (n : nat) (l : list A) : list A := firstn n l.

End Arr.

(** ** Plain objects used as dictionaries *)

Module Obj.

(** Names every object literal inherits from [Object.prototype]. *)
Definition prototype_keys : list string :=
  [ "constructor"; "hasOwnProperty"; "isPrototypeOf"; "propertyIsEnumerable";
    "toLocaleString"; "toString"; "valueOf"; "__proto__";
    "__defineGetter__"; "__defineSetter__"; "__lookupGetter__"; "__lookupSetter__" ].

Definition inherited (k : string) : bool := existsb (String.eqb k) prototype_keys.

(** What reading [o[k]] finds. *)
Inductive property (T : Type) : Type :=
| Own (v : T)        (* an own property *)
| Inherited          (* a function or object of the prototype: truthy *)
| Undefined.

Arguments Own {T} v.
Arguments Inherited {T}.
Arguments Undefined {T}.

Section Dict.
Context {T : Type}.

(** Own properties, in insertion order. *)
Definition t : Type := list (string * T).

Definition empty : t := [].

Fixpoint own (o : t) (k : string) : option T :=
  match o with
  | [] => None
  | (k', v) :: o' => if String.eqb k k' then Some v else own o' k
  end.

Definition get (o : t) (k : string) : property T :=
  match own o k with
  | Some v => Own v
  | None => if inherited k then Inherited else Undefined
  end.

(** [o[k] = v] creating or overwriting an own property. *)
Fixpoint put (o : t) (k : string) (v : T) : t :=
  match o with
  | [] => [(k, v)]
  | (k', v') :: o' =>
      if String.eqb k k' then (k, v) :: o' else (k', v') :: put o' k v
  end.

(** The array index a property name denotes, if it is the canonical
    decimal text of an integer below 2^32 - 1. *)
Fixpoint parse_digits (s : string) (acc : N) : option N :=
  match s with
  | EmptyString => Some acc
  | String c s' =>
      if Str.is_digit c
      then parse_digits s' (10 * acc + N.of_nat (Str.code c - 48))%N
      else None
  end.

Definition array_index (k : string) : option N :=
  match k with
  | EmptyString => None
  | String c rest =>
      if Ascii.eqb c "0"
      then match rest with EmptyString => Some 0%N | _ => None end
      else match parse_digits k 0 with
           | Some n => if (n <? 4294967295)%N then Some n else None
           | None => None
           end
  end.

Definition is_index (e : string * T) : bool :=
  match array_index (fst e) with Some _ => true | None => false end.

Definition index_of (e : string * T) : N :=
  match array_index (fst e) with Some n => n | None => 0%N end.

Definition compare_index (a b : string * T) : number :=
  Fin (inject_Z (Z.of_N (index_of a)) - inject_Z (Z.of_N (index_of b))).

(** [Object.entries(o)]: array-index names in ascending order, then the
    other names in insertion order. *)
Definition entries (o : t) : list (string * T) :=
  Arr.sort compare_index (filter is_index o)
  ++ filter (fun e => negb (is_index e)) o.

Definition keys (o : t) : list string := map fst (entries o).
Definition values (o : t) : list T := map snd (entries o).
End Dict.

Arguments t T : clear implicits.

End Obj.

(** ** Data model *)

(** A piece of a template literal. *)
Inductive piece : Type :=
| Lit (s : string)                    (* literal text or an interpolated string *)
| Shown (x : number)                  (* an interpolated number *)
| Currency (x : number)               (* formatCurrency(x) *)
| Fixed (x : number) (digits : nat)   (* x.toFixed(digits) *)
| Locale (x : number).                (* x.toLocaleString() *)

Definition text : Type := list piece.

Definition ShownNat (n : nat) : piece := Shown (Num.of_nat n).

Inductive Severity : Type := critical | high | medium | low.

Definition Severity_eqb (a b : Severity) : bool :=
  match a, b with
  | critical, critical | high, high | medium, medium | low, low => true
  | _, _ => false
  end.

Module Transaction.
Record t : Type := mk {
  department : string;
  vendor : string;
  amount : Q;
  date : string;
  description : option string
}.
End Transaction.

Module Anomaly.
Record t : Type := mk {
  id : string;
  type : string;
  severity : Severity;
  title : text;
  description : text;
  vendor : option string;
  department : option string;
  amount : option Q;
  count : option nat;
  details : list text;
  investigationTips : list text
}.
End Anomaly.

Module Stats.
Record t : Type := mk {
  totalAnomalies : nat;
  criticalCount : nat;
  highCount : nat;
  mediumCount : nat;
  lowCount : nat;
  totalFlaggedAmount : Q
}.
End Stats.

Module Report.
Record t : Type := mk {
  anomalies : list Anomaly.t;
  stats : Stats.t
}.
End Report.

(** What a detection method returns: [{ anomalies, nextId }]. *)
Definition Findings : Type := (list Anomaly.t * nat)%type.

Definition Qgtb (a b : Q) : bool := negb (Qle_bool a b).
Definition Qltb (a b : Q) : bool := negb (Qle_bool b a).
Definition Qgeb (a b : Q) : bool := Qle_bool b a.

Definition Qnat (n : nat) : Q := inject_Z (Z.of_nat n).

(** [xs.reduce((sum, t) => sum + t.amount, 0)]. *)
Definition sum_amounts (txns : list Transaction.t) : Q :=
  fold_left (fun sum t => sum + Transaction.amount t) txns 0.

(** [`anomaly-${id}`]. *)
Definition anomaly_id (id : nat) : string := ("anomaly-" ++ Str.of_nat id)%string.

(** A loop [for (const x of xs) { if (...) { anomalies.push({ id: `anomaly-${id++}`, ... }) } }]:
    [body x id] is the anomaly pushed for [x], if any. *)
Definition push_each {A : Type} (body : A -> nat -> option Anomaly.t)
           (xs : list A) (st : Findings) : Findings :=
  fold_left (fun st x =>
               match body x (snd st) with
               | Some a => (fst st ++ [a], S (snd st))
               | None => st
               end) xs st.

(** The grouping loop
    [if (!groups[key]) groups[key] = []; groups[key].push(t)]:
    an inherited property is truthy and has no [push]. *)
Definition push_group (key : Transaction.t -> string)
           (groups : Obj.t (list Transaction.t)) (t : Transaction.t)
  : result (Obj.t (list Transaction.t)) :=
  match Obj.get groups (key t) with
  | Obj.Undefined => Ok (Obj.put groups (key t) [t])
  | Obj.Own txns => Ok (Obj.put groups (key t) (txns ++ [t]))
  | Obj.Inherited => Throw TypeError
  end.

Definition group_by (key : Transaction.t -> string) (txns : list Transaction.t)
  : result (Obj.t (list Transaction.t)) :=
  foldM (push_group key) txns Obj.empty.

(** [txns.slice(0, 5).map((t) => formatCurrency(t.amount)).join(', ')]. *)
Fixpoint join_pieces (sep : string) (ps : list piece) : text :=
  match ps with
  | [] => []
  | [p] => [p]
  | p :: rest => p :: Lit sep :: join_pieces sep rest
  end.

Definition sample_amounts (txns : list Transaction.t) : text :=
  join_pieces ", "
    (map (fun t => Currency (Fin (Transaction.amount t))) (Arr.slice0 5 txns)).

Definition departments_of (txns : list Transaction.t) : string :=
  Str.join ", " (Str.distinct (map Transaction.department txns)).

(** ** 1. Benford's law *)

Definition BENFORD_EXPECTED (digit : nat) : Q :=
  match digit with
  | 1%nat => 0.301
  | 2%nat => 0.176
  | 3%nat => 0.125
  | 4%nat => 0.097
  | 5%nat => 0.079
  | 6%nat => 0.067
  | 7%nat => 0.058
  | 8%nat => 0.051
  | 9%nat => 0.046
  | _ => 0
  end.

Definition digit_of_uint (u : Decimal.uint) : nat :=
  match u with
  | Decimal.D1 _ => 1
  | Decimal.D2 _ => 2
  | Decimal.D3 _ => 3
  | Decimal.D4 _ => 4
  | Decimal.D5 _ => 5
  | Decimal.D6 _ => 6
  | Decimal.D7 _ => 7
  | Decimal.D8 _ => 8
  | Decimal.D9 _ => 9
  | _ => 0
  end%nat.

(** [parseInt(String(amount)[0])].  The text of a number of at least 1 starts
    with the leading digit of its integer part, in plain and in exponent
    notation alike; the text of a negative number starts with the minus sign,
    which parses to NaN ([None]).  Only amounts of at least 100 reach this
    function. *)
Definition firstDigitOf (amount : Q) : option nat :=
  if Qle_bool 0 amount
  then Some (digit_of_uint (N.to_uint (Z.to_N (Qfloor amount))))
  else None.

(** [firstDigits[firstDigit]++] under [firstDigit >= 1 && firstDigit <= 9]. *)
Definition count_digit (firstDigits : nat -> nat) (amount : Q) : nat -> nat :=
  match firstDigitOf amount with
  | Some firstDigit =>
      if (1 <=? firstDigit)%nat && (firstDigit <=? 9)%nat
      then fun d => if (d =? firstDigit)%nat then S (firstDigits d) else firstDigits d
      else firstDigits
  | None => firstDigits
  end.

Module Deviation.
Record t : Type := mk {
  digit : nat;
  expected : Q;
  actual : Q;
  deviation : Q
}.
End Deviation.

Definition deviation_of (firstDigits : nat -> nat) (total : nat) (digit : nat)
  : Deviation.t :=
  let expected := BENFORD_EXPECTED digit in
  let actual := Qnat (firstDigits digit) / Qnat total in
  Deviation.mk digit expected actual (Qabs (actual - expected)).

(** The loop [for (let digit = 1; digit <= 9; digit++)]. *)
Definition deviations_over (firstDigits : nat -> nat) (total : nat) : list Deviation.t :=
  filter (fun d => Qgtb (Deviation.deviation d) 0.05)
         (map (deviation_of firstDigits total) (seq 1 9)).

Definition by_deviation_desc (a b : Deviation.t) : number :=
  Fin (Deviation.deviation b - Deviation.deviation a).

Definition benford_line (d : Deviation.t) : text :=
  [ Lit "Digit "; ShownNat (Deviation.digit d);
    Lit ": Expected "; Fixed (Fin (Deviation.expected d * 100)) 1;
    Lit "%, Actual "; Fixed (Fin (Deviation.actual d * 100)) 1;
    Lit "% ("; Lit (if Qgtb (Deviation.deviation d) 0 then "+" else "");
    Fixed (Fin ((Deviation.actual d - Deviation.expected d) * 100)) 1;
    Lit "% deviation)" ].

Definition benford_tips : list text :=
  [ [Lit "Benford's Law violations suggest numbers may not be naturally occurring"];
    [Lit "Fabricated invoice amounts often skew toward higher first digits"];
    [Lit "Cross-reference with vendors showing the largest deviations"];
    [Lit "This was a key indicator in the Feeding Our Future fraud case"] ].

Definition analyzeBenfordsLaw (transactions : list Transaction.t) (startId : nat)
  : Findings :=
  let amounts :=
    map Transaction.amount
        (filter (fun t => Qgeb (Transaction.amount t) 100) transactions) in
  if (length amounts <? 100)%nat then ([], startId)
  else
    let firstDigits := fold_left count_digit amounts (fun _ => O) in
    let total := length amounts in
    let deviations := deviations_over firstDigits total in
    if (0 <? length deviations)%nat then
      let deviations := Arr.sort by_deviation_desc deviations in
      let severity :=
        if existsb (fun d => Qgtb (Deviation.deviation d) 0.1) deviations
        then high else medium in
      ([ Anomaly.mk (anomaly_id startId) "benfords_law" severity
           [Lit "Benford's Law Deviation Detected"]
           [Lit "Payment amounts don't follow expected natural distribution - a potential indicator of fabricated numbers"]
           None None None None
           ([ [Lit "Analyzed "; Locale (Num.of_nat total); Lit " payments over $100"] ]
            ++ map benford_line (Arr.slice0 3 deviations)
            ++ [ [Lit "Higher-than-expected rates of digits 7-9 can indicate fabricated invoices"] ])
           benford_tips ],
       S startId)
    else ([], startId).

(** Common approval thresholds to check for avoidance. *)
Definition APPROVAL_THRESHOLDS : list Q :=
  [1000; 2500; 5000; 10000; 25000; 50000; 100000].

(** A round-number pattern of [detectRoundNumbers]. *)
Module Pattern.
Record t : Type := mk {
  divisor : Q;
  minAmount : Q;
  name : string
}.
End Pattern.

(** What [detectAddressRedFlags] keeps per vendor. *)
Module VendorTotal.
Record t : Type := mk {
  total : Q;
  count : nat;
  txns : list Transaction.t
}.
End VendorTotal.

(** What [detectHighFrequency] keeps per vendor; [departments] is a [Set]. *)
Module VendorStat.
Record t : Type := mk {
  count : nat;
  total : Q;
  departments : list string
}.
End VendorStat.

(** A value of the vendor totals of [detectVendorConcentration]: a number, or
    the text that [+] makes of an inherited function or object and a number.
    Such a text never reads as a number. *)
Inductive Total : Type :=
| TNum (q : Q)
| TText.

(** An element of [sortedVendors]. *)
Module Share.
Record t : Type := mk {
  vendor : string;
  amount : Total;
  percentage : number
}.
End Share.

Section Detector.

(** The runtime: [String(x)] of a finite number, and [new Date(s).getTime()]
    and [new Date(s).getDay()], which are NaN for a text that is no date. *)
Variable Number_toString : Q -> string.
Variable Date_getTime : string -> number.
Variable Date_getDay : string -> number.

(** ** 2. Duplicate payments *)

(** [`${t.vendor}|${t.amount}`]. *)
Definition vendor_amount_key (t : Transaction.t) : string :=
  (Transaction.vendor t ++ "|" ++ Number_toString (Transaction.amount t))%string.

Definition first_part (key : string) : string :=
  hd EmptyString (Str.split "|" key).

Definition duplicate_tips : list text :=
  [ [Lit "Verify each payment corresponds to a unique service/invoice"];
    [Lit "Check for different invoice numbers on same-amount payments"];
    [Lit "Could indicate invoice resubmission or system error"];
    [Lit "Request supporting documentation for each payment"] ].

Definition duplicate_anomaly (entry : string * list Transaction.t) (id : nat)
  : option Anomaly.t :=
  let (key, txns) := entry in
  match txns with
  | [] => None
  | first :: _ =>
      if (3 <=? length txns)%nat && Qgtb (Transaction.amount first) 1000 then
        let vendor := first_part key in
        let totalAmount := sum_amounts txns in
        let dates :=
          Arr.sort Num.sub (map (fun t => Date_getTime (Transaction.date t)) txns) in
        let daysBetween :=
          Num.div (Num.sub (last dates NaN) (hd NaN dates))
                  (Fin (1000 * 60 * 60 * 24)) in
        let severity :=
          if (5 <=? length txns)%nat || Qgtb totalAmount 100000
          then high else medium in
        Some (Anomaly.mk (anomaly_id id) "duplicate_payments" severity
                [Lit "Potential Duplicate Payments"]
                [Lit vendor; Lit " received "; ShownNat (length txns);
                 Lit " identical payments of ";
                 Currency (Fin (Transaction.amount first))]
                (Some vendor) None (Some totalAmount) (Some (length txns))
                [ [Lit "Vendor: "; Lit vendor];
                  [Lit "Identical payment amount: ";
                   Currency (Fin (Transaction.amount first))];
                  [Lit "Number of identical payments: "; ShownNat (length txns)];
                  [Lit "Total paid: "; Currency (Fin totalAmount)];
                  [Lit "Time span: "; Shown (Num.round daysBetween); Lit " days"];
                  [Lit "Department(s): "; Lit (departments_of txns)] ]
                duplicate_tips)
      else None
  end.

Definition detectDuplicatePayments (transactions : list Transaction.t) (startId : nat)
  : result Findings :=
  groups <- group_by vendor_amount_key transactions ;;
  Ok (push_each duplicate_anomaly (Obj.entries groups) ([], startId)).

(** ** 3. Threshold avoidance *)

Definition lowerBound (threshold : Q) : Q := threshold * 0.95.
Definition upperBound (threshold : Q) : Q := threshold - 1.

Definition near (threshold : Q) (t : Transaction.t) : bool :=
  Qgeb (Transaction.amount t) (lowerBound threshold)
  && Qle_bool (Transaction.amount t) (upperBound threshold).

Definition threshold_anomaly (threshold : Q)
           (entry : string * list Transaction.t) (id : nat) : option Anomaly.t :=
  let (vendor, txns) := entry in
  if (3 <=? length txns)%nat then
    let totalAmount := sum_amounts txns in
    Some (Anomaly.mk (anomaly_id id) "threshold_avoidance"
            (if (5 <=? length txns)%nat then critical else high)
            [Lit "Possible Invoice Splitting at $"; Locale (Fin threshold);
             Lit " Threshold"]
            [Lit vendor; Lit " has "; ShownNat (length txns);
             Lit " payments between "; Currency (Fin (lowerBound threshold));
             Lit " and "; Currency (Fin (upperBound threshold))]
            (Some vendor) None (Some totalAmount) (Some (length txns))
            [ [Lit "Vendor: "; Lit vendor];
              [Lit "Threshold being avoided: "; Currency (Fin threshold)];
              [Lit "Payments in range: "; ShownNat (length txns)];
              [Lit "Amount range: "; Currency (Fin (lowerBound threshold));
               Lit " - "; Currency (Fin (upperBound threshold))];
              [Lit "Total if combined: "; Currency (Fin totalAmount)];
              Lit "Sample amounts: " :: sample_amounts txns ]
            [ [Lit "Invoice splitting is a common fraud technique to avoid approval requirements"];
              [Lit "Verify if payments represent genuinely separate services"];
              [Lit "Check if invoices have sequential numbers or same dates"];
              [Lit "This pattern was flagged in Minnesota daycare fraud investigations"];
              [Lit "Combining these would exceed the "; Currency (Fin threshold);
               Lit " approval threshold"] ])
  else None.

(** One round of the loop over the thresholds. *)
Definition threshold_round (transactions : list Transaction.t)
           (st : Findings) (threshold : Q) : result Findings :=
  let nearThreshold := filter (near threshold) transactions in
  byVendor <- group_by Transaction.vendor nearThreshold ;;
  Ok (push_each (threshold_anomaly threshold) (Obj.entries byVendor) st).

Definition detectThresholdAvoidance (transactions : list Transaction.t) (startId : nat)
  : result Findings :=
  foldM (threshold_round transactions) APPROVAL_THRESHOLDS ([], startId).

(** ** 4. Round numbers *)

Definition roundPatterns : list Pattern.t :=
  [ Pattern.mk 10000 10000 "$10K increments";
    Pattern.mk 5000 5000 "$5K increments";
    Pattern.mk 1000 5000 "$1K increments" ].

Definition is_round (pattern : Pattern.t) (t : Transaction.t) : bool :=
  Qgeb (Transaction.amount t) (Pattern.minAmount pattern)
  && Qeq_bool (js_rem (Transaction.amount t) (Pattern.divisor pattern)) 0.

Definition same_vendor (vendor : string) (t : Transaction.t) : bool :=
  String.eqb (Transaction.vendor t) vendor.

Definition percent_of (part whole : nat) : number :=
  Num.mul (Num.div (Num.of_nat part) (Num.of_nat whole)) (Fin 100).

Definition round_anomaly (transactions : list Transaction.t) (pattern : Pattern.t)
           (entry : string * list Transaction.t) (id : nat) : option Anomaly.t :=
  let (vendor, txns) := entry in
  let totalForVendor := length (filter (same_vendor vendor) transactions) in
  let roundPercentage := percent_of (length txns) totalForVendor in
  if (4 <=? length txns)%nat && Num.gt roundPercentage (Fin 50) then
    let totalAmount := sum_amounts txns in
    Some (Anomaly.mk (anomaly_id id) "round_numbers"
            (if (10 <=? length txns)%nat then high else medium)
            [Lit "Suspicious Round Number Pattern"]
            [Fixed roundPercentage 0; Lit "% of payments to "; Lit vendor;
             Lit " are exact "; Lit (Pattern.name pattern)]
            (Some vendor) None (Some totalAmount) (Some (length txns))
            [ [Lit "Vendor: "; Lit vendor];
              [Lit "Round number payments: "; ShownNat (length txns); Lit " of ";
               ShownNat totalForVendor; Lit " ("; Fixed roundPercentage 1; Lit "%)"];
              [Lit "Pattern: "; Lit (Pattern.name pattern)];
              [Lit "Total in round payments: "; Currency (Fin totalAmount)];
              Lit "Sample amounts: " :: sample_amounts txns ]
            [ [Lit "Legitimate invoices rarely come out to perfectly round numbers"];
              [Lit "Round numbers are a classic indicator of fabricated invoices"];
              [Lit "ACFE identifies round-dollar amounts as a key fraud red flag"];
              [Lit "Request original invoices to verify pricing details"] ])
  else None.

Definition pattern_round (transactions : list Transaction.t)
           (st : Findings) (pattern : Pattern.t) : result Findings :=
  let roundPayments := filter (is_round pattern) transactions in
  byVendor <- group_by Transaction.vendor roundPayments ;;
  Ok (push_each (round_anomaly transactions pattern) (Obj.entries byVendor) st).

Definition detectRoundNumbers (transactions : list Transaction.t) (startId : nat)
  : result Findings :=
  foldM (pattern_round transactions) roundPatterns ([], startId).

(** ** 5. Weekend payments *)

Definition on_weekend (t : Transaction.t) : bool :=
  if Str.truthy (Transaction.date t) then
    let day := Date_getDay (Transaction.date t) in
    Num.eqb day (Fin 0) || Num.eqb day (Fin 6)
  else false.

Definition weekend_anomaly (transactions : list Transaction.t)
           (entry : string * list Transaction.t) (id : nat) : option Anomaly.t :=
  let (vendor, txns) := entry in
  if (5 <=? length txns)%nat then
    let totalAmount := sum_amounts txns in
    let allVendorTxns := filter (same_vendor vendor) transactions in
    let weekendPercentage := percent_of (length txns) (length allVendorTxns) in
    if Num.gt weekendPercentage (Fin 20) then
      Some (Anomaly.mk (anomaly_id id) "weekend_payments"
              (if Num.gt weekendPercentage (Fin 40) then high else medium)
              [Lit "High Weekend Payment Activity"]
              [Fixed weekendPercentage 0; Lit "% of payments to "; Lit vendor;
               Lit " occurred on weekends"]
              (Some vendor) None (Some totalAmount) (Some (length txns))
              [ [Lit "Vendor: "; Lit vendor];
                [Lit "Weekend payments: "; ShownNat (length txns); Lit " of ";
                 ShownNat (length allVendorTxns); Lit " (";
                 Fixed weekendPercentage 1; Lit "%)"];
                [Lit "Total weekend payments: "; Currency (Fin totalAmount)];
                [Lit "Government offices typically don't process payments on weekends"] ]
              [ [Lit "Weekend payments may indicate backdated transactions"];
                [Lit "In MN fraud cases, services claimed on weekends when facilities were closed"];
                [Lit "Verify the vendor actually provides weekend services"];
                [Lit "Cross-reference with vendor operating hours"] ])
    else None
  else None.

Definition detectWeekendPayments (transactions : list Transaction.t) (startId : nat)
  : result Findings :=
  let weekendPayments := filter on_weekend transactions in
  if (length weekendPayments =? 0)%nat then Ok ([], startId)
  else
    byVendor <- group_by Transaction.vendor weekendPayments ;;
    Ok (push_each (weekend_anomaly transactions) (Obj.entries byVendor) ([], startId)).

(** ** 6. Same-day payments *)

(** [`${t.vendor}|${t.date.split('T')[0]}`]. *)
Definition vendor_day_key (t : Transaction.t) : string :=
  (Transaction.vendor t ++ "|"
     ++ hd EmptyString (Str.split "T" (Transaction.date t)))%string.

Definition same_day_anomaly (entry : string * list Transaction.t) (id : nat)
  : option Anomaly.t :=
  let (key, txns) := entry in
  if (3 <=? length txns)%nat then
    let vendor := nth 0 (Str.split "|" key) EmptyString in
    let date := nth 1 (Str.split "|" key) EmptyString in
    let totalAmount := sum_amounts txns in
    Some (Anomaly.mk (anomaly_id id) "same_day_payments"
            (if (5 <=? length txns)%nat || Qgtb totalAmount 50000
             then high else medium)
            [Lit "Multiple Same-Day Payments"]
            [Lit vendor; Lit " received "; ShownNat (length txns);
             Lit " separate payments on "; Lit date]
            (Some vendor) None (Some totalAmount) (Some (length txns))
            [ [Lit "Vendor: "; Lit vendor];
              [Lit "Date: "; Lit date];
              [Lit "Number of payments: "; ShownNat (length txns)];
              Lit "Individual amounts: "
                :: join_pieces ", "
                     (map (fun t => Currency (Fin (Transaction.amount t))) txns);
              [Lit "Combined total: "; Currency (Fin totalAmount)];
              [Lit "Departments: "; Lit (departments_of txns)] ]
            [ [Lit "Multiple same-day payments may indicate invoice splitting"];
              [Lit "Could be used to keep individual amounts below approval thresholds"];
              [Lit "Verify each payment corresponds to a distinct service"];
              [Lit "Check if invoices are sequentially numbered"] ])
  else None.

Definition detectSameDayPayments (transactions : list Transaction.t) (startId : nat)
  : result Findings :=
  let dated := filter (fun t => Str.truthy (Transaction.date t)) transactions in
  groups <- group_by vendor_day_key dated ;;
  Ok (push_each same_day_anomaly (Obj.entries groups) ([], startId)).

(** ** 7. Vendor-name red flags *)

(** [/\bLLC\b.*\bLLC\b/i] *)
Definition re_double_LLC : Regex.re :=
  Regex.seq [ Regex.WordB; Regex.word_i "LLC"; Regex.WordB;
              Regex.Rep Regex.dot 0 None;
              Regex.WordB; Regex.word_i "LLC"; Regex.WordB ].

(** [/^[A-Z]{2,4}\s+(LLC|INC|CORP)/i] *)
Definition re_acronym : Regex.re :=
  Regex.seq [ Regex.Bol; Regex.Rep Regex.A_Z_i 2 (Some 4%nat);
              Regex.Rep Str.is_space 1 None;
              Regex.alt (Regex.word_i "LLC")
                        [Regex.word_i "INC"; Regex.word_i "CORP"] ].

(** [/consulting|services|solutions|enterprises|holdings/i] *)
Definition re_generic : Regex.re :=
  Regex.alt (Regex.word_i "consulting")
            [ Regex.word_i "services"; Regex.word_i "solutions";
              Regex.word_i "enterprises"; Regex.word_i "holdings" ].

Definition suspiciousPatterns : list (Regex.re * string) :=
  [ (re_double_LLC, "Double LLC");
    (re_acronym, "Acronym company");
    (re_generic, "Generic business name") ].

Definition quote : string := String (ascii_of_nat 34) EmptyString.

(** One round of the loop that fills [vendorTotals]; on an inherited
    property [.txns] is undefined and [.push] throws. *)
Definition add_vendor_total (vendorTotals : Obj.t VendorTotal.t) (t : Transaction.t)
  : result (Obj.t VendorTotal.t) :=
  let vendor := Transaction.vendor t in
  match Obj.get vendorTotals vendor with
  | Obj.Undefined =>
      Ok (Obj.put vendorTotals vendor
            (VendorTotal.mk (0 + Transaction.amount t) 1 [t]))
  | Obj.Own data =>
      Ok (Obj.put vendorTotals vendor
            (VendorTotal.mk (VendorTotal.total data + Transaction.amount t)
                            (S (VendorTotal.count data))
                            (VendorTotal.txns data ++ [t])))
  | Obj.Inherited => Throw TypeError
  end.

Definition or_unknown (s : string) : string :=
  if Str.truthy s then s else "Unknown".

Definition name_flag_anomaly (entry : string * VendorTotal.t) (id : nat)
  : option Anomaly.t :=
  let (vendor, data) := entry in
  if Qltb (VendorTotal.total data) 50000 then None
  else
    match find (fun p => Regex.test (fst p) vendor) suspiciousPatterns with
    | Some (_, name) =>
        Some (Anomaly.mk (anomaly_id id) "vendor_name_flag"
                (if Qgtb (VendorTotal.total data) 500000 then medium else low)
                [Lit "Vendor Name Red Flag: "; Lit name]
                [Lit quote; Lit vendor; Lit quote;
                 Lit " matches shell company naming patterns"]
                (Some vendor) None (Some (VendorTotal.total data))
                (Some (VendorTotal.count data))
                [ [Lit "Vendor: "; Lit vendor];
                  [Lit "Pattern matched: "; Lit name];
                  [Lit "Total payments: "; Currency (Fin (VendorTotal.total data))];
                  [Lit "Number of payments: "; ShownNat (VendorTotal.count data)];
                  [Lit "Primary department: ";
                   Lit (match VendorTotal.txns data with
                        | first :: _ => or_unknown (Transaction.department first)
                        | [] => "Unknown"
                        end)] ]
                [ [Lit "Generic business names are commonly used by shell companies"];
                  [Lit "Verify business registration with Secretary of State"];
                  [Lit "Search for web presence and physical location"];
                  [Lit "Check if business address is a PO Box or virtual office"];
                  [Lit "Cross-reference with employee addresses"] ])
    | None => None
    end.

Definition detectAddressRedFlags (transactions : list Transaction.t) (startId : nat)
  : result Findings :=
  vendorTotals <- foldM add_vendor_total transactions Obj.empty ;;
  Ok (push_each name_flag_anomaly (Obj.entries vendorTotals) ([], startId)).

(** ** 8. High-frequency vendors *)

(** [departments.add(d)]. *)
Definition set_add (d : string) (s : list string) : list string :=
  if existsb (String.eqb d) s then s else s ++ [d].

(** One round of the loop that fills [vendorStats]; on an inherited
    property [.departments] is undefined and [.add] throws. *)
Definition add_vendor_stat (vendorStats : Obj.t VendorStat.t) (t : Transaction.t)
  : result (Obj.t VendorStat.t) :=
  let vendor := Transaction.vendor t in
  match Obj.get vendorStats vendor with
  | Obj.Undefined =>
      Ok (Obj.put vendorStats vendor
            (VendorStat.mk 1 (0 + Transaction.amount t)
                           (set_add (Transaction.department t) [])))
  | Obj.Own stats =>
      Ok (Obj.put vendorStats vendor
            (VendorStat.mk (S (VendorStat.count stats))
                           (VendorStat.total stats + Transaction.amount t)
                           (set_add (Transaction.department t)
                                    (VendorStat.departments stats))))
  | Obj.Inherited => Throw TypeError
  end.

Definition frequency_anomaly (avgCount : number)
           (entry : string * VendorStat.t) (id : nat) : option Anomaly.t :=
  let (vendor, stats) := entry in
  let count := VendorStat.count stats in
  if Num.gt (Num.of_nat count) (Num.mul avgCount (Fin 5)) && (20 <? count)%nat then
    let avgPayment := Num.div (Fin (VendorStat.total stats)) (Num.of_nat count) in
    let times := Num.round (Num.div (Num.of_nat count) avgCount) in
    Some (Anomaly.mk (anomaly_id id) "high_frequency"
            (if (100 <? count)%nat then high else medium)
            [Lit "Unusually High Payment Frequency"]
            [Lit vendor; Lit " received "; ShownNat count;
             Lit " separate payments ("; Shown times; Lit "x average)"]
            (Some vendor) None (Some (VendorStat.total stats)) (Some count)
            [ [Lit "Vendor: "; Lit vendor];
              [Lit "Total payments: "; ShownNat count];
              [Lit "Average for all vendors: "; Fixed avgCount 0; Lit " payments"];
              [Lit "This vendor: "; Shown times; Lit "x the average"];
              [Lit "Total amount: "; Currency (Fin (VendorStat.total stats))];
              [Lit "Average payment: "; Currency avgPayment];
              [Lit "Departments involved: ";
               ShownNat (length (VendorStat.departments stats))] ]
            [ [Lit "High frequency may indicate split payments to avoid thresholds"];
              [Lit "Could also indicate legitimate high-volume vendor relationship"];
              [Lit "Verify contract terms support payment frequency"];
              [Lit "Check for duplicate services across departments"] ])
  else None.

Definition detectHighFrequency (transactions : list Transaction.t) (startId : nat)
  : result Findings :=
  vendorStats <- foldM add_vendor_stat transactions Obj.empty ;;
  let avgCount :=
    Num.div
      (Num.of_nat (fold_left (fun sum v => (sum + VendorStat.count v)%nat)
                             (Obj.values vendorStats) O))
      (Num.of_nat (length (Obj.keys vendorStats))) in
  Ok (push_each (frequency_anomaly avgCount) (Obj.entries vendorStats) ([], startId)).

(** ** 9. Large outliers *)

(** [amounts[i]] in arithmetic: [undefined] out of range, which makes NaN. *)
Definition at_index (amounts : list Q) (i : nat) : number :=
  match nth_error amounts i with
  | Some q => Fin q
  | None => NaN
  end.

Definition ascending (a b : Q) : number := Fin (a - b).

Definition sorted_amounts (transactions : list Transaction.t) : list Q :=
  Arr.sort ascending (map Transaction.amount transactions).

Definition median_of (amounts : list Q) : number :=
  at_index amounts (floor_index (Qnat (length amounts) / 2)).

Definition q3_of (amounts : list Q) : number :=
  at_index amounts (floor_index (Qnat (length amounts) * 0.75)).

Definition q1_of (amounts : list Q) : number :=
  at_index amounts (floor_index (Qnat (length amounts) * 0.25)).

Definition upperFence_of (amounts : list Q) : number :=
  let q3 := q3_of amounts in
  let iqr := Num.sub q3 (q1_of amounts) in
  Num.add q3 (Num.mul iqr (Fin 3)).

Definition is_outlier (upperFence : number) (t : Transaction.t) : bool :=
  Num.gt (Fin (Transaction.amount t)) upperFence
  && Qgtb (Transaction.amount t) 1000000.

Definition outlier_anomaly (median : number) (t : Transaction.t) (id : nat)
  : option Anomaly.t :=
  let multiplier := Num.round (Num.div (Fin (Transaction.amount t)) median) in
  Some (Anomaly.mk (anomaly_id id) "large_outlier"
          (if Qgtb (Transaction.amount t) 10000000 then critical else high)
          [Lit "Extreme Payment Amount"]
          [Currency (Fin (Transaction.amount t)); Lit " payment to ";
           Lit (Transaction.vendor t); Lit " is "; Locale multiplier;
           Lit "x the median"]
          (Some (Transaction.vendor t)) (Some (Transaction.department t))
          (Some (Transaction.amount t)) None
          ([ [Lit "Vendor: "; Lit (Transaction.vendor t)];
             [Lit "Department: "; Lit (Transaction.department t)];
             [Lit "Amount: "; Currency (Fin (Transaction.amount t))];
             [Lit "Median payment: "; Currency median];
             [Lit "This payment is "; Locale multiplier; Lit "x the median"];
             [Lit "Date: "; Lit (or_unknown (Transaction.date t))] ]
           ++ match Transaction.description t with
              | Some d => if Str.truthy d then [[Lit "Description: "; Lit d]] else []
              | None => []
              end)
          [ [Lit "Verify payment matches a valid contract or purchase order"];
            [Lit "Large one-time payments warrant additional scrutiny"];
            [Lit "Check if payment was properly approved at appropriate levels"];
            [Lit "Request supporting documentation (contracts, invoices, receipts)"] ]).

Definition detectOutliers (transactions : list Transaction.t) (startId : nat)
  : Findings :=
  let amounts := sorted_amounts transactions in
  let median := median_of amounts in
  let upperFence := upperFence_of amounts in
  let outliers := filter (is_outlier upperFence) transactions in
  push_each (outlier_anomaly median) (Arr.slice0 10 outliers) ([], startId).

(** ** 10. Vendor concentration *)

(** [vendorTotals[t.vendor] = (vendorTotals[t.vendor] || 0) + t.amount].
    An inherited property is truthy and [+] turns it into text; the
    assignment then creates an own property, except for [__proto__], whose
    setter ignores a text. *)
Definition add_to_total (vendorTotals : Obj.t Total) (t : Transaction.t)
  : Obj.t Total :=
  let vendor := Transaction.vendor t in
  match Obj.get vendorTotals vendor with
  | Obj.Undefined => Obj.put vendorTotals vendor (TNum (0 + Transaction.amount t))
  | Obj.Own (TNum q) =>
      Obj.put vendorTotals vendor
              (TNum ((if Num.truthy (Fin q) then q else 0) + Transaction.amount t))
  | Obj.Own TText => Obj.put vendorTotals vendor TText
  | Obj.Inherited =>
      if String.eqb vendor "__proto__" then vendorTotals
      else Obj.put vendorTotals vendor TText
  end.

(** [a + b] on totals. *)
Definition Total_add (a b : Total) : Total :=
  match a, b with
  | TNum x, TNum y => TNum (x + y)
  | _, _ => TText
  end.

(** The value of a total in arithmetic. *)
Definition Total_number (a : Total) : number :=
  match a with
  | TNum q => Fin q
  | TText => NaN
  end.

Definition by_total_desc (a b : string * Total) : number :=
  Num.sub (Total_number (snd b)) (Total_number (snd a)).

Definition share_of (totalSpending : Total) (entry : string * Total) : Share.t :=
  Share.mk (fst entry) (snd entry)
           (Num.mul (Num.div (Total_number (snd entry)) (Total_number totalSpending))
                    (Fin 100)).

Definition sortedVendors_of (transactions : list Transaction.t) : list Share.t :=
  let vendorTotals := fold_left add_to_total transactions Obj.empty in
  let totalSpending := fold_left Total_add (Obj.values vendorTotals) (TNum 0) in
  map (share_of totalSpending)
      (Arr.sort by_total_desc (Obj.entries vendorTotals)).

Definition totalSpending_of (transactions : list Transaction.t) : Total :=
  fold_left Total_add
            (Obj.values (fold_left add_to_total transactions Obj.empty)) (TNum 0).

Definition top5_lines (sortedVendors : list Share.t) : list text :=
  map (fun iv : nat * Share.t =>
         let (i, v) := iv in
         [ Lit "  "; ShownNat (i + 1); Lit ". "; Lit (Share.vendor v); Lit ": ";
           Currency (Total_number (Share.amount v)); Lit " (";
           Fixed (Share.percentage v) 1; Lit "%)" ])
      (combine (seq 0 5) (Arr.slice0 5 sortedVendors)).

Definition concentration_anomaly (transactions : list Transaction.t) (id : nat)
  : option Anomaly.t :=
  let sortedVendors := sortedVendors_of transactions in
  match sortedVendors with
  | [] => None
  | top :: _ =>
      if Num.gt (Share.percentage top) (Fin 15) then
        match Share.amount top with
        | TNum amount =>
            Some (Anomaly.mk (anomaly_id id) "vendor_concentration"
                    (if Num.gt (Share.percentage top) (Fin 25) then high else medium)
                    [Lit "High Vendor Concentration"]
                    [Lit (Share.vendor top); Lit " receives ";
                     Fixed (Share.percentage top) 1; Lit "% of all spending"]
                    (Some (Share.vendor top)) None (Some amount) None
                    ([ [Lit "Vendor: "; Lit (Share.vendor top)];
                       [Lit "Total received: "; Currency (Fin amount)];
                       [Lit "Percentage of total spending: ";
                        Fixed (Share.percentage top) 1; Lit "%"];
                       [Lit "Total dataset spending: ";
                        Currency (Total_number (totalSpending_of transactions))];
                       [Lit "Top 5 vendors:"] ]
                     ++ top5_lines sortedVendors)
                    [ [Lit "High concentration may indicate preferential treatment"];
                      [Lit "Verify competitive bidding was conducted"];
                      [Lit "Check for related party relationships"];
                      [Lit "Review contract award process"] ])
        | TText => None   (* not reached: the percentage of a text is NaN *)
        end
      else None
  end.

Definition detectVendorConcentration (transactions : list Transaction.t) (startId : nat)
  : Findings :=
  match concentration_anomaly transactions startId with
  | Some a => ([a], S startId)
  | None => ([], startId)
  end.

(** ** The orchestrator *)

Definition count_severity (s : Severity) (anomalies : list Anomaly.t) : nat :=
  length (filter (fun a => Severity_eqb (Anomaly.severity a) s) anomalies).

(** [a.amount || 0]. *)
Definition amount_or_0 (a : Anomaly.t) : Q :=
  match Anomaly.amount a with
  | Some q => if Num.truthy (Fin q) then q else 0
  | None => 0
  end.

Definition stats_of (anomalies : list Anomaly.t) : Stats.t :=
  Stats.mk (length anomalies)
           (count_severity critical anomalies)
           (count_severity high anomalies)
           (count_severity medium anomalies)
           (count_severity low anomalies)
           (fold_left (fun sum a => sum + amount_or_0 a) anomalies 0).

Definition analyzeTransactions (transactions : list Transaction.t)
  : result Report.t :=
  let anomalies := [] in
  let anomalyId := O in
  let benfordAnomalies := analyzeBenfordsLaw transactions anomalyId in
  let anomalies := anomalies ++ fst benfordAnomalies in
  let anomalyId := snd benfordAnomalies in
  duplicateAnomalies <- detectDuplicatePayments transactions anomalyId ;;
  let anomalies := anomalies ++ fst duplicateAnomalies in
  let anomalyId := snd duplicateAnomalies in
  thresholdAnomalies <- detectThresholdAvoidance transactions anomalyId ;;
  let anomalies := anomalies ++ fst thresholdAnomalies in
  let anomalyId := snd thresholdAnomalies in
  roundNumberAnomalies <- detectRoundNumbers transactions anomalyId ;;
  let anomalies := anomalies ++ fst roundNumberAnomalies in
  let anomalyId := snd roundNumberAnomalies in
  weekendAnomalies <- detectWeekendPayments transactions anomalyId ;;
  let anomalies := anomalies ++ fst weekendAnomalies in
  let anomalyId := snd weekendAnomalies in
  sameDayAnomalies <- detectSameDayPayments transactions anomalyId ;;
  let anomalies := anomalies ++ fst sameDayAnomalies in
  let anomalyId := snd sameDayAnomalies in
  addressAnomalies <- detectAddressRedFlags transactions anomalyId ;;
  let anomalies := anomalies ++ fst addressAnomalies in
  let anomalyId := snd addressAnomalies in
  frequencyAnomalies <- detectHighFrequency transactions anomalyId ;;
  let anomalies := anomalies ++ fst frequencyAnomalies in
  let anomalyId := snd frequencyAnomalies in
  let outlierAnomalies := detectOutliers transactions anomalyId in
  let anomalies := anomalies ++ fst outlierAnomalies in
  let anomalyId := snd outlierAnomalies in
  let concentrationAnomalies := detectVendorConcentration transactions anomalyId in
  let anomalies := anomalies ++ fst concentrationAnomalies in
  Ok (Report.mk anomalies (stats_of anomalies)).

End Detector.

From Stdlib Require DecimalNat DecimalFacts.

(** * Display helpers (lib/utils.ts) *)

(** [x >= y]; false as soon as one side is NaN. *)
Definition number_ge (x y : number) : bool :=
  match x, y with
  | NaN, _ | _, NaN => false
  | Fin a, Fin b => Qle_bool b a
  | PInf, _ => true
  | _, NInf => true
  | _, _ => false
  end.

Fixpoint zeros (n : nat) : string :=
  match n with
  | O => EmptyString
  | S n' => String "0" (zeros n')
  end.

(** The decimal digits of a natural number. *)
Definition digits_of (n : Z) : string :=
  NilZero.string_of_uint (N.to_uint (Z.to_N n)).

Definition pad_left (width : nat) (s : string) : string :=
  (zeros (width - String.length s) ++ s)%string.

Section Display.

(** The runtime: [String(x)] of a finite number. *)
Variable Number_toString : Q -> string.

(** [x.toFixed(digits)]: the sign, then the integer [n] nearest to
    [|x| * 10^digits], the larger one of two, written with [digits] digits
    after the point.  From 10^21 on the runtime's [String] takes over. *)
Definition toFixed (x : number) (digits : nat) : string :=
  match x with
  | NaN => "NaN"
  | PInf => "Infinity"
  | NInf => "-Infinity"
  | Fin q =>
      let s := if Qltb q 0 then "-" else EmptyString in
      let x := Qabs q in
      if Qle_bool (inject_Z (10 ^ 21)) x then (s ++ Number_toString x)%string
      else
        let scale := (10 ^ Z.of_nat digits)%Z in
        let n := Qfloor (x * inject_Z scale + (1 # 2)) in
        let m := digits_of (n / scale) in
        if (digits =? 0)%nat then (s ++ m)%string
        else (s ++ m ++ "." ++ pad_left digits (digits_of (n mod scale)))%string
  end.

Definition formatCompactCurrency (amount : number) : string :=
  if number_ge amount (Fin 1000000000) then
    ("$" ++ toFixed (Num.div amount (Fin 1000000000)) 1 ++ "B")%string
  else if number_ge amount (Fin 1000000) then
    ("$" ++ toFixed (Num.div amount (Fin 1000000)) 1 ++ "M")%string
  else if number_ge amount (Fin 1000) then
    ("$" ++ toFixed (Num.div amount (Fin 1000)) 0 ++ "K")%string
  else ("$" ++ toFixed amount 0)%string.

End Display.

(** [str.slice(0, end)] for an integer [end]; a negative [end] counts from
    the end of the text. *)
Definition slice_to (str : string) (to : Z) : string :=
  let len := Z.of_nat (String.length str) in
  let to := if (to <? 0)%Z then Z.max (len + to) 0 else Z.min to len in
  String.substring 0 (Z.to_nat to) str.

(** [truncate(str, length)] for an integer [length]. *)
Definition truncate (str : string) (length : Z) : string :=
  if (Z.of_nat (String.length str) <=? length)%Z then str
  else (slice_to str length ++ "...")%string.

(** * The alerts page (app/alerts/page.tsx) *)

Module TypeInfo.
Record t : Type := mk {
  icon : string;
  label : string;
  color : string
}.
End TypeInfo.

Definition TYPE_INFO : Obj.t TypeInfo.t :=
  [ ("benfords_law",
     TypeInfo.mk "BarChart3" "Benford's Law" "bg-purple-100 text-purple-800");
    ("duplicate_payments",
     TypeInfo.mk "Repeat" "Duplicate Payments" "bg-red-100 text-red-800");
    ("threshold_avoidance",
     TypeInfo.mk "SplitSquareHorizontal" "Threshold Avoidance"
                 "bg-orange-100 text-orange-800");
    ("round_numbers",
     TypeInfo.mk "CircleDollarSign" "Round Numbers" "bg-amber-100 text-amber-800");
    ("weekend_payments",
     TypeInfo.mk "Calendar" "Weekend Payments" "bg-blue-100 text-blue-800");
    ("same_day_payments",
     TypeInfo.mk "Clock" "Same-Day Payments" "bg-cyan-100 text-cyan-800");
    ("vendor_name_flag",
     TypeInfo.mk "Building2" "Vendor Name Flag" "bg-slate-100 text-slate-800");
    ("high_frequency",
     TypeInfo.mk "TrendingUp" "High Frequency" "bg-green-100 text-green-800");
    ("large_outlier",
     TypeInfo.mk "AlertTriangle" "Large Outlier" "bg-red-100 text-red-800");
    ("vendor_concentration",
     TypeInfo.mk "Users" "Vendor Concentration" "bg-indigo-100 text-indigo-800") ].

(** What [getTypeInfo] returns: an entry with icon, label and color, or a
    member of [Object.prototype], which has none of them. *)
Inductive Info : Type :=
| Entry (info : TypeInfo.t)
| Member.

(** [TYPE_INFO[type] || { icon: FileWarning, label: type, color: ... }]: an
    inherited property is truthy and is returned as it is. *)
Definition getTypeInfo (type : string) : Info :=
  match Obj.get TYPE_INFO type with
  | Obj.Own info => Entry info
  | Obj.Inherited => Member
  | Obj.Undefined => Entry (TypeInfo.mk "FileWarning" type "bg-slate-100 text-slate-800")
  end.

(** The text of a severity. *)
Definition Severity_text (s : Severity) : string :=
  match s with
  | critical => "critical"
  | high => "high"
  | medium => "medium"
  | low => "low"
  end.

(** The callback of [anomalies.filter]. *)
Definition passes (severityFilter typeFilter : string) (a : Anomaly.t) : bool :=
  if negb (String.eqb severityFilter "all")
     && negb (String.eqb (Severity_text (Anomaly.severity a)) severityFilter)
  then false
  else if negb (String.eqb typeFilter "all")
          && negb (String.eqb (Anomaly.type a) typeFilter)
  then false
  else true.

Definition filteredAnomalies (severityFilter typeFilter : string)
           (anomalies : list Anomaly.t) : list Anomaly.t :=
  filter (passes severityFilter typeFilter) anomalies.

(** [{ critical: 0, high: 1, medium: 2, low: 3 }]. *)
Definition severityOrder (s : Severity) : Q :=
  match s with
  | critical => 0
  | high => 1
  | medium => 2
  | low => 3
  end.

(** The comparator of the sort: by severity, then by amount, descending. *)
Definition by_severity_then_amount (a b : Anomaly.t) : number :=
  let severityDiff :=
    Num.sub (Fin (severityOrder (Anomaly.severity a)))
            (Fin (severityOrder (Anomaly.severity b))) in
  if negb (Num.eqb severityDiff (Fin 0)) then severityDiff
  else Num.sub (Fin (amount_or_0 b)) (Fin (amount_or_0 a)).

Definition sortedAnomalies (severityFilter typeFilter : string)
           (anomalies : list Anomaly.t) : list Anomaly.t :=
  Arr.sort by_severity_then_amount
           (filteredAnomalies severityFilter typeFilter anomalies).

(** [[...new Set(anomalies.map((a) => a.type))]]. *)
Definition uniqueTypes (anomalies : list Anomaly.t) : list string :=
  Str.distinct (map Anomaly.type anomalies).

(** * Vocabulary of the specification *)

(** The anomalies a pushing loop adds, the first one numbered [id]. *)
Fixpoint emitted {A : Type} (body : A -> nat -> option Anomaly.t)
         (xs : list A) (id : nat) : list Anomaly.t :=
  match xs with
  | [] => []
  | x :: rest =>
      match body x id with
      | Some a => a :: emitted body rest (S id)
      | None => emitted body rest id
      end
  end.

(** The transactions of a list filed under the key [k]. *)
Definition members (key : Transaction.t -> string) (k : string)
           (txns : list Transaction.t) : list Transaction.t :=
  filter (fun t => String.eqb (key t) k) txns.

Definition nonempty {A : Type} (l : list A) : option (list A) :=
  match l with
  | [] => None
  | _ => Some l
  end.

(** [groups] files every transaction of [txns] under its key, in order. *)
Definition grouped (key : Transaction.t -> string) (txns : list Transaction.t)
           (groups : Obj.t (list Transaction.t)) : Prop :=
  NoDup (map fst groups)
  /\ forall k, Obj.own groups k = nonempty (members key k txns).

(** No vendor of the list bears a name that plain objects inherit. *)
Definition plain_vendors (txns : list Transaction.t) : Prop :=
  Forall (fun t => Obj.inherited (Transaction.vendor t) = false) txns.

Definition has_vendor (v : string) (a : Anomaly.t) : bool :=
  match Anomaly.vendor a with
  | Some v' => String.eqb v' v
  | None => false
  end.

Definition Severity_eq_dec (a b : Severity) : {a = b} + {a <> b}.
Proof. decide equality. Defined.

(** The number of anomalies of a severity. *)
Definition tally (s : Severity) (anomalies : list Anomaly.t) : nat :=
  count_occ Severity_eq_dec (map Anomaly.severity anomalies) s.

(** The amount of an anomaly, 0 when it has none. *)
Definition flagged_amount (a : Anomaly.t) : Q :=
  match Anomaly.amount a with
  | Some q => q
  | None => 0
  end.

(** The sum of the amounts of all anomalies. *)
Fixpoint total_flagged (anomalies : list Anomaly.t) : Q :=
  match anomalies with
  | [] => 0
  | a :: rest => flagged_amount a + total_flagged rest
  end.

(** A transaction without date or description. *)
Definition payment (vendor : string) (amount : Q) : Transaction.t :=
  Transaction.mk "Public Works" vendor amount "" None.

(** The vendor-name patterns as the specification words them: the token
    [LLC] and the acronym in upper case only. *)
Fixpoint lit_exact (w : string) (rest : Regex.re) : Regex.re :=
  match w with
  | EmptyString => rest
  | String c w' => Regex.Seq (Regex.Chr (Ascii.eqb c)) (lit_exact w' rest)
  end.

Definition word_exact (w : string) : Regex.re := lit_exact w Regex.eps.

Definition stated_double_LLC : Regex.re :=
  Regex.seq [ Regex.WordB; word_exact "LLC"; Regex.WordB;
              Regex.Rep Regex.dot 0 None;
              Regex.WordB; word_exact "LLC"; Regex.WordB ].

Definition stated_acronym : Regex.re :=
  Regex.seq [ Regex.Bol; Regex.Rep Str.is_upper 2 (Some 4%nat);
              Regex.Rep Str.is_space 1 None;
              Regex.alt (word_exact "LLC") [word_exact "INC"; word_exact "CORP"] ].

Definition stated_patterns : list (Regex.re * string) :=
  [ (stated_double_LLC, "Double LLC");
    (stated_acronym, "Acronym company");
    (re_generic, "Generic business name") ].

(** The name of the first pattern of a list that matches a vendor name. *)
Definition first_match (patterns : list (Regex.re * string)) (vendor : string)
  : option string :=
  option_map snd (find (fun p => Regex.test (fst p) vendor) patterns).

(** The window below an approval threshold. *)
Definition window (threshold : Q) : Q * Q := (lowerBound threshold, upperBound threshold).

(** The transactions behind the anomaly of a threshold and a vendor: those of
    the vendor whose amount lies in the window of the threshold. *)
Definition contributors (threshold : Q) (vendor : string)
           (transactions : list Transaction.t) : list Transaction.t :=
  members Transaction.vendor vendor (filter (near threshold) transactions).

(** The threshold an anomaly of the threshold-avoidance check names in its
    title. *)
Definition threshold_of (a : Anomaly.t) : option Q :=
  match Anomaly.title a with
  | [_; Locale (Fin threshold); _] => Some threshold
  | _ => None
  end.

(** A loop whose rounds each group some transactions and push anomalies for
    the entries of the grouping. *)
Definition grouping_round {X V : Type} (groups : X -> result (Obj.t V))
           (body : X -> string * V -> nat -> option Anomaly.t)
           (st : Findings) (x : X) : result Findings :=
  o <- groups x ;; Ok (push_each (body x) (Obj.entries o) st).

(** The amounts the digit-distribution check looks at. *)
Definition qualifying (transactions : list Transaction.t) : list Q :=
  map Transaction.amount
      (filter (fun t => Qgeb (Transaction.amount t) 100) transactions).

Definition leads_with (digit : nat) (amount : Q) : bool :=
  match firstDigitOf amount with
  | Some d => (d =? digit)%nat
  | None => false
  end.

(** The share of the amounts whose leading digit is [digit]. *)
Definition observed (amounts : list Q) (digit : nat) : Q :=
  Qnat (length (filter (leads_with digit) amounts)) / Qnat (length amounts).

(** The deviation of a digit: |observed - expected|. *)
Definition digit_deviation (amounts : list Q) (digit : nat) : Deviation.t :=
  Deviation.mk digit (BENFORD_EXPECTED digit) (observed amounts digit)
               (Qabs (observed amounts digit - BENFORD_EXPECTED digit)).

Definition deviation_at (amounts : list Q) (digit : nat) : Q :=
  Deviation.deviation (digit_deviation amounts digit).

Definition leading_digit (d : nat) : Prop := (1 <= d <= 9)%nat.

(** The digits whose deviation exceeds 0.05, with their deviations. *)
Definition qualifying_deviations (amounts : list Q) : list Deviation.t :=
  map (digit_deviation amounts)
      (filter (fun d => Qgtb (deviation_at amounts d) 0.05) (seq 1 9)).

(** Descending by deviation. *)
Definition deviation_desc (a b : Deviation.t) : Prop :=
  Deviation.deviation b <= Deviation.deviation a.

Definition benford_header (total : nat) : text :=
  [Lit "Analyzed "; Locale (Num.of_nat total); Lit " payments over $100"].

Definition benford_footer : text :=
  [Lit "Higher-than-expected rates of digits 7-9 can indicate fabricated invoices"].

(** What the large-outlier check reports for a transaction it flags. *)
Definition flags_outlier (t : Transaction.t) (a : Anomaly.t) : Prop :=
  Anomaly.type a = "large_outlier"
  /\ Anomaly.vendor a = Some (Transaction.vendor t)
  /\ Anomaly.department a = Some (Transaction.department t)
  /\ Anomaly.amount a = Some (Transaction.amount t)
  /\ Anomaly.severity a
     = (if Qgtb (Transaction.amount t) 10000000 then critical else high).

(** What [detectAddressRedFlags] holds for the transactions of one vendor. *)
Definition vendor_total_of (txns : list Transaction.t) : VendorTotal.t :=
  VendorTotal.mk (sum_amounts txns) (length txns) txns.

(** [vendorTotals] after the transactions [txns]. *)
Definition totalled (txns : list Transaction.t) (vendorTotals : Obj.t VendorTotal.t)
  : Prop :=
  NoDup (map fst vendorTotals)
  /\ forall k, Obj.own vendorTotals k
               = option_map vendor_total_of
                            (nonempty (members Transaction.vendor k txns)).

(** The transactions of a vendor. *)
Definition payments_to (vendor : string) (transactions : list Transaction.t)
  : list Transaction.t :=
  members Transaction.vendor vendor transactions.

(** The text holds the character [|]. *)
Fixpoint has_bar (s : string) : bool :=
  match s with
  | EmptyString => false
  | String c s' => Ascii.eqb c "|" || has_bar s'
  end.


(** The anomaly stands for the threshold and the vendor. *)
Definition flags_threshold (threshold : Q) (vendor : string) (a : Anomaly.t) : bool :=
  has_vendor vendor a
  && match threshold_of a with
     | Some t => Qeq_bool t threshold
     | None => false
     end.

(** The pattern an anomaly of the round-number check names. *)
Definition pattern_of (a : Anomaly.t) : option string :=
  match Anomaly.description a with
  | [_; _; _; _; Lit name] => Some name
  | _ => None
  end.

(** The anomaly stands for the pattern and the vendor. *)
Definition flags_pattern (pattern : Pattern.t) (vendor : string) (a : Anomaly.t) : bool :=
  has_vendor vendor a
  && match pattern_of a with
     | Some name => String.eqb name (Pattern.name pattern)
     | None => false
     end.

(** The payments to a vendor that match a round-number pattern. *)
Definition round_payments (pattern : Pattern.t) (vendor : string)
           (transactions : list Transaction.t) : list Transaction.t :=
  members Transaction.vendor vendor (filter (is_round pattern) transactions).

(** [d] divides [a] exactly. *)
Definition divisible (a d : Q) : Prop := exists z : Z, a == d * inject_Z z.

(** The number a total stands for, a text counting 0. *)
Definition Total_value (x : Total) : Q :=
  match x with
  | TNum q => q
  | TText => 0
  end.

Definition totals_sum (l : list (string * Total)) : Q :=
  fold_right (fun e s => Total_value (snd e) + s) 0 l.

(** [vendorTotals] of [detectVendorConcentration] after the transactions
    [txns], none of them to a vendor with an inherited name: every vendor
    paid holds the sum of its payments. *)
Definition summed (txns : list Transaction.t) (vendorTotals : Obj.t Total) : Prop :=
  NoDup (map fst vendorTotals)
  /\ totals_sum vendorTotals == sum_amounts txns
  /\ forall k,
      match Obj.own vendorTotals k with
      | Some (TNum q) =>
          payments_to k txns <> [] /\ q == sum_amounts (payments_to k txns)
      | Some TText => False
      | None => payments_to k txns = []
      end.

(** Descending by total, among totals that are numbers. *)
Definition total_desc (a b : string * Total) : Prop :=
  match snd a, snd b with
  | TNum x, TNum y => y <= x
  | _, _ => True
  end.

Definition is_number (e : string * Total) : Prop :=
  match snd e with
  | TNum _ => True
  | TText => False
  end.

(** The share of a total in a grand total, in percent. *)
Definition share_percent (total grand : Q) : number :=
  Num.mul (Num.div (Fin total) (Fin grand)) (Fin 100).

(** ** What a regular expression matches

    [Match r prev s prev' s']: [r] matches a prefix of [s], the character
    before [s] being [prev]; [s'] is what remains and [prev'] the character
    before it. *)
Inductive Match : Regex.re -> option ascii -> string -> option ascii -> string -> Prop :=
| Match_chr (p : ascii -> bool) (prev : option ascii) (c : ascii) (s : string) :
    p c = true -> Match (Regex.Chr p) prev (String c s) (Some c) s
| Match_seq (r1 r2 : Regex.re) (prev p1 p2 : option ascii) (s s1 s2 : string) :
    Match r1 prev s p1 s1 -> Match r2 p1 s1 p2 s2 ->
    Match (Regex.Seq r1 r2) prev s p2 s2
| Match_alt_l (r1 r2 : Regex.re) (prev p' : option ascii) (s s' : string) :
    Match r1 prev s p' s' -> Match (Regex.Alt r1 r2) prev s p' s'
| Match_alt_r (r1 r2 : Regex.re) (prev p' : option ascii) (s s' : string) :
    Match r2 prev s p' s' -> Match (Regex.Alt r1 r2) prev s p' s'
| Match_rep_stop (p : ascii -> bool) (max : option nat) (prev : option ascii) (s : string) :
    Match (Regex.Rep p 0 max) prev s prev s
| Match_rep_step (p : ascii -> bool) (min : nat) (max : option nat)
                 (prev p' : option ascii) (c : ascii) (s s' : string) :
    p c = true -> Regex.max_allows max = true ->
    Match (Regex.Rep p (pred min) (Regex.max_pred max)) (Some c) s p' s' ->
    Match (Regex.Rep p min max) prev (String c s) p' s'
| Match_wordb (prev : option ascii) (s : string) :
    Regex.word_boundary prev s = true -> Match Regex.WordB prev s prev s
| Match_bol (s : string) : Match Regex.Bol None s None s.

(** The character before what follows [x], [prev] when [x] is empty. *)
Fixpoint last_char (prev : option ascii) (x : string) : option ascii :=
  match x with
  | EmptyString => prev
  | String c x' => last_char (Some c) x'
  end.

(** [x] spells the word [w], letter case apart. *)
Fixpoint spells (w x : string) : bool :=
  match w, x with
  | EmptyString, EmptyString => true
  | String a w', String b x' => Str.eqb_ci a b && spells w' x'
  | _, _ => false
  end.

(** Every character of the text is in the class. *)
Fixpoint all_in (p : ascii -> bool) (x : string) : bool :=
  match x with
  | EmptyString => true
  | String c x' => p c && all_in p x'
  end.

Definition generic_words : list string :=
  ["consulting"; "services"; "solutions"; "enterprises"; "holdings"].

Definition company_forms : list string := ["LLC"; "INC"; "CORP"].

(** A word boundary lies between the two parts of a name. *)
Definition boundary_between (before after : string) : Prop :=
  Regex.word_boundary (last_char None before) after = true.

(** The name holds LLC twice, in any letter case, each time between word
    boundaries, with no line terminator from the first to the second. *)
Definition double_LLC_name (v : string) : Prop :=
  exists pre x mid y post,
    v = (pre ++ x ++ mid ++ y ++ post)%string
    /\ spells "LLC" x = true /\ spells "LLC" y = true
    /\ all_in Regex.dot mid = true
    /\ boundary_between pre (x ++ mid ++ y ++ post)
    /\ boundary_between (pre ++ x) (mid ++ y ++ post)
    /\ boundary_between (pre ++ x ++ mid) (y ++ post)
    /\ boundary_between (pre ++ x ++ mid ++ y) post.

(** The name starts with 2 to 4 letters of any case, then white space, then
    LLC, INC or CORP in any letter case. *)
Definition acronym_name (v : string) : Prop :=
  exists letters spaces x post w,
    In w company_forms
    /\ v = (letters ++ spaces ++ x ++ post)%string
    /\ all_in Str.is_letter letters = true
    /\ (2 <= String.length letters <= 4)%nat
    /\ all_in Str.is_space spaces = true
    /\ (1 <= String.length spaces)%nat
    /\ spells w x = true.

(** The name holds one of the generic words, in any letter case. *)
Definition generic_name (v : string) : Prop :=
  exists pre x post w,
    In w generic_words
    /\ v = (pre ++ x ++ post)%string
    /\ spells w x = true.

(** A runtime for the scenarios: a text per number that tells amounts apart
    (numerator and denominator of the reduced fraction), and dates that all
    fail to parse. *)
Definition fraction_text (q : Q) : string :=
  let r := Qred q in
  (NilZero.string_of_int (Z.to_int (Qnum r))
     ++ "/" ++ NilZero.string_of_uint (Pos.to_uint (Qden r)))%string.

Definition no_date : string -> number := fun _ => NaN.

(** ** Numbering and shape of the anomalies *)

(** Findings numbered from [id]: the anomalies bear the identifiers
    [anomaly-id], [anomaly-(id+1)], ... in order, and the next identifier
    follows the last one used. *)
Definition numbered (id : nat) (f : Findings) : Prop :=
  map Anomaly.id (fst f) = map anomaly_id (seq id (length (fst f)))
  /\ snd f = (id + length (fst f))%nat.

Definition present {A : Type} (o : option A) : bool :=
  match o with Some _ => true | None => false end.

(** What the anomalies of one method have in common: their type, the
    severities the method gives, and which of the optional fields it sets. *)
Module Shape.
Record t : Type := mk {
  type : string;
  severities : list Severity;
  vendor : bool;
  department : bool;
  amount : bool;
  count : bool
}.
End Shape.

(** The ten methods in the order in which [analyzeTransactions] runs them. *)
Definition shapes : list Shape.t :=
  [ Shape.mk "benfords_law" [high; medium] false false false false;
    Shape.mk "duplicate_payments" [high; medium] true false true true;
    Shape.mk "threshold_avoidance" [critical; high] true false true true;
    Shape.mk "round_numbers" [high; medium] true false true true;
    Shape.mk "weekend_payments" [high; medium] true false true true;
    Shape.mk "same_day_payments" [high; medium] true false true true;
    Shape.mk "vendor_name_flag" [medium; low] true false true true;
    Shape.mk "high_frequency" [high; medium] true false true true;
    Shape.mk "large_outlier" [critical; high] true true true false;
    Shape.mk "vendor_concentration" [high; medium] true false true false ].

Definition shape_at (n : nat) : Shape.t :=
  nth n shapes (Shape.mk EmptyString [] false false false false).

Definition has_shape (s : Shape.t) (a : Anomaly.t) : Prop :=
  Anomaly.type a = Shape.type s
  /\ In (Anomaly.severity a) (Shape.severities s)
  /\ present (Anomaly.vendor a) = Shape.vendor s
  /\ present (Anomaly.department a) = Shape.department s
  /\ present (Anomaly.amount a) = Shape.amount s
  /\ present (Anomaly.count a) = Shape.count s.

(** The findings of method number [n], numbered from [id]. *)
Definition block (n id : nat) (f : Findings) : Prop :=
  numbered id f /\ Forall (has_shape (shape_at n)) (fst f).

(** ** Checks keyed by vendor and a second text *)

(** The keys of a grouping in the order in which the loop meets them. *)
Definition keys_of (key : Transaction.t -> string) (txns : list Transaction.t)
  : list string :=
  Str.distinct (map key txns).

(** A group the duplicate-payment check reports. *)
Definition repeated (group : list Transaction.t) : bool :=
  match group with
  | [] => false
  | first :: _ => (3 <=? length group)%nat && Qgtb (Transaction.amount first) 1000
  end.

(** What the duplicate-payment check reports for the group filed under [k]. *)
Definition reports_duplicates (k : string) (group : list Transaction.t)
           (a : Anomaly.t) : Prop :=
  Anomaly.vendor a = Some (first_part k)
  /\ Anomaly.count a = Some (length group)
  /\ Anomaly.amount a = Some (sum_amounts group)
  /\ Anomaly.severity a
     = (if (5 <=? length group)%nat || Qgtb (sum_amounts group) 100000
        then high else medium).

(** The transactions that bear a date. *)
Definition dated (transactions : list Transaction.t) : list Transaction.t :=
  filter (fun t => Str.truthy (Transaction.date t)) transactions.

(** What the same-day check reports for the group filed under [k]. *)
Definition reports_same_day (k : string) (group : list Transaction.t)
           (a : Anomaly.t) : Prop :=
  Anomaly.vendor a = Some (nth 0 (Str.split "|" k) EmptyString)
  /\ Anomaly.count a = Some (length group)
  /\ Anomaly.amount a = Some (sum_amounts group)
  /\ Anomaly.severity a
     = (if (5 <=? length group)%nat || Qgtb (sum_amounts group) 50000
        then high else medium).

(** ** Checks keyed by vendor *)

(** The weekend payments to a vendor. *)
Definition weekend_payments (Date_getDay : string -> number) (vendor : string)
           (transactions : list Transaction.t) : list Transaction.t :=
  members Transaction.vendor vendor (filter (on_weekend Date_getDay) transactions).

(** What [detectHighFrequency] holds for the transactions of one vendor. *)
Definition vendor_stat_of (txns : list Transaction.t) : VendorStat.t :=
  VendorStat.mk (length txns) (sum_amounts txns)
                (fold_left (fun s t => set_add (Transaction.department t) s) txns []).

(** The counts of a table of vendor statistics, added up. *)
Definition sum_counts (l : list (string * VendorStat.t)) : nat :=
  fold_right (fun e s => (VendorStat.count (snd e) + s)%nat) O l.

(** [vendorStats] after the transactions [txns]: one entry per vendor in the
    order of first occurrence, holding the statistics of its payments. *)
Definition tallied (txns : list Transaction.t) (vendorStats : Obj.t VendorStat.t)
  : Prop :=
  NoDup (map fst vendorStats)
  /\ (forall k, Obj.own vendorStats k
                = option_map vendor_stat_of
                             (nonempty (members Transaction.vendor k txns)))
  /\ map fst vendorStats = keys_of Transaction.vendor txns
  /\ sum_counts vendorStats = length txns.

(** ** The alerts page *)

(** [a] is listed before [b]: it is more severe, or as severe and of an
    amount at least as large, a missing amount counting 0. *)
Definition listed_before (a b : Anomaly.t) : Prop :=
  severityOrder (Anomaly.severity a) < severityOrder (Anomaly.severity b)
  \/ (Anomaly.severity a = Anomaly.severity b
      /\ amount_or_0 b <= amount_or_0 a).

(** * Properties *)

(** ** Comparisons on rationals *)

Lemma Qgtb_lt (a b : Q) : Qgtb a b = true <-> b < a.
Proof.
  unfold Qgtb. rewrite negb_true_iff. split; intro H.
  - apply Qnot_le_lt. intro Hle. apply Qle_bool_iff in Hle. congruence.
  - destruct (Qle_bool a b) eqn:E; [|reflexivity].
    apply Qle_bool_iff in E. exfalso. exact (Qlt_not_le _ _ H E).
Qed.

Lemma Qgtb_false_le (a b : Q) : Qgtb a b = false <-> a <= b.
Proof.
  unfold Qgtb. rewrite negb_false_iff. apply Qle_bool_iff.
Qed.

Lemma Qgeb_le (a b : Q) : Qgeb a b = true <-> b <= a.
Proof. unfold Qgeb. apply Qle_bool_iff. Qed.

Lemma Qltb_lt (a b : Q) : Qltb a b = true <-> a < b.
Proof. unfold Qltb. apply (Qgtb_lt b a). Qed.

Lemma Qltb_false_le (a b : Q) : Qltb a b = false <-> b <= a.
Proof. unfold Qltb. apply (Qgtb_false_le b a). Qed.

Lemma Num_gt_Fin (a b : Q) : Num.gt (Fin a) (Fin b) = Qgtb a b.
Proof. reflexivity. Qed.

(** ** Sorting *)

Section SortFacts.
Context {A : Type} (compare : A -> A -> number).

Lemma insert_perm (x : A) (l : list A) :
  Permutation (Arr.insert compare x l) (x :: l).
Proof.
  induction l as [|y l IH]; simpl.
  - apply Permutation_refl.
  - destruct (Num.gt (compare x y) (Fin 0)).
    + apply Permutation_trans with (y :: x :: l).
      * apply perm_skip. exact IH.
      * apply perm_swap.
    + apply Permutation_refl.
Qed.

Lemma sort_perm (l : list A) : Permutation (Arr.sort compare l) l.
Proof.
  induction l as [|x l IH]; simpl.
  - apply perm_nil.
  - eapply Permutation_trans; [apply insert_perm|].
    apply perm_skip. exact IH.
Qed.

Lemma sort_length (l : list A) : length (Arr.sort compare l) = length l.
Proof. apply Permutation_length, sort_perm. Qed.

(** When the comparator decides a total, transitive order, the result is
    sorted by it. *)
Variable R : A -> A -> Prop.
Hypothesis compare_le : forall x y, Num.gt (compare x y) (Fin 0) = false -> R x y.
Hypothesis compare_gt : forall x y, Num.gt (compare x y) (Fin 0) = true -> R y x.

Lemma insert_HdRel (a x : A) (l : list A) :
  R a x -> HdRel R a l -> HdRel R a (Arr.insert compare x l).
Proof.
  intros Hax Hl. destruct l as [|y l]; simpl.
  - constructor. exact Hax.
  - destruct (Num.gt (compare x y) (Fin 0)).
    + constructor. inversion Hl; assumption.
    + constructor. exact Hax.
Qed.

Lemma insert_sorted (x : A) (l : list A) :
  Sorted R l -> Sorted R (Arr.insert compare x l).
Proof.
  induction l as [|y l IH]; intro Hs; simpl.
  - repeat constructor.
  - destruct (Num.gt (compare x y) (Fin 0)) eqn:E.
    + inversion Hs as [|? ? Hs' Hhd]; subst.
      constructor.
      * apply IH. exact Hs'.
      * apply insert_HdRel; [apply compare_gt; exact E | exact Hhd].
    + constructor; [exact Hs|]. constructor. apply compare_le. exact E.
Qed.

Lemma sort_sorted (l : list A) : Sorted R (Arr.sort compare l).
Proof.
  induction l as [|x l IH]; simpl.
  - constructor.
  - apply insert_sorted. exact IH.
Qed.
End SortFacts.

(** ** Monadic folds *)

(** A fold returns when every step returns, and keeps what every step keeps. *)
Lemma foldM_invariant {A B : Type} (f : B -> A -> result B)
      (P : A -> Prop) (I : list A -> B -> Prop) (l : list A) :
  (forall seen b x, I seen b -> P x ->
                    exists b', f b x = Ok b' /\ I (seen ++ [x]) b') ->
  forall seen b, I seen b -> Forall P l ->
                 exists b', foldM f l b = Ok b' /\ I (seen ++ l) b'.
Proof.
  intro Hstep. induction l as [|x l IH]; intros seen b Hb Hl; simpl.
  - exists b. rewrite app_nil_r. auto.
  - inversion Hl as [|? ? Hx Hl']; subst.
    destruct (Hstep seen b x Hb Hx) as [b' [Hf Hb']].
    rewrite Hf. simpl.
    destruct (IH (seen ++ [x]) b' Hb' Hl') as [b'' [Hfold Hb'']].
    exists b''. split; [exact Hfold|].
    rewrite <- app_assoc in Hb''. exact Hb''.
Qed.

(** What a fold that returned has kept. *)
Lemma foldM_Ok_invariant {A B : Type} (f : B -> A -> result B)
      (I : list A -> B -> Prop) (l : list A) :
  (forall seen b x b', I seen b -> f b x = Ok b' -> I (seen ++ [x]) b') ->
  forall seen b b', I seen b -> foldM f l b = Ok b' -> I (seen ++ l) b'.
Proof.
  intro Hstep. induction l as [|x l IH]; intros seen b b' Hb Hfold; simpl in Hfold.
  - inversion Hfold; subst. rewrite app_nil_r. exact Hb.
  - destruct (f b x) as [b1|e] eqn:Hf; simpl in Hfold; [|discriminate].
    specialize (IH (seen ++ [x]) b1 b' (Hstep _ _ _ _ Hb Hf) Hfold).
    rewrite <- app_assoc in IH. exact IH.
Qed.

(** ** Plain objects *)

Section ObjFacts.
Context {T : Type}.
Implicit Types (o : Obj.t T) (k : string) (v : T).

Lemma own_put_same o k v : Obj.own (Obj.put o k v) k = Some v.
Proof.
  induction o as [|[k' v'] o IH]; simpl.
  - rewrite String.eqb_refl. reflexivity.
  - destruct (String.eqb k k') eqn:E; simpl.
    + rewrite String.eqb_refl. reflexivity.
    + rewrite E. exact IH.
Qed.

Lemma own_put_other o k k' v :
  k' <> k -> Obj.own (Obj.put o k v) k' = Obj.own o k'.
Proof.
  intro Hne. induction o as [|[k1 v1] o IH]; simpl.
  - destruct (String.eqb k' k) eqn:E; [|reflexivity].
    apply String.eqb_eq in E. contradiction.
  - destruct (String.eqb k k1) eqn:E; simpl.
    + apply String.eqb_eq in E. subst k1.
      destruct (String.eqb k' k) eqn:E'; [|reflexivity].
      apply String.eqb_eq in E'. contradiction.
    + destruct (String.eqb k' k1); [reflexivity | exact IH].
Qed.

Lemma own_None_not_In o k : Obj.own o k = None <-> ~ In k (map fst o).
Proof.
  induction o as [|[k' v'] o IH]; simpl.
  - tauto.
  - destruct (String.eqb k k') eqn:E.
    + apply String.eqb_eq in E. subst. split; [discriminate | intro H; tauto].
    + apply String.eqb_neq in E. rewrite IH. split.
      * intros H [H1|H1]; [congruence | contradiction].
      * tauto.
Qed.

Lemma own_In o k v : Obj.own o k = Some v -> In (k, v) o.
Proof.
  induction o as [|[k' v'] o IH]; simpl; [discriminate|].
  destruct (String.eqb k k') eqn:E.
  - apply String.eqb_eq in E. subst. intro H. inversion H. left. reflexivity.
  - intro H. right. apply IH. exact H.
Qed.

Lemma In_own o k v : NoDup (map fst o) -> In (k, v) o -> Obj.own o k = Some v.
Proof.
  induction o as [|[k' v'] o IH]; simpl; [tauto|].
  intros Hnd [Heq|Hin].
  - inversion Heq; subst. rewrite String.eqb_refl. reflexivity.
  - inversion Hnd as [|? ? Hnot Hnd']; subst.
    destruct (String.eqb k k') eqn:E.
    + apply String.eqb_eq in E. subst. exfalso. apply Hnot.
      apply (in_map fst) in Hin. exact Hin.
    + apply IH; assumption.
Qed.

Lemma keys_put_fresh o k v :
  Obj.own o k = None -> map fst (Obj.put o k v) = map fst o ++ [k].
Proof.
  induction o as [|[k' v'] o IH]; simpl; [reflexivity|].
  destruct (String.eqb k k') eqn:E; [discriminate|].
  intro H. simpl. rewrite IH by exact H. reflexivity.
Qed.

Lemma keys_put_known o k v v0 :
  Obj.own o k = Some v0 -> map fst (Obj.put o k v) = map fst o.
Proof.
  induction o as [|[k' v'] o IH]; simpl; [discriminate|].
  destruct (String.eqb k k') eqn:E.
  - apply String.eqb_eq in E. subst. reflexivity.
  - intro H. simpl. rewrite IH by exact H. reflexivity.
Qed.

Lemma NoDup_put o k v : NoDup (map fst o) -> NoDup (map fst (Obj.put o k v)).
Proof.
  intro Hnd. destruct (Obj.own o k) as [v0|] eqn:E.
  - rewrite (keys_put_known _ _ _ _ E). exact Hnd.
  - rewrite (keys_put_fresh _ _ _ E).
    apply NoDup_app; [exact Hnd | repeat constructor; simpl; tauto |].
    intros x Hx [Hk|[]]. subst x.
    apply own_None_not_In in E. contradiction.
Qed.

(** [Object.entries] lists the own properties, each once. *)
Lemma entries_perm o : Permutation (Obj.entries o) o.
Proof.
  unfold Obj.entries.
  eapply Permutation_trans.
  - apply Permutation_app_tail. apply sort_perm.
  - clear. induction o as [|e o IH]; simpl; [apply perm_nil|].
    destruct (Obj.is_index e); simpl.
    + apply perm_skip. exact IH.
    + eapply Permutation_trans;
        [apply Permutation_sym, Permutation_middle | apply perm_skip; exact IH].
Qed.

Lemma entries_In o (e : string * T) : In e (Obj.entries o) <-> In e o.
Proof.
  split; apply Permutation_in; [|apply Permutation_sym]; apply entries_perm.
Qed.

Lemma entries_NoDup o : NoDup (map fst o) -> NoDup (map fst (Obj.entries o)).
Proof.
  apply Permutation_NoDup, Permutation_map, Permutation_sym, entries_perm.
Qed.

Lemma get_not_inherited o k :
  Obj.inherited k = false ->
  Obj.get o k = match Obj.own o k with
                | Some v => Obj.Own v
                | None => Obj.Undefined
                end.
Proof. intro H. unfold Obj.get. rewrite H. reflexivity. Qed.
End ObjFacts.

(** ** Pushing loops *)

Section PushEach.
Context {A : Type} (body : A -> nat -> option Anomaly.t).

Lemma push_each_emitted (xs : list A) (acc : list Anomaly.t) (id : nat) :
  push_each body xs (acc, id)
  = (acc ++ emitted body xs id, (id + length (emitted body xs id))%nat).
Proof.
  revert acc id. induction xs as [|x xs IH]; intros acc id; simpl.
  - rewrite app_nil_r, Nat.add_0_r. reflexivity.
  - unfold push_each in *. simpl.
    destruct (body x id) as [a|]; simpl.
    + rewrite IH. rewrite <- app_assoc. simpl.
      f_equal. lia.
    + apply IH.
Qed.

Lemma emitted_In (xs : list A) (id : nat) (a : Anomaly.t) :
  In a (emitted body xs id) ->
  exists x id', In x xs /\ body x id' = Some a.
Proof.
  revert id. induction xs as [|x xs IH]; intros id Hin; simpl in Hin.
  - contradiction.
  - destruct (body x id) as [a'|] eqn:E.
    + destruct Hin as [Heq|Hin].
      * subst a'. exists x, id. split; [left; reflexivity | exact E].
      * destruct (IH _ Hin) as [x' [id' [Hx' Hb]]].
        exists x', id'. split; [right; exact Hx' | exact Hb].
    + destruct (IH _ Hin) as [x' [id' [Hx' Hb]]].
      exists x', id'. split; [right; exact Hx' | exact Hb].
Qed.

End PushEach.

Section KeyedLoop.
Context {V : Type} (body : string * V -> nat -> option Anomaly.t).
Hypothesis body_vendor :
  forall e id a, body e id = Some a -> Anomaly.vendor a = Some (fst e).

Lemma emitted_other_vendor (xs : list (string * V)) (id : nat) (v : string) :
  ~ In v (map fst xs) -> filter (has_vendor v) (emitted body xs id) = [].
Proof.
  revert id. induction xs as [|e xs IH]; intros id Hnot; simpl.
  - reflexivity.
  - simpl in Hnot.
    destruct (body e id) as [a|] eqn:E; simpl.
    + unfold has_vendor at 1. rewrite (body_vendor _ _ _ E).
      destruct (String.eqb (fst e) v) eqn:Ev.
      * apply String.eqb_eq in Ev. tauto.
      * apply IH. tauto.
    + apply IH. tauto.
Qed.

Lemma emitted_vendor_once (xs : list (string * V)) (id : nat) (v : string) :
  NoDup (map fst xs) ->
  (length (filter (has_vendor v) (emitted body xs id)) <= 1)%nat.
Proof.
  revert id. induction xs as [|e xs IH]; intros id Hnd; simpl.
  - lia.
  - inversion Hnd as [|? ? Hnot Hnd']; subst.
    destruct (body e id) as [a|] eqn:E; simpl.
    + unfold has_vendor at 1. rewrite (body_vendor _ _ _ E).
      destruct (String.eqb (fst e) v) eqn:Ev.
      * apply String.eqb_eq in Ev. subst v.
        rewrite emitted_other_vendor by exact Hnot. simpl. lia.
      * apply IH. exact Hnd'.
    + apply IH. exact Hnd'.
Qed.

(** The anomaly of the entry filed under [v], when there is one. *)
Lemma emitted_vendor_entry (xs : list (string * V)) (id : nat) (v : string) (x : V) :
  NoDup (map fst xs) -> In (v, x) xs ->
  exists id',
    filter (has_vendor v) (emitted body xs id)
    = match body (v, x) id' with Some a => [a] | None => [] end.
Proof.
  revert id. induction xs as [|e xs IH]; intros id Hnd Hin; simpl.
  - contradiction.
  - inversion Hnd as [|? ? Hnot Hnd']; subst.
    destruct Hin as [Heq|Hin].
    + subst e. exists id.
      destruct (body (v, x) id) as [a|] eqn:E; simpl.
      * unfold has_vendor at 1. rewrite (body_vendor _ _ _ E). simpl.
        rewrite String.eqb_refl.
        rewrite emitted_other_vendor by exact Hnot. reflexivity.
      * apply emitted_other_vendor. exact Hnot.
    + assert (Hne : fst e <> v).
      { intro Heq. apply Hnot. rewrite Heq.
        apply (in_map fst) in Hin. exact Hin. }
      destruct (body e id) as [a|] eqn:E; simpl.
      * unfold has_vendor at 1. rewrite (body_vendor _ _ _ E).
        apply String.eqb_neq in Hne. rewrite Hne.
        apply IH; assumption.
      * apply IH; assumption.
Qed.
End KeyedLoop.

(** ** Grouping *)

Lemma nonempty_Some {A : Type} (l l' : list A) :
  nonempty l = Some l' -> l = l' /\ l <> [].
Proof.
  destruct l; simpl; [discriminate|].
  intro H. inversion H. split; [reflexivity | discriminate].
Qed.

Lemma nonempty_None {A : Type} (l : list A) : nonempty l = None -> l = [].
Proof. destruct l; simpl; [reflexivity | discriminate]. Qed.

Lemma nonempty_snoc {A : Type} (l : list A) (x : A) :
  nonempty (l ++ [x]) = Some (l ++ [x]).
Proof. destruct l; reflexivity. Qed.

Section Grouping.
Variable key : Transaction.t -> string.

Lemma members_snoc (k : string) (seen : list Transaction.t) (t : Transaction.t) :
  members key k (seen ++ [t])
  = members key k seen ++ (if String.eqb (key t) k then [t] else []).
Proof. unfold members. rewrite filter_app. reflexivity. Qed.

Lemma grouped_empty : grouped key [] Obj.empty.
Proof. split; [constructor | reflexivity]. Qed.

Lemma push_group_grouped (seen : list Transaction.t)
      (o o' : Obj.t (list Transaction.t)) (t : Transaction.t) :
  grouped key seen o -> push_group key o t = Ok o' -> grouped key (seen ++ [t]) o'.
Proof.
  intros [Hnd Hown] Hpush. unfold push_group, Obj.get in Hpush.
  pose proof (Hown (key t)) as Hk.
  assert (Hnew : forall v, o' = Obj.put o (key t) v ->
                           v = members key (key t) seen ++ [t] ->
                           grouped key (seen ++ [t]) o').
  { intros v -> ->. split; [apply NoDup_put; exact Hnd|].
    intro k. rewrite members_snoc.
    destruct (String.eqb (key t) k) eqn:E.
    - apply String.eqb_eq in E. subst k.
      rewrite own_put_same, nonempty_snoc. reflexivity.
    - apply String.eqb_neq in E. rewrite own_put_other by congruence.
      rewrite app_nil_r. apply Hown. }
  destruct (Obj.own o (key t)) as [txns|] eqn:E.
  - inversion Hpush; subst o'. symmetry in Hk.
    apply nonempty_Some in Hk. destruct Hk as [Hk _].
    eapply Hnew; [reflexivity | rewrite Hk; reflexivity].
  - destruct (Obj.inherited (key t)); [discriminate|].
    inversion Hpush; subst o'. symmetry in Hk.
    apply nonempty_None in Hk.
    eapply Hnew; [reflexivity | rewrite Hk; reflexivity].
Qed.

Lemma push_group_returns (o : Obj.t (list Transaction.t)) (t : Transaction.t) :
  Obj.inherited (key t) = false -> exists o', push_group key o t = Ok o'.
Proof.
  intro H. unfold push_group. rewrite (get_not_inherited _ _ H).
  destruct (Obj.own o (key t)); eexists; reflexivity.
Qed.

(** A grouping that returns has filed every transaction under its key. *)
Lemma group_by_grouped (txns : list Transaction.t) (o : Obj.t (list Transaction.t)) :
  group_by key txns = Ok o -> grouped key txns o.
Proof.
  intro H.
  apply (foldM_Ok_invariant (push_group key) (grouped key) txns
           (fun seen b x b' => push_group_grouped seen b b' x)
           [] Obj.empty o grouped_empty H).
Qed.

(** It returns when no key is an inherited name. *)
Lemma group_by_returns (txns : list Transaction.t) :
  Forall (fun t => Obj.inherited (key t) = false) txns ->
  exists o, group_by key txns = Ok o /\ grouped key txns o.
Proof.
  intro H.
  destruct (foldM_invariant (push_group key)
              (fun t => Obj.inherited (key t) = false)
              (fun _ _ => True) txns) with (seen := @nil Transaction.t) (b := @Obj.empty (list Transaction.t))
    as [o [Ho _]]; auto.
  - intros seen b x _ Hx. destruct (push_group_returns b x Hx) as [b' Hb'].
    exists b'. auto.
  - exists o. split; [exact Ho | apply group_by_grouped; exact Ho].
Qed.

(** The entries of a grouping: one per key, holding the members in order. *)
Lemma grouped_entry (txns : list Transaction.t) (o : Obj.t (list Transaction.t))
      (k : string) (l : list Transaction.t) :
  grouped key txns o ->
  (In (k, l) (Obj.entries o) <-> l = members key k txns /\ l <> []).
Proof.
  intros [Hnd Hown]. rewrite entries_In. split.
  - intro Hin. apply (In_own _ _ _ Hnd) in Hin.
    rewrite Hown in Hin. apply nonempty_Some in Hin.
    destruct Hin as [H1 H2]. subst l. auto.
  - intros [-> Hne]. apply own_In. rewrite Hown.
    destruct (members key k txns); [contradiction | reflexivity].
Qed.
End Grouping.

(** ** Lists in step *)

Lemma Forall2_pick_r {A B : Type} (R : A -> B -> Prop) (xs : list A) (ys : list B) (y : B) :
  Forall2 R xs ys -> In y ys -> exists x, In x xs /\ R x y.
Proof.
  induction 1 as [|x y' xs ys Hxy H IH]; intro Hin; simpl in Hin.
  - contradiction.
  - destruct Hin as [Heq|Hin].
    + subst y'. exists x. split; [left; reflexivity | exact Hxy].
    + destruct (IH Hin) as [x' [Hx' HR]]. exists x'. split; [right; exact Hx' | exact HR].
Qed.

Lemma Forall2_with_In {A B : Type} (R : A -> B -> Prop) (xs : list A) (ys : list B) :
  Forall2 R xs ys -> Forall2 (fun x y => In x xs /\ R x y) xs ys.
Proof.
  induction 1 as [|x y xs ys Hxy _ IH]; constructor.
  - split; [left; reflexivity | exact Hxy].
  - eapply Forall2_impl; [|exact IH].
    intros a b [Ha Hab]. split; [right; exact Ha | exact Hab].
Qed.

(** ** Loops of grouping rounds *)

Section Rounds.
Context {X V : Type} (groups : X -> result (Obj.t V))
        (body : X -> string * V -> nat -> option Anomaly.t).

(** The anomalies of a loop that returned: one part per round, in order. *)
Lemma rounds_parts (xs : list X) (st st' : Findings) :
  foldM (grouping_round groups body) xs st = Ok st' ->
  exists parts,
    fst st' = fst st ++ concat parts
    /\ Forall2 (fun x part =>
                  exists o id, groups x = Ok o
                               /\ part = emitted (body x) (Obj.entries o) id)
               xs parts.
Proof.
  revert st. induction xs as [|x xs IH]; intros st H; simpl in H.
  - inversion H; subst. exists []. simpl. rewrite app_nil_r. split; [reflexivity|constructor].
  - unfold grouping_round at 1 in H.
    destruct (groups x) as [o|e] eqn:Hg; simpl in H; [|discriminate].
    destruct st as [acc id]. rewrite push_each_emitted in H.
    destruct (IH _ H) as [parts [Hfst Hparts]].
    exists (emitted (body x) (Obj.entries o) id :: parts). split.
    + rewrite Hfst. simpl. rewrite app_assoc. reflexivity.
    + constructor; [|exact Hparts]. exists o, id. auto.
Qed.

Lemma rounds_return (xs : list X) (st : Findings) :
  Forall (fun x => exists o, groups x = Ok o) xs ->
  exists st', foldM (grouping_round groups body) xs st = Ok st'.
Proof.
  revert st. induction xs as [|x xs IH]; intros st H; simpl.
  - eexists. reflexivity.
  - inversion H as [|? ? [o Ho] H']; subst.
    unfold grouping_round at 1. rewrite Ho. simpl. apply IH. exact H'.
Qed.
End Rounds.

(** ** Threshold avoidance *)

Lemma threshold_round_grouping (transactions : list Transaction.t) :
  threshold_round transactions
  = grouping_round
      (fun threshold => group_by Transaction.vendor (filter (near threshold) transactions))
      threshold_anomaly.
Proof. reflexivity. Qed.

Lemma threshold_anomaly_Some (threshold : Q) (vendor : string)
      (txns : list Transaction.t) (id : nat) (a : Anomaly.t) :
  threshold_anomaly threshold (vendor, txns) id = Some a ->
  (3 <= length txns)%nat
  /\ Anomaly.vendor a = Some vendor
  /\ threshold_of a = Some threshold
  /\ Anomaly.severity a = (if (5 <=? length txns)%nat then critical else high)
  /\ Anomaly.amount a = Some (sum_amounts txns)
  /\ Anomaly.count a = Some (length txns).
Proof.
  unfold threshold_anomaly.
  destruct (3 <=? length txns)%nat eqn:E; [|discriminate].
  intro H. inversion H; subst a. simpl.
  apply Nat.leb_le in E. repeat split; auto.
Qed.

Lemma threshold_anomaly_None (threshold : Q) (vendor : string)
      (txns : list Transaction.t) (id : nat) :
  threshold_anomaly threshold (vendor, txns) id = None <-> (length txns < 3)%nat.
Proof.
  unfold threshold_anomaly.
  destruct (3 <=? length txns)%nat eqn:E.
  - apply Nat.leb_le in E. split; [discriminate | lia].
  - apply Nat.leb_gt in E. split; auto.
Qed.

Lemma thresholds_are :
  forall threshold, In threshold APPROVAL_THRESHOLDS ->
    threshold = 1000 \/ threshold = 2500 \/ threshold = 5000 \/ threshold = 10000
    \/ threshold = 25000 \/ threshold = 50000 \/ threshold = 100000.
Proof.
  intros threshold H. simpl in H.
  repeat (destruct H as [H|H]; [symmetry in H; tauto|]). contradiction.
Qed.

Lemma near_bounds (threshold : Q) (t : Transaction.t) :
  near threshold t = true <->
  lowerBound threshold <= Transaction.amount t
  /\ Transaction.amount t <= upperBound threshold.
Proof.
  unfold near. rewrite andb_true_iff, Qgeb_le, Qle_bool_iff. reflexivity.
Qed.

(** The windows of two different thresholds do not meet. *)
Lemma windows_apart (t1 t2 : Q) :
  In t1 APPROVAL_THRESHOLDS -> In t2 APPROVAL_THRESHOLDS -> t1 <> t2 ->
  upperBound t1 < lowerBound t2 \/ upperBound t2 < lowerBound t1.
Proof.
  intros H1 H2 Hne.
  apply thresholds_are in H1. apply thresholds_are in H2.
  repeat (destruct H1 as [H1|H1]); repeat (destruct H2 as [H2|H2]); subst;
    try (exfalso; apply Hne; reflexivity);
    solve [left; reflexivity | right; reflexivity].
Qed.

Lemma near_one_threshold (t1 t2 : Q) (t : Transaction.t) :
  In t1 APPROVAL_THRESHOLDS -> In t2 APPROVAL_THRESHOLDS ->
  near t1 t = true -> near t2 t = true -> t1 = t2.
Proof.
  intros H1 H2 N1 N2.
  assert (Hdec : t1 = t2 \/ t1 <> t2).
  { apply thresholds_are in H1. apply thresholds_are in H2.
    repeat (destruct H1 as [H1|H1]); repeat (destruct H2 as [H2|H2]); subst;
      solve [left; reflexivity | right; discriminate]. }
  destruct Hdec as [Heq|Hne]; [exact Heq|].
  apply near_bounds in N1. apply near_bounds in N2.
  destruct N1 as [L1 U1]. destruct N2 as [L2 U2].
  exfalso. destruct (windows_apart t1 t2 H1 H2 Hne) as [H|H].
  - apply (Qlt_irrefl (Transaction.amount t)).
    eapply Qle_lt_trans; [exact U1|]. eapply Qlt_le_trans; [exact H | exact L2].
  - apply (Qlt_irrefl (Transaction.amount t)).
    eapply Qle_lt_trans; [exact U2|]. eapply Qlt_le_trans; [exact H | exact L1].
Qed.

Lemma contributors_near (threshold : Q) (vendor : string)
      (transactions : list Transaction.t) (t : Transaction.t) :
  In t (contributors threshold vendor transactions) ->
  In t transactions /\ near threshold t = true /\ Transaction.vendor t = vendor.
Proof.
  unfold contributors, members. rewrite !filter_In.
  intros [[H1 H2] H3]. apply String.eqb_eq in H3. auto.
Qed.

(** Every anomaly of a run that returned stands for a threshold and a vendor
    and is computed from their contributors. *)
Lemma threshold_anomalies_origin (transactions : list Transaction.t) (id : nat)
      (anomalies : list Anomaly.t) (next : nat) (a : Anomaly.t) :
  detectThresholdAvoidance transactions id = Ok (anomalies, next) ->
  In a anomalies ->
  exists threshold vendor,
    In threshold APPROVAL_THRESHOLDS
    /\ threshold_of a = Some threshold
    /\ Anomaly.vendor a = Some vendor
    /\ (3 <= length (contributors threshold vendor transactions))%nat
    /\ Anomaly.count a = Some (length (contributors threshold vendor transactions))
    /\ Anomaly.amount a = Some (sum_amounts (contributors threshold vendor transactions)).
Proof.
  unfold detectThresholdAvoidance. rewrite threshold_round_grouping.
  intros Hrun Hin.
  destruct (rounds_parts _ _ _ _ _ Hrun) as [parts [Hfst Hparts]].
  simpl in Hfst. subst anomalies.
  apply in_concat in Hin. destruct Hin as [part [Hpart Ha]].
  destruct (Forall2_pick_r _ _ _ _ Hparts Hpart) as [threshold [HT [o [id' [Hg Hp]]]]].
  subst part. apply emitted_In in Ha.
  destruct Ha as [[vendor txns] [id'' [He Hb]]].
  apply group_by_grouped in Hg.
  apply (grouped_entry _ _ _ _ _ Hg) in He. destruct He as [Htx _].
  apply threshold_anomaly_Some in Hb.
  destruct Hb as [H3 [Hv [Ht [_ [Hamt Hcnt]]]]].
  exists threshold, vendor. unfold contributors. rewrite <- Htx. auto 10.
Qed.

(** ** Benford's law *)

Lemma filter_map_swap {A B : Type} (f : A -> B) (p : B -> bool) (l : list A) :
  filter p (map f l) = map f (filter (fun x => p (f x)) l).
Proof.
  induction l as [|x l IH]; simpl; [reflexivity|].
  destruct (p (f x)); simpl; rewrite IH; reflexivity.
Qed.

Lemma count_digit_fold (amounts : list Q) (firstDigits : nat -> nat) (d : nat) :
  leading_digit d ->
  fold_left count_digit amounts firstDigits d
  = (firstDigits d + length (filter (leads_with d) amounts))%nat.
Proof.
  intros [Hlo Hhi]. revert firstDigits.
  induction amounts as [|a amounts IH]; intro firstDigits; simpl.
  - lia.
  - rewrite IH. unfold count_digit, leads_with.
    destruct (firstDigitOf a) as [fd|]; [|reflexivity].
    destruct (Nat.eqb_spec fd d) as [->|Hne].
    + assert (H1 : (1 <=? d)%nat = true) by (apply Nat.leb_le; exact Hlo).
      assert (H2 : (d <=? 9)%nat = true) by (apply Nat.leb_le; exact Hhi).
      rewrite H1, H2. simpl. rewrite Nat.eqb_refl. simpl. lia.
    + destruct ((1 <=? fd)%nat && (fd <=? 9)%nat); [|reflexivity].
      destruct (Nat.eqb_spec d fd) as [->|_]; [contradiction | reflexivity].
Qed.

Lemma deviation_of_counted (amounts : list Q) (d : nat) :
  leading_digit d ->
  deviation_of (fold_left count_digit amounts (fun _ => O)) (length amounts) d
  = digit_deviation amounts d.
Proof.
  intro Hd. unfold deviation_of, digit_deviation, observed.
  rewrite (count_digit_fold amounts _ d Hd). reflexivity.
Qed.

Lemma seq_1_9_digit (d : nat) : In d (seq 1 9) <-> leading_digit d.
Proof. rewrite in_seq. unfold leading_digit. lia. Qed.

Lemma deviations_over_counted (amounts : list Q) :
  deviations_over (fold_left count_digit amounts (fun _ => O)) (length amounts)
  = qualifying_deviations amounts.
Proof.
  unfold deviations_over, qualifying_deviations.
  rewrite (map_ext_in _ (digit_deviation amounts)).
  - apply filter_map_swap.
  - intros d Hd. apply deviation_of_counted, seq_1_9_digit, Hd.
Qed.

Lemma qualifying_deviations_In (amounts : list Q) (x : Deviation.t) :
  In x (qualifying_deviations amounts) <->
  exists d, leading_digit d /\ 0.05 < deviation_at amounts d
            /\ x = digit_deviation amounts d.
Proof.
  unfold qualifying_deviations. rewrite in_map_iff. split.
  - intros [d [Hx Hd]]. apply filter_In in Hd. destruct Hd as [Hd Hq].
    exists d. rewrite <- seq_1_9_digit. apply Qgtb_lt in Hq. auto.
  - intros [d [Hd [Hq Hx]]]. exists d. split; [auto|].
    apply filter_In. split; [apply seq_1_9_digit; exact Hd | apply Qgtb_lt; exact Hq].
Qed.

Lemma by_deviation_desc_le (x y : Deviation.t) :
  Num.gt (by_deviation_desc x y) (Fin 0) = false -> deviation_desc x y.
Proof.
  unfold by_deviation_desc, deviation_desc. rewrite Num_gt_Fin, Qgtb_false_le.
  intro H. lra.
Qed.

Lemma by_deviation_desc_gt (x y : Deviation.t) :
  Num.gt (by_deviation_desc x y) (Fin 0) = true -> deviation_desc y x.
Proof.
  unfold by_deviation_desc, deviation_desc. rewrite Num_gt_Fin, Qgtb_lt.
  intro H. lra.
Qed.

Lemma existsb_perm {A : Type} (p : A -> bool) (l l' : list A) :
  Permutation l l' -> existsb p l = existsb p l'.
Proof.
  intro H. destruct (existsb p l') eqn:E.
  - apply existsb_exists in E. destruct E as [x [Hx Hp]].
    apply existsb_exists. exists x. split; [|exact Hp].
    apply (Permutation_in _ (Permutation_sym H)). exact Hx.
  - destruct (existsb p l) eqn:E'; [|reflexivity].
    apply existsb_exists in E'. destruct E' as [x [Hx Hp]].
    assert (existsb p l' = true) as E2.
    { apply existsb_exists. exists x. split; [|exact Hp].
      apply (Permutation_in _ H). exact Hx. }
    congruence.
Qed.

(** ** Large outliers *)

Lemma floor_index_half (n : nat) : floor_index (Qnat n / 2) = (n / 2)%nat.
Proof.
  unfold floor_index, Qnat, Qfloor, Qdiv, Qinv, Qmult, inject_Z.
  cbn [Qnum Qden Pos.mul Z.to_pos]. rewrite Z.mul_1_r.
  rewrite <- (Nat2Z.id (n / 2)). f_equal. rewrite Nat2Z.inj_div. reflexivity.
Qed.

Lemma floor_index_q3 (n : nat) : floor_index (Qnat n * 0.75) = (3 * n / 4)%nat.
Proof.
  unfold floor_index, Qnat, Qfloor, Qmult, inject_Z. cbn [Qnum Qden Pos.mul].
  replace (Z.of_nat n * 75)%Z with ((Z.of_nat n * 3) * 25)%Z by lia.
  change (Z.pos 100) with (4 * 25)%Z.
  rewrite Z.div_mul_cancel_r by lia.
  rewrite <- (Nat2Z.id (3 * n / 4)). f_equal. rewrite Nat2Z.inj_div. f_equal. lia.
Qed.

Lemma floor_index_q1 (n : nat) : floor_index (Qnat n * 0.25) = (n / 4)%nat.
Proof.
  unfold floor_index, Qnat, Qfloor, Qmult, inject_Z. cbn [Qnum Qden Pos.mul].
  change (Z.pos 100) with (4 * 25)%Z.
  rewrite Z.div_mul_cancel_r by lia.
  rewrite <- (Nat2Z.id (n / 4)). f_equal. rewrite Nat2Z.inj_div. reflexivity.
Qed.

Lemma ascending_le (x y : Q) : Num.gt (ascending x y) (Fin 0) = false -> x <= y.
Proof. unfold ascending. rewrite Num_gt_Fin, Qgtb_false_le. intro H. lra. Qed.

Lemma ascending_gt (x y : Q) : Num.gt (ascending x y) (Fin 0) = true -> y <= x.
Proof. unfold ascending. rewrite Num_gt_Fin, Qgtb_lt. intro H. lra. Qed.

Lemma sorted_amounts_sorted (transactions : list Transaction.t) :
  Sorted Qle (sorted_amounts transactions).
Proof.
  apply sort_sorted with (R := Qle); [exact ascending_le | exact ascending_gt].
Qed.

Lemma sorted_amounts_perm (transactions : list Transaction.t) :
  Permutation (sorted_amounts transactions) (map Transaction.amount transactions).
Proof. apply sort_perm. Qed.

Lemma sorted_amounts_length (transactions : list Transaction.t) :
  length (sorted_amounts transactions) = length transactions.
Proof. unfold sorted_amounts. rewrite sort_length. apply length_map. Qed.

Lemma filter_perm {A : Type} (p : A -> bool) (l l' : list A) :
  Permutation l l' -> Permutation (filter p l) (filter p l').
Proof.
  induction 1 as [| x l l' _ IH | x y l | l l' l'' _ IH1 _ IH2]; simpl.
  - apply perm_nil.
  - destruct (p x); [apply perm_skip|]; exact IH.
  - destruct (p x), (p y); try apply Permutation_refl. apply perm_swap.
  - eapply Permutation_trans; eassumption.
Qed.

Lemma filter_length_perm {A : Type} (p : A -> bool) (l l' : list A) :
  Permutation l l' -> length (filter p l) = length (filter p l').
Proof. intro H. apply Permutation_length, filter_perm, H. Qed.

Lemma filter_all {A : Type} (p : A -> bool) (l : list A) :
  Forall (fun x => p x = true) l -> filter p l = l.
Proof.
  induction 1 as [|x l Hx _ IH]; simpl; [reflexivity|].
  rewrite Hx, IH. reflexivity.
Qed.

Lemma filter_none {A : Type} (p : A -> bool) (l : list A) :
  Forall (fun x => p x = false) l -> filter p l = [].
Proof.
  induction 1 as [|x l Hx _ IH]; simpl; [reflexivity|].
  rewrite Hx, IH. reflexivity.
Qed.

(** In an ascending list, everything from an element of at least [c] onwards
    is at least [c]. *)
Lemma ascending_tail_count (c : Q) (l : list Q) :
  StronglySorted Qle l ->
  forall i x, nth_error l i = Some x -> c <= x ->
              (length l - i <= length (filter (Qle_bool c) l))%nat.
Proof.
  induction 1 as [|a l Hs IH Hall]; intros i x Hnth Hc.
  - destruct i; discriminate.
  - destruct i as [|i]; simpl in Hnth.
    + inversion Hnth; subst a.
      rewrite filter_all; [simpl; lia|].
      constructor.
      * apply Qle_bool_iff. exact Hc.
      * eapply Forall_impl; [|exact Hall].
        intros y Hy. apply Qle_bool_iff. eapply Qle_trans; eassumption.
    + specialize (IH i x Hnth Hc). simpl.
      destruct (Qle_bool c a); simpl; lia.
Qed.

Lemma upperFence_value (amounts : list Q) (q1 q3 : Q) :
  nth_error amounts (length amounts / 4) = Some q1 ->
  nth_error amounts (3 * length amounts / 4) = Some q3 ->
  upperFence_of amounts = Fin (q3 + (q3 + - q1) * 3).
Proof.
  intros H1 H3. unfold upperFence_of, q3_of, q1_of, at_index.
  rewrite floor_index_q3, floor_index_q1, H1, H3. reflexivity.
Qed.

Lemma upperFence_empty : upperFence_of [] = NaN.
Proof. reflexivity. Qed.

Lemma emitted_always {A : Type} (body : A -> nat -> option Anomaly.t)
      (R : A -> Anomaly.t -> Prop) (xs : list A) (id : nat) :
  (forall x id', exists a, body x id' = Some a /\ R x a) ->
  Forall2 R xs (emitted body xs id).
Proof.
  intro Hbody. revert id. induction xs as [|x xs IH]; intro id; simpl.
  - constructor.
  - destruct (Hbody x id) as [a [Ha HR]]. rewrite Ha.
    constructor; [exact HR | apply IH].
Qed.

Lemma outlier_anomaly_flags (median : number) (t : Transaction.t) (id : nat) :
  exists a, outlier_anomaly median t id = Some a /\ flags_outlier t a.
Proof.
  eexists. split; [reflexivity|]. unfold flags_outlier. simpl. auto.
Qed.

Lemma detectOutliers_emitted (transactions : list Transaction.t) (id : nat) :
  let amounts := sorted_amounts transactions in
  let flagged :=
    firstn 10 (filter (is_outlier (upperFence_of amounts)) transactions) in
  detectOutliers transactions id
  = (emitted (outlier_anomaly (median_of amounts)) flagged id,
     (id + length (emitted (outlier_anomaly (median_of amounts)) flagged id))%nat).
Proof.
  intros amounts flagged. unfold detectOutliers. rewrite push_each_emitted.
  reflexivity.
Qed.

(** One payment above $10,000,000 among at least four payments between $0
    and $10,000: the fence stays below $40,000 and the payment alone is an
    outlier. *)
Lemma lone_giant_outlier (transactions others : list Transaction.t) (big : Transaction.t) :
  Permutation transactions (big :: others) ->
  (4 <= length others)%nat ->
  Forall (fun t => 0 <= Transaction.amount t /\ Transaction.amount t < 10000) others ->
  10000000 < Transaction.amount big ->
  filter (is_outlier (upperFence_of (sorted_amounts transactions))) transactions
  = [big].
Proof.
  intros Hperm Hlen Hothers Hbig.
  set (sorted := sorted_amounts transactions).
  assert (Hn : length sorted = S (length others)).
  { unfold sorted. rewrite sorted_amounts_length.
    rewrite (Permutation_length Hperm). reflexivity. }
  assert (Hamounts : Permutation sorted
                       (Transaction.amount big :: map Transaction.amount others)).
  { eapply Permutation_trans; [apply sorted_amounts_perm|].
    apply (Permutation_map Transaction.amount) in Hperm. exact Hperm. }
  assert (Hcount : length (filter (Qle_bool 10000) sorted) = 1%nat).
  { rewrite (filter_length_perm _ _ _ Hamounts). simpl.
    assert (E : Qle_bool 10000 (Transaction.amount big) = true)
      by (apply Qle_bool_iff; lra).
    rewrite E. simpl. rewrite filter_none; [reflexivity|].
    apply Forall_map. eapply Forall_impl; [|exact Hothers].
    intros t [_ Ht]. simpl.
    destruct (Qle_bool 10000 (Transaction.amount t)) eqn:E'; [|reflexivity].
    apply Qle_bool_iff in E'. lra. }
  assert (Hnonneg : forall q, In q sorted -> 0 <= q).
  { intros q Hq. apply (Permutation_in _ Hamounts) in Hq.
    destruct Hq as [<-|Hq]; [lra|].
    apply in_map_iff in Hq. destruct Hq as [t [<- Ht]].
    rewrite Forall_forall in Hothers. apply Hothers in Ht. tauto. }
  assert (Hss : StronglySorted Qle sorted).
  { apply Sorted_StronglySorted; [exact Qle_trans | apply sorted_amounts_sorted]. }
  destruct (nth_error sorted (length sorted / 4)) as [q1|] eqn:E1.
  2:{ apply nth_error_None in E1. exfalso.
      assert (length sorted / 4 < length sorted)%nat
        by (apply Nat.div_lt; lia). lia. }
  destruct (nth_error sorted (3 * length sorted / 4)) as [q3|] eqn:E3.
  2:{ apply nth_error_None in E3. exfalso.
      assert (3 * length sorted / 4 < length sorted)%nat
        by (apply Nat.Div0.div_lt_upper_bound; lia). lia. }
  assert (Hq3 : q3 < 10000).
  { apply Qnot_le_lt. intro Hge.
    pose proof (ascending_tail_count 10000 sorted Hss _ _ E3 Hge) as Htail.
    rewrite Hcount in Htail.
    assert (3 * length sorted / 4 <= length sorted - 2)%nat.
    { apply Nat.lt_succ_r. apply Nat.Div0.div_lt_upper_bound. lia. }
    lia. }
  assert (Hq1 : 0 <= q1) by (apply Hnonneg; eapply nth_error_In; exact E1).
  fold sorted. rewrite (upperFence_value sorted q1 q3 E1 E3).
  assert (Hfilter : Permutation
            (filter (is_outlier (Fin (q3 + (q3 + - q1) * 3))) transactions)
            [big]).
  { eapply Permutation_trans.
    - apply filter_perm. exact Hperm.
    - simpl.
      assert (Eb : is_outlier (Fin (q3 + (q3 + - q1) * 3)) big = true).
      { unfold is_outlier. rewrite Num_gt_Fin. apply andb_true_iff.
        split; apply Qgtb_lt; lra. }
      rewrite Eb. rewrite filter_none; [apply Permutation_refl|].
      eapply Forall_impl; [|exact Hothers].
      intros t [_ Ht]. unfold is_outlier. apply andb_false_iff. right.
      apply Qgtb_false_le. lra. }
  apply Permutation_length_1_inv. apply Permutation_sym. exact Hfilter.
Qed.

(** ** Vendor-name red flags *)

Lemma sum_amounts_snoc (txns : list Transaction.t) (t : Transaction.t) :
  sum_amounts (txns ++ [t]) = sum_amounts txns + Transaction.amount t.
Proof. unfold sum_amounts. rewrite fold_left_app. reflexivity. Qed.

Lemma vendor_total_snoc (txns : list Transaction.t) (t : Transaction.t) :
  VendorTotal.mk (VendorTotal.total (vendor_total_of txns) + Transaction.amount t)
                 (S (VendorTotal.count (vendor_total_of txns)))
                 (VendorTotal.txns (vendor_total_of txns) ++ [t])
  = vendor_total_of (txns ++ [t]).
Proof.
  unfold vendor_total_of. simpl. rewrite sum_amounts_snoc, length_app. simpl.
  rewrite Nat.add_1_r. reflexivity.
Qed.

Lemma totalled_empty : totalled [] Obj.empty.
Proof. split; [constructor | reflexivity]. Qed.

Lemma add_vendor_total_totalled (seen : list Transaction.t)
      (o o' : Obj.t VendorTotal.t) (t : Transaction.t) :
  totalled seen o -> add_vendor_total o t = Ok o' -> totalled (seen ++ [t]) o'.
Proof.
  intros [Hnd Hown] Hadd. unfold add_vendor_total, Obj.get in Hadd.
  pose proof (Hown (Transaction.vendor t)) as Hk.
  assert (Hnew : o' = Obj.put o (Transaction.vendor t)
                              (vendor_total_of
                                 (members Transaction.vendor (Transaction.vendor t) seen
                                    ++ [t])) ->
                 totalled (seen ++ [t]) o').
  { intros ->. split; [apply NoDup_put; exact Hnd|].
    intro k. rewrite members_snoc.
    destruct (String.eqb (Transaction.vendor t) k) eqn:E.
    - apply String.eqb_eq in E. subst k.
      rewrite own_put_same, nonempty_snoc. reflexivity.
    - apply String.eqb_neq in E. rewrite own_put_other by congruence.
      rewrite app_nil_r. apply Hown. }
  destruct (Obj.own o (Transaction.vendor t)) as [data|] eqn:E.
  - inversion Hadd; subst o'. apply Hnew.
    destruct (nonempty (members Transaction.vendor (Transaction.vendor t) seen))
      as [l|] eqn:El; simpl in Hk; [|discriminate].
    apply nonempty_Some in El. destruct El as [El _]. rewrite El.
    inversion Hk; subst data. rewrite vendor_total_snoc. reflexivity.
  - destruct (Obj.inherited (Transaction.vendor t)); [discriminate|].
    inversion Hadd; subst o'. apply Hnew.
    destruct (nonempty (members Transaction.vendor (Transaction.vendor t) seen))
      as [l|] eqn:El; simpl in Hk; [discriminate|].
    apply nonempty_None in El. rewrite El. reflexivity.
Qed.

Lemma add_vendor_total_returns (o : Obj.t VendorTotal.t) (t : Transaction.t) :
  Obj.inherited (Transaction.vendor t) = false ->
  exists o', add_vendor_total o t = Ok o'.
Proof.
  intro H. unfold add_vendor_total. rewrite (get_not_inherited _ _ H).
  destruct (Obj.own o (Transaction.vendor t)); eexists; reflexivity.
Qed.

Lemma vendor_totals_totalled (transactions : list Transaction.t)
      (o : Obj.t VendorTotal.t) :
  foldM add_vendor_total transactions Obj.empty = Ok o -> totalled transactions o.
Proof.
  intro H.
  apply (foldM_Ok_invariant add_vendor_total totalled transactions
           (fun seen b x b' => add_vendor_total_totalled seen b b' x)
           [] Obj.empty o totalled_empty H).
Qed.

Lemma vendor_totals_return (transactions : list Transaction.t) :
  plain_vendors transactions ->
  exists o, foldM add_vendor_total transactions Obj.empty = Ok o
            /\ totalled transactions o.
Proof.
  intro H.
  destruct (foldM_invariant add_vendor_total
              (fun t => Obj.inherited (Transaction.vendor t) = false)
              (fun _ _ => True) transactions)
    with (seen := @nil Transaction.t) (b := @Obj.empty VendorTotal.t)
    as [o [Ho _]]; auto.
  - intros seen b x _ Hx. destruct (add_vendor_total_returns b x Hx) as [b' Hb'].
    exists b'. auto.
  - exists o. split; [exact Ho | apply vendor_totals_totalled; exact Ho].
Qed.

Lemma totalled_entry (transactions : list Transaction.t) (o : Obj.t VendorTotal.t)
      (k : string) :
  totalled transactions o ->
  payments_to k transactions <> [] ->
  In (k, vendor_total_of (payments_to k transactions)) (Obj.entries o).
Proof.
  intros [Hnd Hown] Hne. apply entries_In, own_In. rewrite Hown.
  unfold payments_to in *.
  destruct (members Transaction.vendor k transactions); [contradiction | reflexivity].
Qed.

Lemma totalled_no_entry (transactions : list Transaction.t) (o : Obj.t VendorTotal.t)
      (k : string) :
  totalled transactions o ->
  payments_to k transactions = [] ->
  ~ In k (map fst (Obj.entries o)).
Proof.
  intros [Hnd Hown] He Hin.
  apply in_map_iff in Hin. destruct Hin as [[k' d] [Hk Hin]]. simpl in Hk. subst k'.
  apply (proj1 (entries_In o (k, d))) in Hin. apply (In_own _ _ _ Hnd) in Hin.
  rewrite Hown in Hin. unfold payments_to in He. rewrite He in Hin. discriminate.
Qed.

Lemma name_flag_anomaly_vendor (e : string * VendorTotal.t) (id : nat) (a : Anomaly.t) :
  name_flag_anomaly e id = Some a -> Anomaly.vendor a = Some (fst e).
Proof.
  destruct e as [vendor data]. unfold name_flag_anomaly.
  destruct (Qltb (VendorTotal.total data) 50000); [discriminate|].
  destruct (find _ suspiciousPatterns) as [[re name]|]; [|discriminate].
  intro H. inversion H. reflexivity.
Qed.

Lemma first_match_find (patterns : list (Regex.re * string)) (vendor : string) :
  first_match patterns vendor
  = match find (fun p => Regex.test (fst p) vendor) patterns with
    | Some (_, name) => Some name
    | None => None
    end.
Proof.
  unfold first_match. destruct (find _ patterns) as [[re name]|]; reflexivity.
Qed.

(** ** Which inputs make the detectors throw *)

Lemma has_bar_app (a b : string) : has_bar (a ++ "|" ++ b)%string = true.
Proof.
  induction a as [|c a IH]; simpl in *.
  - reflexivity.
  - rewrite IH. apply orb_true_r.
Qed.

Lemma inherited_no_bar (k : string) : Obj.inherited k = true -> has_bar k = false.
Proof.
  unfold Obj.inherited. intro H. apply existsb_exists in H.
  destruct H as [name [Hin Heq]]. apply String.eqb_eq in Heq. subst name.
  simpl in Hin.
  repeat (destruct Hin as [Hin|Hin]; [subst k; reflexivity|]). contradiction.
Qed.

(** A key with a [|] in it is no inherited name. *)
Lemma barred_not_inherited (a b : string) :
  Obj.inherited (a ++ "|" ++ b)%string = false.
Proof.
  destruct (Obj.inherited (a ++ "|" ++ b)%string) eqn:E; [|reflexivity].
  apply inherited_no_bar in E. rewrite has_bar_app in E. discriminate.
Qed.

Lemma plain_vendors_filter (p : Transaction.t -> bool) (txns : list Transaction.t) :
  plain_vendors txns -> plain_vendors (filter p txns).
Proof.
  unfold plain_vendors. rewrite !Forall_forall. intros H t Ht.
  apply filter_In in Ht. apply H. tauto.
Qed.

Lemma plain_vendors_app (l1 l2 : list Transaction.t) :
  plain_vendors (l1 ++ l2) <-> plain_vendors l1 /\ plain_vendors l2.
Proof. apply Forall_app. Qed.

Lemma group_by_vendor_returns (txns : list Transaction.t) :
  plain_vendors txns ->
  exists o, group_by Transaction.vendor txns = Ok o
            /\ grouped Transaction.vendor txns o.
Proof. apply group_by_returns. Qed.

Lemma detectDuplicatePayments_returns (Number_toString : Q -> string)
      (Date_getTime : string -> number) (transactions : list Transaction.t) (id : nat) :
  exists findings,
    detectDuplicatePayments Number_toString Date_getTime transactions id = Ok findings.
Proof.
  unfold detectDuplicatePayments.
  destruct (group_by_returns (vendor_amount_key Number_toString) transactions)
    as [o [Ho _]].
  - apply Forall_forall. intros t _. apply barred_not_inherited.
  - rewrite Ho. simpl. eexists. reflexivity.
Qed.

Lemma detectSameDayPayments_returns (transactions : list Transaction.t) (id : nat) :
  exists findings, detectSameDayPayments transactions id = Ok findings.
Proof.
  unfold detectSameDayPayments.
  destruct (group_by_returns vendor_day_key
              (filter (fun t => Str.truthy (Transaction.date t)) transactions))
    as [o [Ho _]].
  - apply Forall_forall. intros t _. apply barred_not_inherited.
  - rewrite Ho. simpl. eexists. reflexivity.
Qed.

Lemma detectThresholdAvoidance_returns (transactions : list Transaction.t) (id : nat) :
  plain_vendors transactions ->
  exists findings, detectThresholdAvoidance transactions id = Ok findings.
Proof.
  intro Hplain. unfold detectThresholdAvoidance. rewrite threshold_round_grouping.
  apply rounds_return. apply Forall_forall. intros threshold _.
  destruct (group_by_vendor_returns (filter (near threshold) transactions))
    as [o [Ho _]]; [apply plain_vendors_filter; exact Hplain|].
  exists o. exact Ho.
Qed.

Lemma pattern_round_grouping (transactions : list Transaction.t) :
  pattern_round transactions
  = grouping_round
      (fun pattern => group_by Transaction.vendor (filter (is_round pattern) transactions))
      (round_anomaly transactions).
Proof. reflexivity. Qed.

Lemma detectRoundNumbers_returns (transactions : list Transaction.t) (id : nat) :
  plain_vendors transactions ->
  exists findings, detectRoundNumbers transactions id = Ok findings.
Proof.
  intro Hplain. unfold detectRoundNumbers. rewrite pattern_round_grouping.
  apply rounds_return. apply Forall_forall. intros pattern _.
  destruct (group_by_vendor_returns (filter (is_round pattern) transactions))
    as [o [Ho _]]; [apply plain_vendors_filter; exact Hplain|].
  exists o. exact Ho.
Qed.

Lemma detectWeekendPayments_returns (Date_getDay : string -> number)
      (transactions : list Transaction.t) (id : nat) :
  plain_vendors transactions ->
  exists findings, detectWeekendPayments Date_getDay transactions id = Ok findings.
Proof.
  intro Hplain. unfold detectWeekendPayments.
  destruct (length (filter (on_weekend Date_getDay) transactions) =? 0)%nat;
    [eexists; reflexivity|].
  destruct (group_by_vendor_returns (filter (on_weekend Date_getDay) transactions))
    as [o [Ho _]]; [apply plain_vendors_filter; exact Hplain|].
  rewrite Ho. simpl. eexists. reflexivity.
Qed.

Lemma detectAddressRedFlags_returns (transactions : list Transaction.t) (id : nat) :
  plain_vendors transactions ->
  exists findings, detectAddressRedFlags transactions id = Ok findings.
Proof.
  intro Hplain. unfold detectAddressRedFlags.
  destruct (vendor_totals_return transactions Hplain) as [o [Ho _]].
  rewrite Ho. simpl. eexists. reflexivity.
Qed.

Lemma add_vendor_stat_returns (o : Obj.t VendorStat.t) (t : Transaction.t) :
  Obj.inherited (Transaction.vendor t) = false ->
  exists o', add_vendor_stat o t = Ok o'.
Proof.
  intro H. unfold add_vendor_stat. rewrite (get_not_inherited _ _ H).
  destruct (Obj.own o (Transaction.vendor t)); eexists; reflexivity.
Qed.

Lemma detectHighFrequency_returns (transactions : list Transaction.t) (id : nat) :
  plain_vendors transactions ->
  exists findings, detectHighFrequency transactions id = Ok findings.
Proof.
  intro Hplain. unfold detectHighFrequency.
  destruct (foldM_invariant add_vendor_stat
              (fun t => Obj.inherited (Transaction.vendor t) = false)
              (fun _ _ => True) transactions)
    with (seen := @nil Transaction.t) (b := @Obj.empty VendorStat.t)
    as [o [Ho _]]; auto.
  - intros seen b x _ Hx. destruct (add_vendor_stat_returns b x Hx) as [b' Hb'].
    exists b'. auto.
  - rewrite Ho. simpl. eexists. reflexivity.
Qed.

(** The empty input of the high-frequency check: the average is 0/0 = NaN and
    nothing is flagged. *)
Lemma detectHighFrequency_empty (id : nat) : detectHighFrequency [] id = Ok ([], id).
Proof. reflexivity. Qed.

(** [detectAddressRedFlags] returns only when no vendor bears an inherited
    name: the first such vendor has no own entry yet. *)
Lemma vendor_totals_plain (transactions : list Transaction.t) (o : Obj.t VendorTotal.t) :
  foldM add_vendor_total transactions Obj.empty = Ok o -> plain_vendors transactions.
Proof.
  intro H.
  apply (foldM_Ok_invariant add_vendor_total
           (fun seen o => totalled seen o /\ plain_vendors seen) transactions)
    with (seen := []) (b := Obj.empty) (b' := o) in H.
  - simpl in H. tauto.
  - intros seen b x b' [Htot Hplain] Hadd. split.
    + eapply add_vendor_total_totalled; eassumption.
    + apply plain_vendors_app. split; [exact Hplain|].
      constructor; [|constructor].
      destruct (Obj.inherited (Transaction.vendor x)) eqn:E; [|reflexivity].
      exfalso. unfold add_vendor_total, Obj.get in Hadd.
      destruct Htot as [_ Hown]. rewrite Hown, E in Hadd.
      destruct (members Transaction.vendor (Transaction.vendor x) seen)
        as [|t l] eqn:Em; simpl in Hadd; [discriminate|].
      assert (Ht : In t (members Transaction.vendor (Transaction.vendor x) seen))
        by (rewrite Em; left; reflexivity).
      unfold members in Ht. apply filter_In in Ht. destruct Ht as [Ht Hv].
      apply String.eqb_eq in Hv.
      unfold plain_vendors in Hplain. rewrite Forall_forall in Hplain.
      specialize (Hplain t Ht). simpl in Hplain. congruence.
  - split; [apply totalled_empty | constructor].
Qed.

(** ** One part among the parts of a loop *)

Lemma filter_nothing {A : Type} (f : A -> bool) (l : list A) :
  (forall x, In x l -> f x = false) -> filter f l = [].
Proof.
  intro H. apply filter_none. apply Forall_forall. exact H.
Qed.

Section Parts.
Context {X : Type} (R : X -> list Anomaly.t -> Prop) (f : Anomaly.t -> bool) (x : X).
Hypothesis others_silent :
    forall x' part, x' <> x -> R x' part -> filter f part = [].

Lemma parts_silent (xs : list X) (parts : list (list Anomaly.t)) :
  Forall2 R xs parts -> ~ In x xs -> filter f (concat parts) = [].
Proof.
  induction 1 as [|x0 p0 xs ps HR _ IH]; intro Hnot; simpl.
  - reflexivity.
  - rewrite filter_app.
    rewrite (others_silent x0 p0); [|intro E; apply Hnot; left; exact E | exact HR].
    apply IH. intro Hin. apply Hnot. right. exact Hin.
Qed.

Lemma parts_single (xs : list X) (parts : list (list Anomaly.t)) :
  Forall2 R xs parts -> NoDup xs -> In x xs ->
  exists part, R x part /\ filter f (concat parts) = filter f part.
Proof.
  induction 1 as [|x0 p0 xs ps HR Hrest IH]; intros Hnd Hin; simpl.
  - contradiction.
  - inversion Hnd as [|? ? Hnot Hnd']; subst.
    rewrite filter_app. destruct Hin as [Heq|Hin].
    + subst x0. exists p0. split; [exact HR|].
      rewrite (parts_silent xs ps Hrest Hnot). apply app_nil_r.
    + destruct (IH Hnd' Hin) as [part [HRp Hf]].
      exists part. split; [exact HRp|].
      rewrite (others_silent x0 p0); [exact Hf | | exact HR].
      intro E. subst x0. contradiction.
Qed.
End Parts.

Lemma parts_pick {X : Type} (R : X -> list Anomaly.t -> Prop) (f : Anomaly.t -> bool)
      (xs : list X) (parts : list (list Anomaly.t)) (x : X) :
  Forall2 R xs parts -> NoDup xs -> In x xs ->
  (forall x' part, x' <> x -> R x' part -> filter f part = []) ->
  exists part, R x part /\ filter f (concat parts) = filter f part.
Proof.
  intros HR Hnd Hin Hsilent. apply parts_single with (xs := xs); assumption.
Qed.

(** ** Threshold avoidance on plain vendors *)

Lemma thresholds_NoDup : NoDup APPROVAL_THRESHOLDS.
Proof.
  unfold APPROVAL_THRESHOLDS.
  repeat (constructor; [simpl; intuition discriminate|]). constructor.
Qed.

Lemma thresholds_Qeq (t1 t2 : Q) :
  In t1 APPROVAL_THRESHOLDS -> In t2 APPROVAL_THRESHOLDS ->
  Qeq_bool t1 t2 = true -> t1 = t2.
Proof.
  intros H1 H2.
  apply thresholds_are in H1. apply thresholds_are in H2.
  repeat (destruct H1 as [H1|H1]); repeat (destruct H2 as [H2|H2]); subst;
    intro H; solve [reflexivity | discriminate H].
Qed.

Lemma threshold_anomaly_vendor (threshold : Q) (e : string * list Transaction.t)
      (id : nat) (a : Anomaly.t) :
  threshold_anomaly threshold e id = Some a -> Anomaly.vendor a = Some (fst e).
Proof.
  destruct e as [vendor txns]. intro H.
  apply threshold_anomaly_Some in H. tauto.
Qed.

Lemma Qeq_bool_refl (q : Q) : Qeq_bool q q = true.
Proof. apply Qeq_bool_iff. reflexivity. Qed.

(** Within the part of a threshold, an anomaly stands for it. *)
Lemma flags_threshold_in_part (threshold : Q) (vendor : string)
      (o : Obj.t (list Transaction.t)) (id : nat) :
  filter (flags_threshold threshold vendor)
         (emitted (threshold_anomaly threshold) (Obj.entries o) id)
  = filter (has_vendor vendor)
           (emitted (threshold_anomaly threshold) (Obj.entries o) id).
Proof.
  apply filter_ext_in. intros a Ha.
  apply emitted_In in Ha. destruct Ha as [[v txns] [id' [_ Hb]]].
  apply threshold_anomaly_Some in Hb. destruct Hb as [_ [_ [Ht _]]].
  unfold flags_threshold. rewrite Ht, Qeq_bool_refl. apply andb_true_r.
Qed.

Lemma flags_threshold_other_part (threshold threshold' : Q) (vendor : string)
      (o : Obj.t (list Transaction.t)) (id : nat) :
  In threshold APPROVAL_THRESHOLDS -> In threshold' APPROVAL_THRESHOLDS ->
  threshold' <> threshold ->
  filter (flags_threshold threshold vendor)
         (emitted (threshold_anomaly threshold') (Obj.entries o) id)
  = [].
Proof.
  intros H1 H2 Hne. apply filter_nothing. intros a Ha.
  apply emitted_In in Ha. destruct Ha as [[v txns] [id' [_ Hb]]].
  apply threshold_anomaly_Some in Hb. destruct Hb as [_ [_ [Ht _]]].
  unfold flags_threshold. rewrite Ht.
  destruct (Qeq_bool threshold' threshold) eqn:E; [|apply andb_false_r].
  exfalso. apply Hne. apply thresholds_Qeq; assumption.
Qed.

(** ** Round numbers on plain vendors *)

Lemma Qtrunc_Z (q : Q) (z : Z) : q == inject_Z z -> Qtrunc q = z.
Proof.
  intro H. unfold Qtrunc. destruct (Qle_bool 0 q).
  - rewrite H. apply Qfloor_Z.
  - rewrite H. apply Qceiling_Z.
Qed.

(** [a % d === 0] says that [d] divides [a]. *)
Lemma js_rem_divisible (a d : Q) :
  ~ d == 0 -> (Qeq_bool (js_rem a d) 0 = true <-> divisible a d).
Proof.
  intro Hd. rewrite Qeq_bool_iff. unfold js_rem, divisible. split.
  - intro H. exists (Qtrunc (a / d)). lra.
  - intros [z Hz].
    assert (E : Qtrunc (a / d) = z).
    { apply Qtrunc_Z. rewrite Hz. field. exact Hd. }
    rewrite E. lra.
Qed.

Lemma is_round_spec (pattern : Pattern.t) (t : Transaction.t) :
  In pattern roundPatterns ->
  (is_round pattern t = true <->
   Pattern.minAmount pattern <= Transaction.amount t
   /\ divisible (Transaction.amount t) (Pattern.divisor pattern)).
Proof.
  intro Hin. unfold is_round. rewrite andb_true_iff, Qgeb_le.
  rewrite js_rem_divisible; [reflexivity|].
  simpl in Hin. destruct Hin as [<-|[<-|[<-|[]]]]; simpl; intro H; discriminate H.
Qed.

(** The percentage exceeds 50 exactly when the part is more than half. *)
Lemma percent_above_50 (part whole : nat) :
  Num.gt (percent_of part whole) (Fin 50) = true <-> (whole < 2 * part)%nat.
Proof.
  unfold percent_of, Num.of_nat, Num.div, Num.sgn.
  destruct whole as [|w].
  - simpl. destruct part as [|p]; simpl.
    + split; [discriminate | lia].
    + split; [intros _; lia | reflexivity].
  - assert (Hpos : 0 < inject_Z (Z.of_nat (S w))).
    { unfold Qlt. simpl. lia. }
    assert (E : (inject_Z (Z.of_nat (S w)) ?= 0) = Gt).
    { apply Qgt_alt. exact Hpos. }
    rewrite E. simpl Num.mul. rewrite Num_gt_Fin, Qgtb_lt.
    split.
    + intro H.
      assert (H' : 50 * inject_Z (Z.of_nat (S w)) < inject_Z (Z.of_nat part) * 100).
      { apply (Qmult_lt_r _ _ _ Hpos) in H.
        setoid_replace (inject_Z (Z.of_nat part) / inject_Z (Z.of_nat (S w)) * 100
                        * inject_Z (Z.of_nat (S w)))
          with (inject_Z (Z.of_nat part) * 100) in H; [exact H|].
        field. intro H0. rewrite H0 in Hpos. discriminate. }
      unfold Qlt in H'. simpl in H'. lia.
    + intro H.
      apply (Qmult_lt_r _ _ (inject_Z (Z.of_nat (S w))) Hpos).
      setoid_replace (inject_Z (Z.of_nat part) / inject_Z (Z.of_nat (S w)) * 100
                      * inject_Z (Z.of_nat (S w)))
        with (inject_Z (Z.of_nat part) * 100).
      * unfold Qlt. simpl. lia.
      * field. intro H0. rewrite H0 in Hpos. discriminate.
Qed.

Lemma round_anomaly_Some (transactions : list Transaction.t) (pattern : Pattern.t)
      (vendor : string) (txns : list Transaction.t) (id : nat) (a : Anomaly.t) :
  round_anomaly transactions pattern (vendor, txns) id = Some a ->
  (4 <= length txns)%nat
  /\ (length (payments_to vendor transactions) < 2 * length txns)%nat
  /\ Anomaly.vendor a = Some vendor
  /\ pattern_of a = Some (Pattern.name pattern)
  /\ Anomaly.severity a = (if (10 <=? length txns)%nat then high else medium)
  /\ Anomaly.amount a = Some (sum_amounts txns)
  /\ Anomaly.count a = Some (length txns).
Proof.
  unfold round_anomaly.
  destruct (4 <=? length txns)%nat eqn:E4; simpl; [|discriminate].
  destruct (Num.gt _ (Fin 50)) eqn:E50; [|discriminate].
  intro H. inversion H; subst a. simpl.
  apply Nat.leb_le in E4. apply percent_above_50 in E50.
  repeat split; auto.
Qed.

Lemma round_anomaly_None (transactions : list Transaction.t) (pattern : Pattern.t)
      (vendor : string) (txns : list Transaction.t) (id : nat) :
  round_anomaly transactions pattern (vendor, txns) id = None <->
  ~ ((4 <= length txns)%nat
     /\ (length (payments_to vendor transactions) < 2 * length txns)%nat).
Proof.
  unfold round_anomaly.
  destruct (4 <=? length txns)%nat eqn:E4; simpl.
  - apply Nat.leb_le in E4.
    destruct (Num.gt _ (Fin 50)) eqn:E50.
    + apply percent_above_50 in E50. split; [discriminate|].
      intro H. exfalso. apply H. split; assumption.
    + split; [|reflexivity]. intros _ [_ H].
      apply percent_above_50 in H. unfold payments_to, members in H.
      unfold same_vendor in E50. congruence.
  - apply Nat.leb_gt in E4. split; [|reflexivity]. intros _ [H _]. lia.
Qed.

Lemma round_anomaly_vendor (transactions : list Transaction.t) (pattern : Pattern.t)
      (e : string * list Transaction.t) (id : nat) (a : Anomaly.t) :
  round_anomaly transactions pattern e id = Some a -> Anomaly.vendor a = Some (fst e).
Proof.
  destruct e as [vendor txns]. intro H. apply round_anomaly_Some in H. tauto.
Qed.

Lemma roundPatterns_NoDup : NoDup roundPatterns.
Proof.
  unfold roundPatterns.
  repeat (constructor; [simpl; intuition discriminate|]). constructor.
Qed.

Lemma roundPatterns_names (p1 p2 : Pattern.t) :
  In p1 roundPatterns -> In p2 roundPatterns ->
  String.eqb (Pattern.name p1) (Pattern.name p2) = true -> p1 = p2.
Proof.
  simpl. intros [<-|[<-|[<-|[]]]] [<-|[<-|[<-|[]]]] H;
    solve [reflexivity | discriminate H].
Qed.

(** ** Vendor concentration on plain vendors *)

Lemma fold_left_invariant {A B : Type} (f : B -> A -> B)
      (P : A -> Prop) (I : list A -> B -> Prop) (l : list A) :
  (forall seen b x, I seen b -> P x -> I (seen ++ [x]) (f b x)) ->
  forall seen b, I seen b -> Forall P l -> I (seen ++ l) (fold_left f l b).
Proof.
  intro Hstep. induction l as [|x l IH]; intros seen b Hb Hl; simpl.
  - rewrite app_nil_r. exact Hb.
  - inversion Hl as [|? ? Hx Hl']; subst.
    specialize (IH (seen ++ [x]) (f b x) (Hstep _ _ _ Hb Hx) Hl').
    rewrite <- app_assoc in IH. exact IH.
Qed.

Lemma totals_sum_put_fresh (o : Obj.t Total) (k : string) (v : Total) :
  Obj.own o k = None -> totals_sum (Obj.put o k v) == totals_sum o + Total_value v.
Proof.
  induction o as [|[k' v'] o IH]; simpl; intro H.
  - ring.
  - destruct (String.eqb k k'); [discriminate|]. simpl. rewrite (IH H). ring.
Qed.

Lemma totals_sum_put_known (o : Obj.t Total) (k : string) (v old : Total) :
  Obj.own o k = Some old ->
  totals_sum (Obj.put o k v) == totals_sum o - Total_value old + Total_value v.
Proof.
  induction o as [|[k' v'] o IH]; simpl; intro H.
  - discriminate.
  - destruct (String.eqb k k'); simpl.
    + inversion H; subst. ring.
    + rewrite (IH H). ring.
Qed.

Lemma totals_sum_perm (l l' : list (string * Total)) :
  Permutation l l' -> totals_sum l == totals_sum l'.
Proof.
  induction 1 as [| x l l' _ IH | x y l | l l' l'' _ IH1 _ IH2]; simpl.
  - reflexivity.
  - rewrite IH. reflexivity.
  - ring.
  - rewrite IH1. exact IH2.
Qed.

Lemma summed_empty : summed [] Obj.empty.
Proof.
  split; [constructor|]. split; [reflexivity|]. intro k. reflexivity.
Qed.

Lemma payments_to_snoc (k : string) (seen : list Transaction.t) (t : Transaction.t) :
  payments_to k (seen ++ [t])
  = payments_to k seen ++ (if String.eqb (Transaction.vendor t) k then [t] else []).
Proof. apply members_snoc. Qed.

Lemma add_to_total_summed (seen : list Transaction.t) (o : Obj.t Total)
      (t : Transaction.t) :
  summed seen o -> Obj.inherited (Transaction.vendor t) = false ->
  summed (seen ++ [t]) (add_to_total o t).
Proof.
  intros [Hnd [Hsum Hown]] Hplain.
  unfold add_to_total. rewrite (get_not_inherited _ _ Hplain).
  pose proof (Hown (Transaction.vendor t)) as Hk.
  assert (Hnew : forall q,
             q == sum_amounts (payments_to (Transaction.vendor t) seen)
                  + Transaction.amount t ->
             totals_sum (Obj.put o (Transaction.vendor t) (TNum q))
             == sum_amounts seen + Transaction.amount t ->
             summed (seen ++ [t]) (Obj.put o (Transaction.vendor t) (TNum q))).
  { intros q Hq Hs. split; [apply NoDup_put; exact Hnd|]. split.
    - rewrite sum_amounts_snoc. exact Hs.
    - intro k. rewrite payments_to_snoc.
      destruct (String.eqb (Transaction.vendor t) k) eqn:E.
      + apply String.eqb_eq in E. subst k. rewrite own_put_same. split.
        * intro H. apply app_eq_nil in H. destruct H as [_ H]. discriminate.
        * rewrite sum_amounts_snoc. exact Hq.
      + apply String.eqb_neq in E. rewrite own_put_other by congruence.
        rewrite app_nil_r. apply Hown. }
  destruct (Obj.own o (Transaction.vendor t)) as [[q|]|] eqn:E.
  - destruct Hk as [_ Hq]. apply Hnew.
    + simpl. destruct (Qeq_bool q 0) eqn:E0; simpl.
      * apply Qeq_bool_iff in E0. rewrite <- Hq, E0. reflexivity.
      * rewrite Hq. reflexivity.
    + rewrite (totals_sum_put_known _ _ _ _ E). simpl.
      destruct (Qeq_bool q 0) eqn:E0; simpl.
      * apply Qeq_bool_iff in E0. rewrite Hsum, E0. ring.
      * rewrite Hsum. ring.
  - contradiction.
  - apply Hnew.
    + rewrite Hk. reflexivity.
    + rewrite (totals_sum_put_fresh _ _ _ E). simpl. rewrite Hsum. ring.
Qed.

Lemma vendor_totals_summed (transactions : list Transaction.t) :
  plain_vendors transactions ->
  summed transactions (fold_left add_to_total transactions Obj.empty).
Proof.
  intro Hplain.
  apply (fold_left_invariant add_to_total
           (fun t => Obj.inherited (Transaction.vendor t) = false)
           summed transactions
           (fun seen b x Hb Hx => add_to_total_summed seen b x Hb Hx)
           [] Obj.empty summed_empty Hplain).
Qed.

Lemma summed_numbers (txns : list Transaction.t) (o : Obj.t Total) :
  summed txns o -> Forall is_number o.
Proof.
  intros [Hnd [_ Hown]]. apply Forall_forall. intros [k v] Hin.
  apply (In_own _ _ _ Hnd) in Hin. specialize (Hown k). rewrite Hin in Hown.
  unfold is_number. simpl. destruct v; [exact I | contradiction].
Qed.

Lemma fold_Total_add (l : list (string * Total)) (acc : Q) :
  Forall is_number l ->
  exists g, fold_left Total_add (map snd l) (TNum acc) = TNum g
            /\ g == acc + totals_sum l.
Proof.
  intro H. revert acc. induction H as [|[k v] l Hv _ IH]; intro acc; simpl.
  - exists acc. split; [reflexivity | ring].
  - unfold is_number in Hv. simpl in Hv. destruct v as [q|]; [|contradiction].
    destruct (IH (acc + q)) as [g [Hg Hq]]. exists g. split; [exact Hg|].
    rewrite Hq. simpl. ring.
Qed.

Lemma by_total_desc_le (x y : string * Total) :
  Num.gt (by_total_desc x y) (Fin 0) = false -> total_desc x y.
Proof.
  unfold by_total_desc, total_desc.
  destruct (snd x) as [a|], (snd y) as [b|]; simpl; auto.
  intro H. apply (Qgtb_false_le (b + - a) 0) in H. lra.
Qed.

Lemma by_total_desc_gt (x y : string * Total) :
  Num.gt (by_total_desc x y) (Fin 0) = true -> total_desc y x.
Proof.
  unfold by_total_desc, total_desc.
  destruct (snd x) as [a|], (snd y) as [b|]; simpl; auto; try discriminate.
  intro H. apply (Qgtb_lt (b + - a) 0) in H. lra.
Qed.

(** The head of a list of numbers sorted descending is the largest. *)
Lemma total_desc_head (a : string * Total) (l : list (string * Total)) :
  Sorted total_desc (a :: l) -> Forall is_number (a :: l) ->
  Forall (total_desc a) l.
Proof.
  revert a. induction l as [|b l IH]; intros a Hs Hn.
  - constructor.
  - inversion Hs as [|? ? Hs' Hhd]; subst.
    inversion Hhd as [|? ? Hab]; subst.
    inversion Hn as [|? ? Ha Hn']; subst.
    constructor; [exact Hab|].
    specialize (IH b Hs' Hn').
    eapply Forall_impl; [|exact IH].
    intros c Hbc. unfold total_desc, is_number in *.
    inversion Hn' as [|? ? Hb _]; subst.
    destruct (snd a), (snd b), (snd c); try contradiction; auto.
    eapply Qle_trans; eassumption.
Qed.

Lemma is_number_perm (l l' : list (string * Total)) :
  Permutation l l' -> Forall is_number l -> Forall is_number l'.
Proof.
  intros Hp H. rewrite Forall_forall in *. intros x Hx.
  apply H. apply (Permutation_in _ (Permutation_sym Hp)). exact Hx.
Qed.

(** With a positive grand total, the share exceeds [c] percent exactly when
    100 times the total exceeds [c] times the grand total. *)
Lemma share_percent_above (total grand c : Q) :
  0 < grand ->
  (Num.gt (share_percent total grand) (Fin c) = true <-> c * grand < 100 * total).
Proof.
  intro Hpos. unfold share_percent, Num.div, Num.sgn.
  assert (E : (grand ?= 0) = Gt) by (apply Qgt_alt; exact Hpos).
  rewrite E. simpl Num.mul. rewrite Num_gt_Fin, Qgtb_lt.
  assert (Hne : ~ grand == 0) by (intro H0; rewrite H0 in Hpos; discriminate).
  split; intro H.
  - apply (Qmult_lt_r _ _ _ Hpos) in H.
    setoid_replace (total / grand * 100 * grand) with (100 * total) in H;
      [exact H | field; exact Hne].
  - apply (Qmult_lt_r _ _ grand Hpos).
    setoid_replace (total / grand * 100 * grand) with (100 * total);
      [exact H | field; exact Hne].
Qed.

Lemma sortedVendors_unfold (transactions : list Transaction.t) :
  sortedVendors_of transactions
  = map (share_of (totalSpending_of transactions))
        (Arr.sort by_total_desc
                  (Obj.entries (fold_left add_to_total transactions Obj.empty))).
Proof. reflexivity. Qed.

(** ** Regular expressions *)

Lemma rep_Match (p : ascii -> bool) (s : string) :
  forall min max prev k,
    Regex.rep p min max prev s k = true <->
    exists p' s', Match (Regex.Rep p min max) prev s p' s' /\ k p' s' = true.
Proof.
  induction s as [|c s IH]; intros min max prev k; simpl.
  - rewrite orb_false_r. split.
    + destruct min; [|discriminate]. intro H. exists prev, EmptyString.
      split; [constructor | exact H].
    + intros [p' [s' [HM Hk]]]. inversion HM; subst. exact Hk.
  - rewrite orb_true_iff, !andb_true_iff, IH. split.
    + intros [H|[[Hp Hmax] [p' [s' [HM Hk]]]]].
      * destruct min; [|discriminate]. exists prev, (String c s).
        split; [constructor | exact H].
      * exists p', s'. split; [|exact Hk]. apply Match_rep_step; assumption.
    + intros [p' [s' [HM Hk]]]. inversion HM; subst.
      * left. exact Hk.
      * right. split; [split; assumption|]. exists p', s'. split; assumption.
Qed.

(** The matcher finds what the expression matches. *)
Lemma matches_Match (r : Regex.re) :
  forall prev s k,
    Regex.matches r prev s k = true <->
    exists p' s', Match r prev s p' s' /\ k p' s' = true.
Proof.
  induction r as [p | r1 IH1 r2 IH2 | r1 IH1 r2 IH2 | p min max | | ];
    intros prev s k; simpl.
  - destruct s as [|c s].
    + split; [discriminate|]. intros [p' [s' [HM _]]]. inversion HM.
    + rewrite andb_true_iff. split.
      * intros [Hp Hk]. exists (Some c), s. split; [constructor; exact Hp | exact Hk].
      * intros [p' [s' [HM Hk]]]. inversion HM; subst. split; assumption.
  - rewrite IH1. split.
    + intros [p1 [s1 [HM1 H2]]]. apply IH2 in H2. destruct H2 as [p2 [s2 [HM2 Hk]]].
      exists p2, s2. split; [econstructor; eassumption | exact Hk].
    + intros [p2 [s2 [HM Hk]]]. inversion HM; subst.
      exists p1, s1. split; [assumption|]. apply IH2. exists p2, s2. split; assumption.
  - rewrite orb_true_iff, IH1, IH2. split.
    + intros [[p' [s' [HM Hk]]]|[p' [s' [HM Hk]]]]; exists p', s'; split;
        solve [assumption | apply Match_alt_l; assumption | apply Match_alt_r; assumption].
    + intros [p' [s' [HM Hk]]]. inversion HM; subst; [left|right]; exists p', s';
        split; assumption.
  - apply rep_Match.
  - rewrite andb_true_iff. split.
    + intros [Hb Hk]. exists prev, s. split; [constructor; exact Hb | exact Hk].
    + intros [p' [s' [HM Hk]]]. inversion HM; subst. split; assumption.
  - destruct prev as [c|].
    + split; [discriminate|]. intros [p' [s' [HM _]]]. inversion HM.
    + split.
      * intro Hk. exists None, s. split; [constructor | exact Hk].
      * intros [p' [s' [HM Hk]]]. inversion HM; subst. exact Hk.
Qed.

(** [test] succeeds when the expression matches somewhere in the text. *)
Lemma search_Match (r : Regex.re) (s : string) :
  forall prev,
    Regex.search r prev s = true <->
    exists pre rest p' s',
      s = (pre ++ rest)%string /\ Match r (last_char prev pre) rest p' s'.
Proof.
  induction s as [|c s IH]; intro prev; simpl.
  - rewrite orb_false_r, matches_Match. split.
    + intros [p' [s' [HM _]]]. exists EmptyString, EmptyString, p', s'. split; auto.
    + intros [pre [rest [p' [s' [Heq HM]]]]].
      destruct pre; [|discriminate]. simpl in Heq. subst rest.
      exists p', s'. split; [exact HM | reflexivity].
  - rewrite orb_true_iff, matches_Match, IH. split.
    + intros [[p' [s' [HM _]]]|[pre [rest [p' [s' [Heq HM]]]]]].
      * exists EmptyString, (String c s), p', s'. split; auto.
      * exists (String c pre), rest, p', s'. simpl. split; [congruence | exact HM].
    + intros [pre [rest [p' [s' [Heq HM]]]]]. destruct pre as [|c' pre].
      * left. simpl in Heq. subst rest. exists p', s'. split; [exact HM | reflexivity].
      * right. simpl in Heq. inversion Heq; subst.
        exists pre, rest, p', s'. split; [reflexivity | exact HM].
Qed.

Lemma test_Match (r : Regex.re) (s : string) :
  Regex.test r s = true <->
  exists pre rest p' s',
    s = (pre ++ rest)%string /\ Match r (last_char None pre) rest p' s'.
Proof. apply search_Match. Qed.

Lemma Match_eps (prev p' : option ascii) (s s' : string) :
  Match Regex.eps prev s p' s' <-> p' = prev /\ s' = s.
Proof.
  unfold Regex.eps. split.
  - intro H. inversion H; subst; [auto | discriminate].
  - intros [-> ->]. constructor.
Qed.

Lemma last_char_app (prev : option ascii) (x y : string) :
  last_char prev (x ++ y)%string = last_char (last_char prev x) y.
Proof.
  revert prev. induction x as [|c x IH]; intro prev; simpl; [reflexivity | apply IH].
Qed.

(** A literal word matches a text that spells it. *)
Lemma Match_lit_i (w : string) (rest : Regex.re) :
  forall prev s p' s',
    Match (Regex.lit_i w rest) prev s p' s' <->
    exists x mid,
      s = (x ++ mid)%string /\ spells w x = true
      /\ Match rest (last_char prev x) mid p' s'.
Proof.
  induction w as [|a w IH]; intros prev s p' s'; simpl.
  - split.
    + intro H. exists EmptyString, s. auto.
    + intros [x [mid [Heq [Hsp HM]]]]. destruct x; [|discriminate].
      simpl in *. subst. exact HM.
  - split.
    + intro H. inversion H as [|? ? ? p1 ? ? s1 ? H1 H2| | | | | |]; subst.
      inversion H1; subst.
      apply IH in H2. destruct H2 as [x [mid [Heq [Hsp HM]]]].
      exists (String c x), mid. simpl. rewrite Hsp.
      repeat split; [congruence | | exact HM].
      rewrite andb_true_r. assumption.
    + intros [x [mid [Heq [Hsp HM]]]]. destruct x as [|b x]; [discriminate|].
      simpl in *. apply andb_true_iff in Hsp. destruct Hsp as [Hab Hsp].
      subst s. econstructor.
      * constructor. exact Hab.
      * apply IH. exists x, mid. auto.
Qed.

Lemma Match_word_i (w : string) (prev p' : option ascii) (s s' : string) :
  Match (Regex.word_i w) prev s p' s' <->
  exists x, s = (x ++ s')%string /\ spells w x = true /\ p' = last_char prev x.
Proof.
  unfold Regex.word_i. rewrite Match_lit_i. split.
  - intros [x [mid [Heq [Hsp HM]]]]. apply Match_eps in HM. destruct HM as [-> ->].
    exists x. auto.
  - intros [x [Heq [Hsp ->]]]. exists x, s'. repeat split; auto.
    apply Match_eps. auto.
Qed.

Lemma Match_seq_iff (r1 r2 : Regex.re) (prev p2 : option ascii) (s s2 : string) :
  Match (Regex.Seq r1 r2) prev s p2 s2 <->
  exists p1 s1, Match r1 prev s p1 s1 /\ Match r2 p1 s1 p2 s2.
Proof.
  split.
  - intro H. inversion H; subst. eauto.
  - intros [p1 [s1 [H1 H2]]]. econstructor; eassumption.
Qed.

Lemma Match_alt_iff (r1 r2 : Regex.re) (prev p' : option ascii) (s s' : string) :
  Match (Regex.Alt r1 r2) prev s p' s' <->
  Match r1 prev s p' s' \/ Match r2 prev s p' s'.
Proof.
  split.
  - intro H. inversion H; subst; auto.
  - intros [H|H]; [apply Match_alt_l | apply Match_alt_r]; exact H.
Qed.

Lemma Match_wordb_iff (prev p' : option ascii) (s s' : string) :
  Match Regex.WordB prev s p' s' <->
  Regex.word_boundary prev s = true /\ p' = prev /\ s' = s.
Proof.
  split.
  - intro H. inversion H; subst. auto.
  - intros [H [-> ->]]. constructor. exact H.
Qed.

Lemma Match_bol_iff (prev p' : option ascii) (s s' : string) :
  Match Regex.Bol prev s p' s' <-> prev = None /\ p' = None /\ s' = s.
Proof.
  split.
  - intro H. inversion H; subst. auto.
  - intros [-> [-> ->]]. constructor.
Qed.

(** A repetition matches a run of characters of the class whose length is
    within the bounds. *)
Lemma Match_rep_iff (p : ascii -> bool) (s : string) :
  forall min max prev p' s',
    Match (Regex.Rep p min max) prev s p' s' <->
    exists x,
      s = (x ++ s')%string /\ all_in p x = true /\ p' = last_char prev x
      /\ (min <= String.length x)%nat
      /\ match max with
         | Some m => (String.length x <= m)%nat
         | None => True
         end.
Proof.
  induction s as [|c s IH]; intros min max prev p' s'.
  - split.
    + intro H. inversion H; subst. exists EmptyString. simpl.
      repeat split; auto. destruct max; [lia | exact I].
    + intros [x [Heq [_ [-> [Hmin _]]]]].
      destruct x; [|discriminate]. simpl in *. subst s'.
      assert (min = O) by lia. subst min. constructor.
  - split.
    + intro H. inversion H; subst.
      * exists EmptyString. simpl. repeat split; auto. destruct max; [lia | exact I].
      * match goal with
        | HM : Match (Regex.Rep p (pred min) _) _ _ _ _ |- _ =>
            apply IH in HM; destruct HM as [x [Heq [Hall [Hp' [Hmin Hmax]]]]]
        end.
        exists (String c x). simpl. subst.
        match goal with Hp : p c = true |- _ => rewrite Hp end.
        repeat split; auto; [lia|].
        destruct max as [[|m]|]; simpl in *; [discriminate | lia | exact I].
    + intros [x [Heq [Hall [-> [Hmin Hmax]]]]]. destruct x as [|b x].
      * simpl in *. subst s'. assert (min = O) by lia. subst min. constructor.
      * simpl in *. inversion Heq; subst. apply andb_true_iff in Hall.
        destruct Hall as [Hb Hall].
        apply Match_rep_step; [exact Hb | destruct max as [[|m]|]; simpl; auto; lia |].
        apply IH. exists x. repeat split; auto; [lia|].
        destruct max as [[|m]|]; simpl in *; [lia | lia | exact I].
Qed.

(** ** The three vendor-name patterns *)

Lemma last_char_None (x : string) : last_char None x = None -> x = EmptyString.
Proof.
  destruct x as [|c x]; [reflexivity|]. simpl.
  assert (H : forall y d, last_char (Some d) y <> None).
  { induction y as [|e y IH]; intro d; simpl; [discriminate | apply IH]. }
  intro E. exfalso. exact (H x c E).
Qed.

Ltac open_seq H p s M :=
  apply Match_seq_iff in H; destruct H as [p [s [M H]]].

Lemma generic_name_test (v : string) :
  Regex.test re_generic v = true <-> generic_name v.
Proof.
  rewrite test_Match. unfold generic_name, generic_words, re_generic, Regex.alt.
  simpl fold_left. split.
  - intros [pre [rest [p' [s' [Heq HM]]]]].
    assert (Hone : exists w x, In w generic_words
                               /\ rest = (x ++ s')%string /\ spells w x = true).
    { unfold generic_words.
      repeat (apply Match_alt_iff in HM; destruct HM as [HM|HM]);
        apply Match_word_i in HM; destruct HM as [x [Hx [Hsp _]]];
        eexists; exists x; (split; [|split; [exact Hx | exact Hsp]]);
        simpl; tauto. }
    destruct Hone as [w [x [Hw [Hx Hsp]]]].
    exists pre, x, s', w. subst. auto.
  - intros [pre [x [post [w [Hw [Heq Hsp]]]]]].
    exists pre, (x ++ post)%string, (last_char (last_char None pre) x), post.
    split; [exact Heq|].
    assert (HM : Match (Regex.word_i w) (last_char None pre) (x ++ post)%string
                       (last_char (last_char None pre) x) post).
    { apply Match_word_i. exists x. auto. }
    simpl in Hw.
    destruct Hw as [<-|[<-|[<-|[<-|[<-|[]]]]]].
    + do 4 apply Match_alt_l. exact HM.
    + do 3 apply Match_alt_l. apply Match_alt_r. exact HM.
    + do 2 apply Match_alt_l. apply Match_alt_r. exact HM.
    + apply Match_alt_l. apply Match_alt_r. exact HM.
    + apply Match_alt_r. exact HM.
Qed.

Lemma acronym_name_test (v : string) :
  Regex.test re_acronym v = true <-> acronym_name v.
Proof.
  rewrite test_Match. unfold acronym_name, company_forms, re_acronym, Regex.seq, Regex.alt.
  simpl fold_right. simpl fold_left. split.
  - intros [pre [rest [p' [s' [Heq HM]]]]].
    open_seq HM q1 r1 M1. apply Match_bol_iff in M1. destruct M1 as [Hpre [-> ->]].
    apply last_char_None in Hpre. subst pre. simpl in Heq. subst rest.
    open_seq HM q2 r2 M2. apply Match_rep_iff in M2.
    destruct M2 as [letters [-> [Hl [-> [Hmin Hmax]]]]].
    open_seq HM q3 r3 M3. apply Match_rep_iff in M3.
    destruct M3 as [spaces [-> [Hs [-> [Hsmin _]]]]].
    open_seq HM q4 r4 M4. apply Match_eps in HM. destruct HM as [-> <-].
    assert (Hone : exists w x, In w company_forms
                               /\ r3 = (x ++ s')%string /\ spells w x = true).
    { unfold company_forms.
      repeat (apply Match_alt_iff in M4; destruct M4 as [M4|M4]);
        apply Match_word_i in M4; destruct M4 as [x [Hx [Hsp _]]];
        eexists; exists x; (split; [|split; [exact Hx | exact Hsp]]);
        simpl; tauto. }
    destruct Hone as [w [x [Hw [-> Hsp]]]].
    exists letters, spaces, x, s', w. repeat split; auto.
  - intros [letters [spaces [x [post [w [Hw [Heq [Hl [[Hmin Hmax] [Hs [Hsmin Hsp]]]]]]]]]]].
    exists EmptyString, v. simpl. subst v.
    exists (last_char (last_char (last_char None letters) spaces) x), post.
    split; [reflexivity|].
    apply Match_seq_iff. exists None, (letters ++ spaces ++ x ++ post)%string.
    split; [constructor|].
    apply Match_seq_iff. exists (last_char None letters), (spaces ++ x ++ post)%string.
    split; [apply Match_rep_iff; exists letters; auto|].
    apply Match_seq_iff.
    exists (last_char (last_char None letters) spaces), (x ++ post)%string.
    split; [apply Match_rep_iff; exists spaces; auto|].
    apply Match_seq_iff.
    exists (last_char (last_char (last_char None letters) spaces) x), post.
    split; [|apply Match_eps; auto].
    assert (HM : Match (Regex.word_i w)
                       (last_char (last_char None letters) spaces) (x ++ post)%string
                       (last_char (last_char (last_char None letters) spaces) x) post).
    { apply Match_word_i. exists x. auto. }
    simpl in Hw. destruct Hw as [<-|[<-|[<-|[]]]].
    + do 2 apply Match_alt_l. exact HM.
    + apply Match_alt_l. apply Match_alt_r. exact HM.
    + apply Match_alt_r. exact HM.
Qed.

Lemma double_LLC_name_test (v : string) :
  Regex.test re_double_LLC v = true <-> double_LLC_name v.
Proof.
  rewrite test_Match. unfold double_LLC_name, boundary_between, re_double_LLC, Regex.seq.
  simpl fold_right. split.
  - intros [pre [rest [p' [s' [Heq HM]]]]].
    open_seq HM q1 r1 M1. apply Match_wordb_iff in M1. destruct M1 as [B1 [-> ->]].
    open_seq HM q2 r2 M2. apply Match_word_i in M2. destruct M2 as [x [-> [Hx ->]]].
    open_seq HM q3 r3 M3. apply Match_wordb_iff in M3. destruct M3 as [B2 [-> ->]].
    open_seq HM q4 r4 M4. apply Match_rep_iff in M4.
    destruct M4 as [mid [-> [Hmid [-> _]]]].
    open_seq HM q5 r5 M5. apply Match_wordb_iff in M5. destruct M5 as [B3 [-> ->]].
    open_seq HM q6 r6 M6. apply Match_word_i in M6. destruct M6 as [y [-> [Hy ->]]].
    open_seq HM q7 r7 M7. apply Match_wordb_iff in M7. destruct M7 as [B4 [-> ->]].
    apply Match_eps in HM. destruct HM as [-> <-].
    exists pre, x, mid, y, s'. rewrite !last_char_app. repeat split; auto.
  - intros [pre [x [mid [y [post [Heq [Hx [Hy [Hmid [B1 [B2 [B3 B4]]]]]]]]]]]].
    rewrite !last_char_app in *.
    set (p0 := last_char None pre) in *.
    set (p1 := last_char p0 x) in *.
    set (p2 := last_char p1 mid) in *.
    set (p3 := last_char p2 y) in *.
    exists pre, (x ++ mid ++ y ++ post)%string, p3, post.
    split; [exact Heq|].
    apply Match_seq_iff. exists p0, (x ++ mid ++ y ++ post)%string.
    split; [apply Match_wordb_iff; auto|].
    apply Match_seq_iff. exists p1, (mid ++ y ++ post)%string.
    split; [apply Match_word_i; exists x; auto|].
    apply Match_seq_iff. exists p1, (mid ++ y ++ post)%string.
    split; [apply Match_wordb_iff; auto|].
    apply Match_seq_iff. exists p2, (y ++ post)%string.
    split; [apply Match_rep_iff; exists mid; repeat split; auto; lia|].
    apply Match_seq_iff. exists p2, (y ++ post)%string.
    split; [apply Match_wordb_iff; auto|].
    apply Match_seq_iff. exists p3, post.
    split; [apply Match_word_i; exists y; auto|].
    apply Match_seq_iff. exists p3, post.
    split; [apply Match_wordb_iff; auto|].
    apply Match_eps. auto.
Qed.

(** * The claims of the specification *)

(** ** The orchestrator *)

(** C1: for the empty input [analyzeTransactions] returns no anomaly and
    statistics that are all zero. *)
Theorem analyzeTransactions_empty :
  forall (Number_toString : Q -> string) (Date_getTime Date_getDay : string -> number),
    analyzeTransactions Number_toString Date_getTime Date_getDay []
    = Ok (Report.mk [] (Stats.mk 0 0 0 0 0 0)).
Proof. intros. reflexivity. Qed.

(** [analyzeTransactions] returns exactly on the inputs whose vendors bear no
    inherited property name; on the others it throws. *)
Theorem analyzeTransactions_returns_iff
      (Number_toString : Q -> string) (Date_getTime Date_getDay : string -> number)
      (transactions : list Transaction.t) :
  (exists r, analyzeTransactions Number_toString Date_getTime Date_getDay transactions
             = Ok r)
  <-> plain_vendors transactions.
Proof.
  split.
  - intros [r H]. unfold analyzeTransactions in H.
    repeat match type of H with
           | bind ?c _ = Ok _ =>
               let E := fresh "E" in destruct c eqn:E; simpl in H; [|discriminate]
           end.
    match goal with
    | E : detectAddressRedFlags _ _ = Ok _ |- _ =>
        unfold detectAddressRedFlags in E;
        destruct (foldM add_vendor_total transactions Obj.empty) as [o|e] eqn:Ho;
        simpl in E; [|discriminate]
    end.
    apply (vendor_totals_plain _ _ Ho).
  - intro Hplain. unfold analyzeTransactions.
    destruct (detectDuplicatePayments_returns Number_toString Date_getTime
                transactions (snd (analyzeBenfordsLaw transactions 0))) as [f2 ->].
    simpl bind.
    destruct (detectThresholdAvoidance_returns transactions (snd f2) Hplain) as [f3 ->].
    simpl bind.
    destruct (detectRoundNumbers_returns transactions (snd f3) Hplain) as [f4 ->].
    simpl bind.
    destruct (detectWeekendPayments_returns Date_getDay transactions (snd f4) Hplain)
      as [f5 ->].
    simpl bind.
    destruct (detectSameDayPayments_returns transactions (snd f5)) as [f6 ->].
    simpl bind.
    destruct (detectAddressRedFlags_returns transactions (snd f6) Hplain) as [f7 ->].
    simpl bind.
    destruct (detectHighFrequency_returns transactions (snd f7) Hplain) as [f8 ->].
    simpl bind.
    eexists. reflexivity.
Qed.

(** A run that does not return throws a TypeError. *)
Theorem analyzeTransactions_fails_iff
      (Number_toString : Q -> string) (Date_getTime Date_getDay : string -> number)
      (transactions : list Transaction.t) :
  analyzeTransactions Number_toString Date_getTime Date_getDay transactions
  = Throw TypeError
  <-> ~ plain_vendors transactions.
Proof.
  rewrite <- (analyzeTransactions_returns_iff Number_toString Date_getTime Date_getDay).
  destruct (analyzeTransactions Number_toString Date_getTime Date_getDay transactions)
    as [r|[]].
  - split; [discriminate|]. intro H. exfalso. apply H. exists r. reflexivity.
  - split; [|reflexivity]. intros _ [r Hr]. discriminate.
Qed.

(** C2: [analyzeTransactions] does not return for every input: a single
    transaction whose vendor is named [constructor] makes it throw, in
    [detectAddressRedFlags], where [vendorTotals[t.vendor]] finds the
    inherited [Object] function and [.txns.push] fails on it. *)
Theorem analyzeTransactions_throws :
  forall (Number_toString : Q -> string) (Date_getTime Date_getDay : string -> number),
    analyzeTransactions Number_toString Date_getTime Date_getDay
                        [payment "constructor" 1]
    = Throw TypeError.
Proof. intros. vm_compute. reflexivity. Qed.

(** The inputs section 7 of the specification lists do not make the run
    throw: a single transaction, identical transactions, zero amounts. *)
Example listed_inputs_return :
  forall (Number_toString : Q -> string) (Date_getTime Date_getDay : string -> number),
    (exists r, analyzeTransactions Number_toString Date_getTime Date_getDay
                                   [payment "Acme" 120] = Ok r)
    /\ (exists r, analyzeTransactions Number_toString Date_getTime Date_getDay
                                      (repeat (payment "Acme" 120) 7) = Ok r)
    /\ (exists r, analyzeTransactions Number_toString Date_getTime Date_getDay
                                      (repeat (payment "Acme" 0) 7) = Ok r).
Proof.
  intros. repeat split; apply analyzeTransactions_returns_iff;
    unfold plain_vendors; simpl; repeat constructor.
Qed.

(** The quartiles of fewer than four transactions, and of none, are read
    without failure: out of range they are undefined and the fence is NaN. *)
Example short_inputs_no_outlier :
  detectOutliers [] 0 = ([], O)
  /\ upperFence_of (sorted_amounts []) = NaN
  /\ detectOutliers [payment "Acme" 2000000] 0 = ([], O)
  /\ detectOutliers [payment "Acme" 2000000; payment "Acme" 1; payment "Acme" 3] 0
     = ([], O).
Proof. repeat split; vm_compute; reflexivity. Qed.

(** ** The statistics *)

Lemma analyzeTransactions_stats
      (Number_toString : Q -> string) (Date_getTime Date_getDay : string -> number)
      (transactions : list Transaction.t) (r : Report.t) :
  analyzeTransactions Number_toString Date_getTime Date_getDay transactions = Ok r ->
  Report.stats r = stats_of (Report.anomalies r).
Proof.
  unfold analyzeTransactions. intro H.
  repeat match type of H with
         | bind ?c _ = Ok _ => destruct c; simpl in H; [|discriminate]
         end.
  inversion H. reflexivity.
Qed.

Lemma count_severity_tally (s : Severity) (l : list Anomaly.t) :
  count_severity s l = tally s l.
Proof.
  unfold count_severity, tally. induction l as [|a l IH]; simpl.
  - reflexivity.
  - destruct (Severity_eq_dec (Anomaly.severity a) s) as [E|E].
    + rewrite E. destruct s; simpl; rewrite <- IH; reflexivity.
    + destruct (Anomaly.severity a), s; simpl; try congruence; exact IH.
Qed.

Lemma amount_or_0_flagged (a : Anomaly.t) : amount_or_0 a == flagged_amount a.
Proof.
  unfold amount_or_0, flagged_amount. destruct (Anomaly.amount a) as [q|].
  - simpl. destruct (Qeq_bool q 0) eqn:E; simpl.
    + apply Qeq_bool_iff in E. symmetry. exact E.
    + reflexivity.
  - reflexivity.
Qed.

Lemma fold_flagged (l : list Anomaly.t) (acc : Q) :
  fold_left (fun sum a => sum + amount_or_0 a) l acc == acc + total_flagged l.
Proof.
  revert acc. induction l as [|a l IH]; intro acc; simpl.
  - ring.
  - rewrite IH. rewrite amount_or_0_flagged. ring.
Qed.

(** C9: the statistics are derived from the final list of anomalies alone:
    its length, the number of anomalies of each severity, and the sum of the
    amounts of all anomalies, one without amount counting 0; nothing is
    deduplicated. *)
Theorem stats_derived_from_anomalies
        (Number_toString : Q -> string) (Date_getTime Date_getDay : string -> number)
        (transactions : list Transaction.t) (r : Report.t) :
  analyzeTransactions Number_toString Date_getTime Date_getDay transactions = Ok r ->
  Stats.totalAnomalies (Report.stats r) = length (Report.anomalies r)
  /\ Stats.criticalCount (Report.stats r) = tally critical (Report.anomalies r)
  /\ Stats.highCount (Report.stats r) = tally high (Report.anomalies r)
  /\ Stats.mediumCount (Report.stats r) = tally medium (Report.anomalies r)
  /\ Stats.lowCount (Report.stats r) = tally low (Report.anomalies r)
  /\ Stats.totalFlaggedAmount (Report.stats r) == total_flagged (Report.anomalies r).
Proof.
  intro H. rewrite (analyzeTransactions_stats _ _ _ _ _ H). simpl.
  repeat split; try apply count_severity_tally.
  rewrite fold_flagged. ring.
Qed.

Lemma stats_derived_from_anomalies_witness :
  exists r,
    analyzeTransactions fraction_text no_date no_date [payment "Acme LLC" 9950] = Ok r
    /\ Stats.totalAnomalies (Report.stats r) = length (Report.anomalies r).
Proof.
  eexists. split; [vm_compute; reflexivity|].
  apply (stats_derived_from_anomalies fraction_text no_date no_date
           [payment "Acme LLC" 9950]).
  vm_compute. reflexivity.
Defined.

(** One payment flagged by two checks counts twice: the flagged amount,
    $100,000,000, is about double the sum of all the payments. *)
Example flagged_amount_counts_twice :
  let transactions :=
    [ payment "Acme" 4321; payment "Acme" 1234; payment "Big Build" 50000000;
      payment "Acme" 2345; payment "Acme" 3456 ] in
  exists r,
    analyzeTransactions fraction_text no_date no_date transactions = Ok r
    /\ map Anomaly.type (Report.anomalies r)
       = ["large_outlier"; "vendor_concentration"]
    /\ Stats.totalFlaggedAmount (Report.stats r) == 100000000
    /\ sum_amounts transactions == 50011356.
Proof.
  eexists. split; [vm_compute; reflexivity|].
  split; [reflexivity|]. split; reflexivity.
Qed.

(** ** The digit-distribution check *)


(** The scenario of the specification: 150 payments of $100 make the digit 1
    lead every amount, and the check fires. *)
Example benford_all_ones :
  exists a,
    analyzeBenfordsLaw (repeat (payment "Acme LLC" 100) 150) 0 = ([a], 1%nat)
    /\ Anomaly.severity a = high.
Proof. eexists. vm_compute. split; reflexivity. Qed.

(** ** The threshold-avoidance check *)

(** On an input whose vendors bear no inherited name the check returns, and
    for every threshold and vendor it emits one anomaly when the vendor has
    at least 3 payments in the window, critical from 5 payments on and high
    below, carrying their number and their sum, and none otherwise. *)
Theorem threshold_avoidance_plain (transactions : list Transaction.t) (id : nat) :
  plain_vendors transactions ->
  exists anomalies next,
    detectThresholdAvoidance transactions id = Ok (anomalies, next)
    /\ forall threshold vendor,
        In threshold APPROVAL_THRESHOLDS ->
        let paid := contributors threshold vendor transactions in
        let flags := filter (flags_threshold threshold vendor) anomalies in
        (forall t, In t paid <->
                   In t transactions /\ Transaction.vendor t = vendor
                   /\ threshold * 0.95 <= Transaction.amount t
                   /\ Transaction.amount t <= threshold - 1)
        /\ ((length paid < 3)%nat -> flags = [])
        /\ ((3 <= length paid)%nat ->
            exists a,
              flags = [a]
              /\ Anomaly.severity a
                 = (if (5 <=? length paid)%nat then critical else high)
              /\ Anomaly.amount a = Some (sum_amounts paid)
              /\ Anomaly.count a = Some (length paid)).
Proof.
  intro Hplain.
  destruct (detectThresholdAvoidance_returns transactions id Hplain)
    as [[anomalies next] Hrun].
  exists anomalies, next. split; [exact Hrun|].
  intros threshold vendor HT paid flags.
  unfold detectThresholdAvoidance in Hrun. rewrite threshold_round_grouping in Hrun.
  destruct (rounds_parts _ _ _ _ _ Hrun) as [parts [Hfst Hparts]].
  simpl in Hfst. subst anomalies.
  apply Forall2_with_In in Hparts.
  destruct (parts_pick _ (flags_threshold threshold vendor) _ _ threshold
              Hparts thresholds_NoDup HT)
    as [part [[_ [o [id' [Hg Hpart]]]] Hflags]].
  { intros threshold' part' Hne [HT' [o [id' [_ ->]]]].
    apply flags_threshold_other_part; assumption. }
  unfold flags. rewrite Hflags. subst part. rewrite flags_threshold_in_part.
  apply group_by_grouped in Hg.
  pose proof (entries_NoDup o (proj1 Hg)) as Hnd.
  assert (Hentry : paid <> [] -> In (vendor, paid) (Obj.entries o)).
  { intro Hne. apply (grouped_entry _ _ _ vendor paid Hg). split; [reflexivity | exact Hne]. }
  split; [|split].
  - intro t. unfold paid, contributors, members. rewrite !filter_In, near_bounds.
    rewrite String.eqb_eq. unfold lowerBound, upperBound. tauto.
  - intro Hlt. destruct paid as [|t paid'] eqn:Ep.
    + apply emitted_other_vendor; [exact (threshold_anomaly_vendor threshold)|].
      intro Hin. apply in_map_iff in Hin. destruct Hin as [[k l] [Hk Hin]].
      simpl in Hk. subst k.
      apply (grouped_entry _ _ _ vendor l Hg) in Hin. destruct Hin as [Hl Hne].
      apply Hne. rewrite Hl. exact Ep.
    + destruct (emitted_vendor_entry (threshold_anomaly threshold)
                  (threshold_anomaly_vendor threshold)
                  (Obj.entries o) id' vendor (t :: paid') Hnd) as [id'' ->].
      * apply Hentry. discriminate.
      * assert (E : threshold_anomaly threshold (vendor, t :: paid') id'' = None)
          by (apply threshold_anomaly_None; exact Hlt).
        rewrite E. reflexivity.
  - intro Hge.
    assert (Hne : paid <> []) by (intro E; rewrite E in Hge; simpl in Hge; lia).
    destruct (emitted_vendor_entry (threshold_anomaly threshold)
                (threshold_anomaly_vendor threshold)
                (Obj.entries o) id' vendor paid Hnd (Hentry Hne)) as [id'' ->].
    destruct (threshold_anomaly threshold (vendor, paid) id'') as [a|] eqn:E.
    + exists a. split; [reflexivity|].
      apply threshold_anomaly_Some in E. tauto.
    + apply threshold_anomaly_None in E. lia.
Qed.

(** The scenario of the specification: three payments of $9,950 to Acme LLC
    are flagged once, for the $10,000 threshold, with severity high. *)
Example acme_flagged_high :
  exists a,
    detectThresholdAvoidance
      [payment "Acme LLC" 9950; payment "Acme LLC" 9950; payment "Acme LLC" 9950] 0
    = Ok ([a], 1%nat)
    /\ Anomaly.severity a = high
    /\ Anomaly.vendor a = Some "Acme LLC"
    /\ Anomaly.title a
       = [Lit "Possible Invoice Splitting at $"; Locale (Fin 10000); Lit " Threshold"]
    /\ Anomaly.amount a = Some (0 + 9950 + 9950 + 9950).
Proof. eexists. vm_compute. repeat split; reflexivity. Qed.

(** C4: three payments of $9,950 to a vendor named [constructor] lie in the
    window of the $10,000 threshold and are not flagged:
    [byVendor[t.vendor]] finds the inherited [Object] function, which has no
    [push], and [detectThresholdAvoidance] throws. *)
Theorem threshold_avoidance_throws :
  let transactions :=
    [payment "constructor" 9950; payment "constructor" 9950;
     payment "constructor" 9950] in
  length (contributors 10000 "constructor" transactions) = 3%nat
  /\ detectThresholdAvoidance transactions 0 = Throw TypeError.
Proof. split; vm_compute; reflexivity. Qed.

(** C10: the seven windows are [950, 999], ..., [95000, 99999]; they are
    pairwise disjoint, so a transaction lies in the window of at most one
    threshold; every anomaly of the threshold-avoidance check is computed
    from the contributors of one threshold and one vendor, and a transaction
    is among the contributors of at most one such pair. *)
Theorem approval_windows_disjoint :
  Forall2 (fun threshold w =>
             lowerBound threshold == fst w /\ upperBound threshold == snd w)
          APPROVAL_THRESHOLDS
          [ (950, 999); (2375, 2499); (4750, 4999); (9500, 9999);
            (23750, 24999); (47500, 49999); (95000, 99999) ]
  /\ (forall t1 t2,
         In t1 APPROVAL_THRESHOLDS -> In t2 APPROVAL_THRESHOLDS -> t1 <> t2 ->
         upperBound t1 < lowerBound t2 \/ upperBound t2 < lowerBound t1)
  /\ (forall t t1 t2,
         In t1 APPROVAL_THRESHOLDS -> In t2 APPROVAL_THRESHOLDS ->
         near t1 t = true -> near t2 t = true -> t1 = t2)
  /\ (forall transactions id anomalies next a,
         detectThresholdAvoidance transactions id = Ok (anomalies, next) ->
         In a anomalies ->
         exists threshold vendor,
           In threshold APPROVAL_THRESHOLDS
           /\ threshold_of a = Some threshold
           /\ Anomaly.vendor a = Some vendor
           /\ Anomaly.count a
              = Some (length (contributors threshold vendor transactions))
           /\ Anomaly.amount a
              = Some (sum_amounts (contributors threshold vendor transactions)))
  /\ (forall transactions t t1 t2 v1 v2,
         In t1 APPROVAL_THRESHOLDS -> In t2 APPROVAL_THRESHOLDS ->
         In t (contributors t1 v1 transactions) ->
         In t (contributors t2 v2 transactions) ->
         t1 = t2 /\ v1 = v2).
Proof.
  split; [|split; [|split; [|split]]].
  - unfold APPROVAL_THRESHOLDS.
    repeat (constructor; [split; reflexivity|]). constructor.
  - exact windows_apart.
  - intros t t1 t2. apply near_one_threshold.
  - intros transactions id anomalies next a Hrun Hin.
    destruct (threshold_anomalies_origin _ _ _ _ _ Hrun Hin)
      as [threshold [vendor [H1 [H2 [H3 [_ [H4 H5]]]]]]].
    exists threshold, vendor. auto.
  - intros transactions t t1 t2 v1 v2 H1 H2 C1 C2.
    apply contributors_near in C1. apply contributors_near in C2.
    destruct C1 as [_ [N1 V1]]. destruct C2 as [_ [N2 V2]].
    split; [exact (near_one_threshold t1 t2 t H1 H2 N1 N2) | congruence].
Qed.

(** ** The round-number check *)

(** On an input whose vendors bear no inherited name the check returns, and
    for every pattern and vendor it emits one anomaly when the vendor has at
    least 4 matching payments that are more than half of its payments, high
    from 10 matches on and medium below, and none otherwise. *)
Theorem round_numbers_plain (transactions : list Transaction.t) (id : nat) :
  plain_vendors transactions ->
  exists anomalies next,
    detectRoundNumbers transactions id = Ok (anomalies, next)
    /\ forall pattern vendor,
        In pattern roundPatterns ->
        let matching := round_payments pattern vendor transactions in
        let all := payments_to vendor transactions in
        let flags := filter (flags_pattern pattern vendor) anomalies in
        (forall t, In t matching <->
                   In t transactions /\ Transaction.vendor t = vendor
                   /\ Pattern.minAmount pattern <= Transaction.amount t
                   /\ divisible (Transaction.amount t) (Pattern.divisor pattern))
        /\ (forall t, In t all <-> In t transactions /\ Transaction.vendor t = vendor)
        /\ ((4 <= length matching)%nat /\ (length all < 2 * length matching)%nat ->
         exists a,
           flags = [a]
           /\ Anomaly.severity a
              = (if (10 <=? length matching)%nat then high else medium)
           /\ Anomaly.amount a = Some (sum_amounts matching)
           /\ Anomaly.count a = Some (length matching))
        /\ (~ ((4 <= length matching)%nat /\ (length all < 2 * length matching)%nat) ->
            flags = []).
Proof.
  intro Hplain.
  destruct (detectRoundNumbers_returns transactions id Hplain)
    as [[anomalies next] Hrun].
  exists anomalies, next. split; [exact Hrun|].
  intros pattern vendor HP matching all flags.
  unfold detectRoundNumbers in Hrun. rewrite pattern_round_grouping in Hrun.
  destruct (rounds_parts _ _ _ _ _ Hrun) as [parts [Hfst Hparts]].
  simpl in Hfst. subst anomalies.
  apply Forall2_with_In in Hparts.
  destruct (parts_pick _ (flags_pattern pattern vendor) _ _ pattern
              Hparts roundPatterns_NoDup HP)
    as [part [[_ [o [id' [Hg Hpart]]]] Hflags]].
  { intros pattern' part' Hne [HP' [o [id' [_ ->]]]].
    apply filter_nothing. intros a Ha.
    apply emitted_In in Ha. destruct Ha as [[v txns] [id'' [_ Hb]]].
    apply round_anomaly_Some in Hb. destruct Hb as [_ [_ [_ [Hp _]]]].
    unfold flags_pattern. rewrite Hp.
    destruct (String.eqb (Pattern.name pattern') (Pattern.name pattern)) eqn:E;
      [|apply andb_false_r].
    exfalso. apply Hne. apply roundPatterns_names; assumption. }
  unfold flags. rewrite Hflags. subst part.
  rewrite (filter_ext_in (flags_pattern pattern vendor) (has_vendor vendor)).
  2:{ intros a Ha. apply emitted_In in Ha. destruct Ha as [[v txns] [id'' [_ Hb]]].
      apply round_anomaly_Some in Hb. destruct Hb as [_ [_ [_ [Hp _]]]].
      unfold flags_pattern. rewrite Hp, String.eqb_refl. apply andb_true_r. }
  apply group_by_grouped in Hg.
  pose proof (entries_NoDup o (proj1 Hg)) as Hnd.
  assert (Hentry : matching <> [] -> In (vendor, matching) (Obj.entries o)).
  { intro Hne. apply (grouped_entry _ _ _ vendor matching Hg).
    split; [reflexivity | exact Hne]. }
  split; [|split; [|split]].
  - intro t. unfold matching, round_payments, members.
    rewrite !filter_In, (is_round_spec pattern t HP), String.eqb_eq. tauto.
  - intro t. unfold all, payments_to, members. rewrite filter_In, String.eqb_eq. tauto.
  - intros [H4 Hhalf].
    assert (Hne : matching <> []) by (intro E; rewrite E in H4; simpl in H4; lia).
    destruct (emitted_vendor_entry (round_anomaly transactions pattern)
                (round_anomaly_vendor transactions pattern)
                (Obj.entries o) id' vendor matching Hnd (Hentry Hne)) as [id'' ->].
    destruct (round_anomaly transactions pattern (vendor, matching) id'') as [a|] eqn:E.
    + exists a. split; [reflexivity|].
      apply round_anomaly_Some in E. tauto.
    + apply round_anomaly_None in E. exfalso. apply E. split; assumption.
  - intro Hnot. destruct matching as [|t rest] eqn:Em.
    + apply emitted_other_vendor; [exact (round_anomaly_vendor transactions pattern)|].
      intro Hin. apply in_map_iff in Hin. destruct Hin as [[k l] [Hk Hin]].
      simpl in Hk. subst k.
      apply (grouped_entry _ _ _ vendor l Hg) in Hin. destruct Hin as [Hl Hne].
      apply Hne. rewrite Hl. exact Em.
    + destruct (emitted_vendor_entry (round_anomaly transactions pattern)
                  (round_anomaly_vendor transactions pattern)
                  (Obj.entries o) id' vendor (t :: rest) Hnd) as [id'' ->].
      * apply Hentry. discriminate.
      * assert (E : round_anomaly transactions pattern (vendor, t :: rest) id'' = None)
          by (apply round_anomaly_None; exact Hnot).
        rewrite E. reflexivity.
Qed.

(** C5: four payments of $10,000 to a vendor named [constructor], which are
    all of its payments and match the first pattern, are not flagged:
    [detectRoundNumbers] throws in the grouping loop. *)
Theorem round_numbers_throws :
  let transactions :=
    [payment "constructor" 10000; payment "constructor" 10000;
     payment "constructor" 10000; payment "constructor" 10000] in
  length (round_payments (Pattern.mk 10000 10000 "$10K increments")
                         "constructor" transactions) = 4%nat
  /\ length (payments_to "constructor" transactions) = 4%nat
  /\ detectRoundNumbers transactions 0 = Throw TypeError.
Proof. repeat split; vm_compute; reflexivity. Qed.

(** ** The vendor-name check *)




(** The scenario of the specification: Beta Services LLC holds one LLC only,
    so the first pattern that matches its name is the generic one. *)
Example beta_services_generic :
  first_match suspiciousPatterns "Beta Services LLC" = Some "Generic business name"
  /\ exists a,
      detectAddressRedFlags [payment "Beta Services LLC" 600000] 0 = Ok ([a], 1%nat)
      /\ Anomaly.severity a = medium
      /\ Anomaly.title a = [Lit "Vendor Name Red Flag: "; Lit "Generic business name"].
Proof.
  split; [vm_compute; reflexivity|].
  eexists. vm_compute. repeat split; reflexivity.
Qed.

(** ** The large-outlier check *)



(** The scenario with four small payments beside the large one. *)
Example outlier_scenario_flagged :
  exists a,
    fst (detectOutliers
           [payment "Acme" 5000; payment "Acme" 5000; payment "Big Build" 50000000;
            payment "Acme" 5000; payment "Acme" 5000] 0) = [a]
    /\ Anomaly.severity a = critical
    /\ Anomaly.vendor a = Some "Big Build".
Proof. eexists. vm_compute. repeat split; reflexivity. Qed.

(** ** The vendor-concentration check *)

(** On an input whose vendors bear no inherited name: nothing for the empty
    input; otherwise the check picks a vendor whose total is the largest,
    computes its share of the sum of all amounts, and emits one anomaly for
    that vendor exactly when the share exceeds 15, high above 25 and medium
    otherwise. *)
Theorem vendor_concentration_plain (transactions : list Transaction.t) (id : nat) :
  plain_vendors transactions ->
  (transactions = [] -> detectVendorConcentration transactions id = ([], id))
  /\ (transactions <> [] ->
      exists top total grand,
        payments_to top transactions <> []
        /\ total == sum_amounts (payments_to top transactions)
        /\ grand == sum_amounts transactions
        /\ (forall v, payments_to v transactions <> [] ->
                      sum_amounts (payments_to v transactions) <= total)
        /\ (Num.gt (share_percent total grand) (Fin 15) = false ->
            detectVendorConcentration transactions id = ([], id))
        /\ (Num.gt (share_percent total grand) (Fin 15) = true ->
            exists a,
              detectVendorConcentration transactions id = ([a], S id)
              /\ Anomaly.vendor a = Some top
              /\ Anomaly.amount a = Some total
              /\ Anomaly.severity a
                 = (if Num.gt (share_percent total grand) (Fin 25)
                    then high else medium))).
Proof.
  intro Hplain. split; [intros ->; reflexivity|].
  intro Hne.
  pose proof (vendor_totals_summed transactions Hplain) as Hsum.
  set (o := fold_left add_to_total transactions Obj.empty) in *.
  pose proof (summed_numbers _ _ Hsum) as Hnum.
  destruct Hsum as [Hnd [Htotal Hown]].
  set (sorted := Arr.sort by_total_desc (Obj.entries o)).
  assert (Hperm : Permutation sorted o).
  { eapply Permutation_trans; [apply sort_perm | apply entries_perm]. }
  assert (Hnum' : Forall is_number sorted).
  { apply (is_number_perm o); [apply Permutation_sym; exact Hperm | exact Hnum]. }
  assert (Hnum'' : Forall is_number (Obj.entries o)).
  { apply (is_number_perm o); [apply Permutation_sym, entries_perm | exact Hnum]. }
  destruct (fold_Total_add (Obj.entries o) 0 Hnum'') as [grand [Hg Hgrand]].
  assert (Hgrand' : grand == sum_amounts transactions).
  { rewrite Hgrand, (totals_sum_perm _ _ (entries_perm o)), Htotal. ring. }
  assert (Hspend : totalSpending_of transactions = TNum grand) by exact Hg.
  destruct sorted as [|[top vtop] rest] eqn:Es.
  { exfalso. destruct transactions as [|t l]; [apply Hne; reflexivity|].
    apply Permutation_nil in Hperm.
    specialize (Hown (Transaction.vendor t)). rewrite Hperm in Hown.
    simpl in Hown. unfold payments_to, members in Hown. simpl in Hown.
    rewrite String.eqb_refl in Hown. discriminate. }
  assert (Hvtop : exists total, vtop = TNum total).
  { inversion Hnum' as [|? ? Htop _]; subst. unfold is_number in Htop. simpl in Htop.
    destruct vtop as [q|]; [exists q; reflexivity | contradiction]. }
  destruct Hvtop as [total ->].
  assert (Htop : In (top, TNum total) o).
  { apply (Permutation_in _ Hperm). left. reflexivity. }
  apply (In_own _ _ _ Hnd) in Htop.
  pose proof (Hown top) as Htop'. rewrite Htop in Htop'. destruct Htop' as [Hpaid Hq].
  assert (Hmax : forall v, payments_to v transactions <> [] ->
                           sum_amounts (payments_to v transactions) <= total).
  { intros v Hv. pose proof (Hown v) as Hv'.
    destruct (Obj.own o v) as [[q|]|] eqn:Ev; [|contradiction|contradiction].
    destruct Hv' as [_ Hqv]. rewrite <- Hqv.
    apply own_In in Ev. apply (Permutation_in _ (Permutation_sym Hperm)) in Ev.
    destruct Ev as [Ev|Ev].
    - inversion Ev; subst. apply Qle_refl.
    - pose proof (total_desc_head (top, TNum total) rest) as Hhead.
      assert (Hs : Sorted total_desc ((top, TNum total) :: rest)).
      { rewrite <- Es. apply sort_sorted with (R := total_desc);
          [exact by_total_desc_le | exact by_total_desc_gt]. }
      specialize (Hhead Hs Hnum'). rewrite Forall_forall in Hhead.
      exact (Hhead _ Ev). }
  exists top, total, grand.
  split; [exact Hpaid|]. split; [exact Hq|]. split; [exact Hgrand'|].
  split; [exact Hmax|].
  unfold detectVendorConcentration, concentration_anomaly.
  rewrite sortedVendors_unfold. fold o. fold sorted. rewrite Es, Hspend.
  cbn [map share_of fst snd Share.percentage Share.amount Share.vendor Total_number].
  fold (share_percent total grand).
  split.
  - intros ->. reflexivity.
  - intros ->. eexists. split; [reflexivity|]. simpl. auto.
Qed.


(** * Further properties of the detector *)

(** ** Numbering and shape of the anomalies *)

Lemma numbered_nil (id : nat) : numbered id ([], id).
Proof. split; simpl; [reflexivity | lia]. Qed.

Lemma numbered_app (id next : nat) (acc more : list Anomaly.t) :
  numbered id (acc, next) ->
  map Anomaly.id more = map anomaly_id (seq next (length more)) ->
  numbered id (acc ++ more, (next + length more)%nat).
Proof.
  intros [Hacc Hnext] Hmore. simpl in *. split; simpl.
  - rewrite map_app, length_app, seq_app, map_app.
    rewrite Hacc, Hmore, Hnext. reflexivity.
  - rewrite length_app. lia.
Qed.

Section Stamped.
Context {A : Type} (body : A -> nat -> option Anomaly.t) (P : Anomaly.t -> Prop).
Hypothesis body_stamps :
  forall x i a, body x i = Some a -> Anomaly.id a = anomaly_id i /\ P a.

Lemma emitted_stamped (xs : list A) (id : nat) :
  map Anomaly.id (emitted body xs id)
  = map anomaly_id (seq id (length (emitted body xs id)))
  /\ Forall P (emitted body xs id).
Proof.
  revert id. induction xs as [|x xs IH]; intro id; simpl.
  - split; [reflexivity | constructor].
  - destruct (body x id) as [a|] eqn:E.
    + destruct (body_stamps _ _ _ E) as [Hid HP].
      destruct (IH (S id)) as [IH1 IH2]. split.
      * simpl. rewrite Hid, IH1. reflexivity.
      * constructor; assumption.
    + apply IH.
Qed.

Lemma push_each_stamped (xs : list A) (st : Findings) (id : nat) :
  numbered id st -> Forall P (fst st) ->
  numbered id (push_each body xs st) /\ Forall P (fst (push_each body xs st)).
Proof.
  destruct st as [acc next]. intros Hn HP.
  rewrite push_each_emitted.
  destruct (emitted_stamped xs next) as [Hids Hall]. split.
  - apply numbered_app; assumption.
  - simpl. apply Forall_app. split; assumption.
Qed.
End Stamped.

(** Every method stamps its anomalies with the running identifier and gives
    them the shape of the method. *)
Ltac open_body H :=
  repeat match type of H with
         | (if ?c then _ else _) = Some _ => destruct c eqn:?; try discriminate H
         | (match ?c with _ => _ end) = Some _ => destruct c eqn:?; try discriminate H
         end;
  injection H as <-.

Ltac close_shape :=
  split; [reflexivity|]; unfold has_shape, shape_at; simpl;
  repeat split; try reflexivity;
  try match goal with
      | |- context [if ?c then _ else _] => destruct c
      end; simpl; auto.

Lemma duplicate_anomaly_stamps (Date_getTime : string -> number)
      (e : string * list Transaction.t) (i : nat) (a : Anomaly.t) :
  duplicate_anomaly Date_getTime e i = Some a ->
  Anomaly.id a = anomaly_id i /\ has_shape (shape_at 1) a.
Proof.
  destruct e as [key txns]. unfold duplicate_anomaly. intro H.
  open_body H. close_shape.
Qed.

Lemma threshold_anomaly_stamps (threshold : Q) (e : string * list Transaction.t)
      (i : nat) (a : Anomaly.t) :
  threshold_anomaly threshold e i = Some a ->
  Anomaly.id a = anomaly_id i /\ has_shape (shape_at 2) a.
Proof.
  destruct e as [key txns]. unfold threshold_anomaly. intro H.
  open_body H. close_shape.
Qed.

Lemma round_anomaly_stamps (transactions : list Transaction.t) (pattern : Pattern.t)
      (e : string * list Transaction.t) (i : nat) (a : Anomaly.t) :
  round_anomaly transactions pattern e i = Some a ->
  Anomaly.id a = anomaly_id i /\ has_shape (shape_at 3) a.
Proof.
  destruct e as [key txns]. unfold round_anomaly. intro H.
  open_body H. close_shape.
Qed.

Lemma weekend_anomaly_stamps (transactions : list Transaction.t)
      (e : string * list Transaction.t) (i : nat) (a : Anomaly.t) :
  weekend_anomaly transactions e i = Some a ->
  Anomaly.id a = anomaly_id i /\ has_shape (shape_at 4) a.
Proof.
  destruct e as [key txns]. unfold weekend_anomaly. intro H.
  open_body H. close_shape.
Qed.

Lemma same_day_anomaly_stamps (e : string * list Transaction.t)
      (i : nat) (a : Anomaly.t) :
  same_day_anomaly e i = Some a ->
  Anomaly.id a = anomaly_id i /\ has_shape (shape_at 5) a.
Proof.
  destruct e as [key txns]. unfold same_day_anomaly. intro H.
  open_body H. close_shape.
Qed.

Lemma name_flag_anomaly_stamps (e : string * VendorTotal.t) (i : nat) (a : Anomaly.t) :
  name_flag_anomaly e i = Some a ->
  Anomaly.id a = anomaly_id i /\ has_shape (shape_at 6) a.
Proof.
  destruct e as [vendor data]. unfold name_flag_anomaly. intro H.
  open_body H. close_shape.
Qed.

Lemma frequency_anomaly_stamps (avgCount : number) (e : string * VendorStat.t)
      (i : nat) (a : Anomaly.t) :
  frequency_anomaly avgCount e i = Some a ->
  Anomaly.id a = anomaly_id i /\ has_shape (shape_at 7) a.
Proof.
  destruct e as [vendor stats]. unfold frequency_anomaly. intro H.
  open_body H. close_shape.
Qed.

Lemma outlier_anomaly_stamps (median : number) (t : Transaction.t)
      (i : nat) (a : Anomaly.t) :
  outlier_anomaly median t i = Some a ->
  Anomaly.id a = anomaly_id i /\ has_shape (shape_at 8) a.
Proof.
  unfold outlier_anomaly. intro H. open_body H. close_shape.
Qed.

Lemma foldM_preserves {A B : Type} (f : B -> A -> result B) (I : B -> Prop)
      (l : list A) :
  (forall b x b', I b -> f b x = Ok b' -> I b') ->
  forall b b', I b -> foldM f l b = Ok b' -> I b'.
Proof.
  intros Hstep b b' Hb Hfold.
  apply (foldM_Ok_invariant f (fun _ => I) l
           (fun _ b0 x b1 => Hstep b0 x b1) [] b b' Hb Hfold).
Qed.

Lemma block_nil (n id : nat) : block n id ([], id).
Proof. split; [apply numbered_nil | constructor]. Qed.

Lemma push_each_block {A : Type} (body : A -> nat -> option Anomaly.t)
      (n id : nat) (xs : list A) (st : Findings) :
  (forall x i a, body x i = Some a ->
                 Anomaly.id a = anomaly_id i /\ has_shape (shape_at n) a) ->
  block n id st -> block n id (push_each body xs st).
Proof.
  intros Hbody [Hn HP]. apply push_each_stamped; assumption.
Qed.

Lemma analyzeBenfordsLaw_block (transactions : list Transaction.t) (id : nat) :
  block 0 id (analyzeBenfordsLaw transactions id).
Proof.
  unfold analyzeBenfordsLaw.
  destruct (length _ <? 100)%nat; [apply block_nil|].
  destruct (0 <? length _)%nat; [|apply block_nil].
  split.
  - split; simpl; [reflexivity | lia].
  - constructor; [|constructor].
    unfold has_shape, shape_at. simpl. repeat split.
    destruct (existsb _ _); simpl; auto.
Qed.

Lemma detectDuplicatePayments_block (Number_toString : Q -> string)
      (Date_getTime : string -> number) (transactions : list Transaction.t)
      (id : nat) (f : Findings) :
  detectDuplicatePayments Number_toString Date_getTime transactions id = Ok f ->
  block 1 id f.
Proof.
  unfold detectDuplicatePayments. destruct (group_by _ _); simpl; [|discriminate].
  intro H. injection H as <-.
  apply push_each_block; [apply duplicate_anomaly_stamps | apply block_nil].
Qed.

Lemma detectThresholdAvoidance_block (transactions : list Transaction.t)
      (id : nat) (f : Findings) :
  detectThresholdAvoidance transactions id = Ok f -> block 2 id f.
Proof.
  unfold detectThresholdAvoidance.
  apply foldM_preserves; [|apply block_nil].
  intros st threshold st' Hst. unfold threshold_round.
  destruct (group_by _ _); simpl; [|discriminate].
  intro H. injection H as <-.
  apply push_each_block; [apply threshold_anomaly_stamps | exact Hst].
Qed.

Lemma detectRoundNumbers_block (transactions : list Transaction.t)
      (id : nat) (f : Findings) :
  detectRoundNumbers transactions id = Ok f -> block 3 id f.
Proof.
  unfold detectRoundNumbers.
  apply foldM_preserves; [|apply block_nil].
  intros st pattern st' Hst. unfold pattern_round.
  destruct (group_by _ _); simpl; [|discriminate].
  intro H. injection H as <-.
  apply push_each_block; [apply round_anomaly_stamps | exact Hst].
Qed.

Lemma detectWeekendPayments_block (Date_getDay : string -> number)
      (transactions : list Transaction.t) (id : nat) (f : Findings) :
  detectWeekendPayments Date_getDay transactions id = Ok f -> block 4 id f.
Proof.
  unfold detectWeekendPayments.
  destruct (length _ =? 0)%nat.
  - intro H. injection H as <-. apply block_nil.
  - destruct (group_by _ _); simpl; [|discriminate].
    intro H. injection H as <-.
    apply push_each_block; [apply weekend_anomaly_stamps | apply block_nil].
Qed.

Lemma detectSameDayPayments_block (transactions : list Transaction.t)
      (id : nat) (f : Findings) :
  detectSameDayPayments transactions id = Ok f -> block 5 id f.
Proof.
  unfold detectSameDayPayments. destruct (group_by _ _); simpl; [|discriminate].
  intro H. injection H as <-.
  apply push_each_block; [apply same_day_anomaly_stamps | apply block_nil].
Qed.

Lemma detectAddressRedFlags_block (transactions : list Transaction.t)
      (id : nat) (f : Findings) :
  detectAddressRedFlags transactions id = Ok f -> block 6 id f.
Proof.
  unfold detectAddressRedFlags. destruct (foldM _ _ _); simpl; [|discriminate].
  intro H. injection H as <-.
  apply push_each_block; [apply name_flag_anomaly_stamps | apply block_nil].
Qed.

Lemma detectHighFrequency_block (transactions : list Transaction.t)
      (id : nat) (f : Findings) :
  detectHighFrequency transactions id = Ok f -> block 7 id f.
Proof.
  unfold detectHighFrequency. destruct (foldM _ _ _); simpl; [|discriminate].
  intro H. injection H as <-.
  apply push_each_block; [apply frequency_anomaly_stamps | apply block_nil].
Qed.

Lemma detectOutliers_block (transactions : list Transaction.t) (id : nat) :
  block 8 id (detectOutliers transactions id).
Proof.
  unfold detectOutliers.
  apply push_each_block; [apply outlier_anomaly_stamps | apply block_nil].
Qed.

Lemma detectVendorConcentration_block (transactions : list Transaction.t) (id : nat) :
  block 9 id (detectVendorConcentration transactions id).
Proof.
  unfold detectVendorConcentration.
  destruct (concentration_anomaly transactions id) as [a|] eqn:E; [|apply block_nil].
  unfold concentration_anomaly in E. open_body E.
  split.
  - split; simpl; [reflexivity | lia].
  - constructor; [|constructor].
    unfold has_shape, shape_at. simpl. repeat split.
    destruct (Num.gt _ (Fin 25)); simpl; auto.
Qed.

Lemma analyzeTransactions_parts
      (Number_toString : Q -> string) (Date_getTime Date_getDay : string -> number)
      (transactions : list Transaction.t) (r : Report.t) :
  analyzeTransactions Number_toString Date_getTime Date_getDay transactions = Ok r ->
  exists f1 f2 f3 f4 f5 f6 f7 f8 f9 f10,
    block 0 0 f1 /\ block 1 (snd f1) f2 /\ block 2 (snd f2) f3
    /\ block 3 (snd f3) f4 /\ block 4 (snd f4) f5 /\ block 5 (snd f5) f6
    /\ block 6 (snd f6) f7 /\ block 7 (snd f7) f8 /\ block 8 (snd f8) f9
    /\ block 9 (snd f9) f10
    /\ Report.anomalies r
       = fst f1 ++ fst f2 ++ fst f3 ++ fst f4 ++ fst f5 ++ fst f6 ++ fst f7
           ++ fst f8 ++ fst f9 ++ fst f10.
Proof.
  unfold analyzeTransactions. intro H. cbv beta iota zeta delta [bind] in H.
  repeat match type of H with
         | match ?c with Ok _ => _ | Throw _ => _ end = Ok _ =>
             let E := fresh "E" in destruct c eqn:E; [|discriminate H]
         end.
  injection H as <-.
  eexists _, _, _, _, _, _, _, _, _, _.
  repeat match goal with
         | |- _ /\ _ => split
         end.
  - apply analyzeBenfordsLaw_block.
  - eapply detectDuplicatePayments_block; exact E.
  - eapply detectThresholdAvoidance_block; exact E0.
  - eapply detectRoundNumbers_block; exact E1.
  - eapply detectWeekendPayments_block; exact E2.
  - eapply detectSameDayPayments_block; exact E3.
  - eapply detectAddressRedFlags_block; exact E4.
  - eapply detectHighFrequency_block; exact E5.
  - apply detectOutliers_block.
  - apply detectVendorConcentration_block.
  - simpl. repeat rewrite <- app_assoc. reflexivity.
Qed.

Lemma to_uint_nonnil (n : nat) : Nat.to_uint n <> Decimal.Nil.
Proof.
  pose proof (DecimalNat.Unsigned.to_of (Nat.to_uint n)) as H.
  rewrite DecimalNat.Unsigned.of_to in H. rewrite H.
  apply DecimalFacts.unorm_nonnil.
Qed.

Lemma Str_of_nat_inj (i j : nat) : Str.of_nat i = Str.of_nat j -> i = j.
Proof.
  unfold Str.of_nat. intro H.
  apply (f_equal NilZero.uint_of_string) in H.
  rewrite !NilZero.usu in H by apply to_uint_nonnil.
  injection H as H. apply DecimalNat.Unsigned.to_uint_inj. exact H.
Qed.

Lemma anomaly_id_inj (i j : nat) : anomaly_id i = anomaly_id j -> i = j.
Proof.
  unfold anomaly_id. simpl. intro H. injection H as H.
  apply Str_of_nat_inj. exact H.
Qed.

Lemma anomaly_ids_NoDup (l : list nat) : NoDup l -> NoDup (map anomaly_id l).
Proof.
  induction 1 as [|x l Hx Hl IH]; simpl; constructor.
  - intro Hin. apply in_map_iff in Hin. destruct Hin as [y [Hy Hin]].
    apply anomaly_id_inj in Hy. subst y. contradiction.
  - exact IH.
Qed.

Lemma numbered_more (m id : nat) (acc : list Anomaly.t) (next : nat) (g : Findings) :
  numbered id (acc, next) -> block m next g -> numbered id (acc ++ fst g, snd g).
Proof.
  intros Hacc [[Hg Hnext] _]. destruct g as [B next']. simpl in *.
  rewrite Hnext. apply numbered_app; assumption.
Qed.

(** X1: the anomalies of a run bear the identifiers [anomaly-0], [anomaly-1],
    ... in the order of the list, one method continuing where the one before
    stopped; no two anomalies share an identifier. *)
Theorem anomaly_ids_sequential
        (Number_toString : Q -> string) (Date_getTime Date_getDay : string -> number)
        (transactions : list Transaction.t) (r : Report.t) :
  analyzeTransactions Number_toString Date_getTime Date_getDay transactions = Ok r ->
  map Anomaly.id (Report.anomalies r)
  = map anomaly_id (seq 0 (length (Report.anomalies r)))
  /\ NoDup (map Anomaly.id (Report.anomalies r)).
Proof.
  intro H. apply analyzeTransactions_parts in H.
  destruct H as (f1 & f2 & f3 & f4 & f5 & f6 & f7 & f8 & f9 & f10
                 & B1 & B2 & B3 & B4 & B5 & B6 & B7 & B8 & B9 & B10 & ->).
  assert (N : numbered 0
                (fst f1 ++ fst f2 ++ fst f3 ++ fst f4 ++ fst f5 ++ fst f6
                   ++ fst f7 ++ fst f8 ++ fst f9 ++ fst f10, snd f10)).
  { pose proof (proj1 B1) as N. rewrite (surjective_pairing f1) in N.
    pose proof (numbered_more _ _ _ _ _ N B2) as N2.
    pose proof (numbered_more _ _ _ _ _ N2 B3) as N3.
    pose proof (numbered_more _ _ _ _ _ N3 B4) as N4.
    pose proof (numbered_more _ _ _ _ _ N4 B5) as N5.
    pose proof (numbered_more _ _ _ _ _ N5 B6) as N6.
    pose proof (numbered_more _ _ _ _ _ N6 B7) as N7.
    pose proof (numbered_more _ _ _ _ _ N7 B8) as N8.
    pose proof (numbered_more _ _ _ _ _ N8 B9) as N9.
    pose proof (numbered_more _ _ _ _ _ N9 B10) as N10.
    repeat rewrite <- app_assoc in N10. exact N10. }
  destruct N as [Hids _]. simpl in Hids. split; [exact Hids|].
  rewrite Hids. apply anomaly_ids_NoDup, seq_NoDup.
Qed.

Lemma anomaly_ids_sequential_witness :
  exists r,
    analyzeTransactions fraction_text no_date no_date
                        (repeat (payment "Acme LLC" 9950) 3) = Ok r
    /\ length (Report.anomalies r) = 3%nat
    /\ map Anomaly.id (Report.anomalies r)
       = map anomaly_id (seq 0 (length (Report.anomalies r))).
Proof.
  eexists. split; [vm_compute; reflexivity|]. split; [reflexivity|].
  apply (anomaly_ids_sequential fraction_text no_date no_date
           (repeat (payment "Acme LLC" 9950) 3)).
  vm_compute. reflexivity.
Defined.

(** X2: the anomalies of a run come in ten consecutive groups, one per method
    in the order in which the methods run; the anomalies of a group bear the
    type of the method, one of the two severities the method gives, and the
    optional fields the method sets.  So only the threshold and the outlier
    checks report [critical], only the vendor-name check reports [low], and
    only the digit check leaves the vendor out. *)
Theorem anomalies_by_method
        (Number_toString : Q -> string) (Date_getTime Date_getDay : string -> number)
        (transactions : list Transaction.t) (r : Report.t) :
  analyzeTransactions Number_toString Date_getTime Date_getDay transactions = Ok r ->
  exists groups,
    Forall2 (fun s group => Forall (has_shape s) group) shapes groups
    /\ Report.anomalies r = concat groups.
Proof.
  intro H. apply analyzeTransactions_parts in H.
  destruct H as (f1 & f2 & f3 & f4 & f5 & f6 & f7 & f8 & f9 & f10
                 & B1 & B2 & B3 & B4 & B5 & B6 & B7 & B8 & B9 & B10 & ->).
  exists [fst f1; fst f2; fst f3; fst f4; fst f5; fst f6; fst f7; fst f8;
          fst f9; fst f10].
  split.
  - unfold shapes.
    repeat (constructor;
            [match goal with
             | B : block _ _ ?f |- Forall _ (fst ?f) => exact (proj2 B)
             end|]).
    constructor.
  - simpl. rewrite app_nil_r. reflexivity.
Qed.

Lemma anomalies_by_method_witness :
  exists r,
    analyzeTransactions fraction_text no_date no_date
                        (repeat (payment "Acme LLC" 9950) 3) = Ok r
    /\ map Anomaly.type (Report.anomalies r)
       = ["duplicate_payments"; "threshold_avoidance"; "vendor_concentration"]
    /\ exists groups,
        Forall2 (fun s group => Forall (has_shape s) group) shapes groups
        /\ Report.anomalies r = concat groups.
Proof.
  eexists. split; [vm_compute; reflexivity|]. split; [reflexivity|].
  apply (anomalies_by_method fraction_text no_date no_date
           (repeat (payment "Acme LLC" 9950) 3)).
  vm_compute. reflexivity.
Defined.

(** ** The counts of the statistics *)

Lemma count_severity_partition (anomalies : list Anomaly.t) :
  (count_severity critical anomalies + count_severity high anomalies
   + count_severity medium anomalies + count_severity low anomalies
   = length anomalies)%nat.
Proof.
  unfold count_severity. induction anomalies as [|a l IH]; simpl.
  - reflexivity.
  - destruct (Anomaly.severity a); simpl; lia.
Qed.

(** X3: the four severity counts of the statistics add up to the number of
    anomalies. *)
Theorem severity_counts_add_up
        (Number_toString : Q -> string) (Date_getTime Date_getDay : string -> number)
        (transactions : list Transaction.t) (r : Report.t) :
  analyzeTransactions Number_toString Date_getTime Date_getDay transactions = Ok r ->
  (Stats.criticalCount (Report.stats r) + Stats.highCount (Report.stats r)
   + Stats.mediumCount (Report.stats r) + Stats.lowCount (Report.stats r)
   = Stats.totalAnomalies (Report.stats r))%nat.
Proof.
  intro H. rewrite (analyzeTransactions_stats _ _ _ _ _ H). simpl.
  apply count_severity_partition.
Qed.

Lemma severity_counts_add_up_witness :
  exists r,
    analyzeTransactions fraction_text no_date no_date
                        (repeat (payment "Acme LLC" 9950) 3) = Ok r
    /\ Stats.totalAnomalies (Report.stats r) = 3%nat
    /\ (Stats.criticalCount (Report.stats r) + Stats.highCount (Report.stats r)
        + Stats.mediumCount (Report.stats r) + Stats.lowCount (Report.stats r)
        = Stats.totalAnomalies (Report.stats r))%nat.
Proof.
  eexists. split; [vm_compute; reflexivity|]. split; [reflexivity|].
  apply (severity_counts_add_up fraction_text no_date no_date
           (repeat (payment "Acme LLC" 9950) 3)).
  vm_compute. reflexivity.
Defined.

(** ** Checks keyed by vendor and a second text *)

Lemma Forall2_map_left {A B C : Type} (g : A -> B) (R : B -> C -> Prop)
      (l : list A) (l' : list C) :
  Forall2 R (map g l) l' <-> Forall2 (fun x y => R (g x) y) l l'.
Proof.
  revert l'. induction l as [|x l IH]; intro l'; simpl; split; intro H.
  - inversion H. constructor.
  - inversion H. constructor.
  - inversion H; subst. constructor; [assumption | apply IH; assumption].
  - inversion H; subst. constructor; [assumption | apply IH; assumption].
Qed.

Lemma emitted_Forall2 {A : Type} (body : A -> nat -> option Anomaly.t)
      (q : A -> bool) (R : A -> Anomaly.t -> Prop) (xs : list A) (id : nat) :
  (forall x i, q x = true -> exists a, body x i = Some a /\ R x a) ->
  (forall x i, q x = false -> body x i = None) ->
  Forall2 R (filter q xs) (emitted body xs id).
Proof.
  intros Hyes Hno. revert id. induction xs as [|x xs IH]; intro id; simpl.
  - constructor.
  - destruct (q x) eqn:E.
    + destruct (Hyes x id E) as [a [-> HR]]. constructor; [exact HR | apply IH].
    + rewrite (Hno x id E). apply IH.
Qed.

Lemma existsb_eqb_In (x : string) (l : list string) :
  existsb (String.eqb x) l = true <-> In x l.
Proof.
  rewrite existsb_exists. split.
  - intros [y [Hin E]]. apply String.eqb_eq in E. subst. exact Hin.
  - intro Hin. exists x. split; [exact Hin | apply String.eqb_refl].
Qed.

Lemma distinct_from_snoc (seen xs : list string) (x : string) :
  Str.distinct_from seen (xs ++ [x])
  = Str.distinct_from seen xs
    ++ (if existsb (String.eqb x) seen || existsb (String.eqb x) xs
        then [] else [x]).
Proof.
  revert seen. induction xs as [|y xs IH]; intro seen; simpl.
  - destruct (existsb (String.eqb x) seen); reflexivity.
  - destruct (existsb (String.eqb y) seen) eqn:Ey.
    + rewrite IH. f_equal.
      destruct (String.eqb x y) eqn:Exy; simpl; [|reflexivity].
      apply String.eqb_eq in Exy. subst y. rewrite Ey. reflexivity.
    + simpl. rewrite IH. f_equal. simpl.
      destruct (String.eqb x y), (existsb (String.eqb x) seen); reflexivity.
Qed.

Lemma distinct_snoc (xs : list string) (x : string) :
  Str.distinct (xs ++ [x])
  = Str.distinct xs ++ (if existsb (String.eqb x) xs then [] else [x]).
Proof. unfold Str.distinct. rewrite distinct_from_snoc. reflexivity. Qed.

Section GroupingOrder.
Variable key : Transaction.t -> string.

Lemma members_nil_iff (k : string) (txns : list Transaction.t) :
  members key k txns = [] <-> existsb (String.eqb k) (map key txns) = false.
Proof.
  unfold members. induction txns as [|t txns IH]; simpl.
  - tauto.
  - rewrite (String.eqb_sym k (key t)).
    destruct (String.eqb (key t) k); simpl; [|exact IH].
    split; discriminate.
Qed.

(** The own properties of the grouping appear in the order in which the loop
    meets their keys. *)
Lemma push_group_keys (seen : list Transaction.t)
      (o o' : Obj.t (list Transaction.t)) (t : Transaction.t) :
  grouped key seen o /\ map fst o = keys_of key seen ->
  push_group key o t = Ok o' ->
  grouped key (seen ++ [t]) o' /\ map fst o' = keys_of key (seen ++ [t]).
Proof.
  intros [Hg Hkeys] Hpush. split; [eapply push_group_grouped; eassumption|].
  unfold keys_of. rewrite map_app. simpl. rewrite distinct_snoc.
  pose proof (proj2 Hg (key t)) as Hk.
  unfold push_group, Obj.get in Hpush.
  destruct (Obj.own o (key t)) as [txns|] eqn:E.
  - injection Hpush as <-. rewrite (keys_put_known _ _ _ _ E).
    symmetry in Hk. apply nonempty_Some in Hk. destruct Hk as [Hk Hne].
    destruct (existsb (String.eqb (key t)) (map key seen)) eqn:Ex.
    + rewrite app_nil_r. exact Hkeys.
    + apply members_nil_iff in Ex. congruence.
  - destruct (Obj.inherited (key t)); [discriminate|].
    injection Hpush as <-. rewrite (keys_put_fresh _ _ _ E).
    symmetry in Hk. apply nonempty_None in Hk.
    apply members_nil_iff in Hk. rewrite Hk, Hkeys. reflexivity.
Qed.

Lemma group_by_keys (txns : list Transaction.t) (o : Obj.t (list Transaction.t)) :
  group_by key txns = Ok o -> map fst o = keys_of key txns.
Proof.
  intro H.
  apply (foldM_Ok_invariant (push_group key)
           (fun seen o => grouped key seen o /\ map fst o = keys_of key seen)
           txns
           (fun seen b x b' => push_group_keys seen b b' x)
           [] Obj.empty o (conj (grouped_empty key) eq_refl) H).
Qed.

(** A grouping lists every key with the transactions filed under it. *)
Lemma group_by_listing (txns : list Transaction.t) (o : Obj.t (list Transaction.t)) :
  group_by key txns = Ok o ->
  o = map (fun k => (k, members key k txns)) (keys_of key txns).
Proof.
  intro H. rewrite <- (group_by_keys _ _ H).
  apply group_by_grouped in H. destruct H as [Hnd Hown].
  rewrite map_map. rewrite <- (map_id o) at 1.
  apply map_ext_in. intros [k l] Hin. simpl.
  pose proof (In_own _ _ _ Hnd Hin) as E. rewrite Hown in E.
  apply nonempty_Some in E. destruct E as [E _]. rewrite E. reflexivity.
Qed.
End GroupingOrder.

Lemma parse_digits_bar (s : string) :
  has_bar s = true -> forall acc, Obj.parse_digits s acc = None.
Proof.
  induction s as [|c s IH]; simpl; [discriminate|].
  intros H acc. destruct (Ascii.eqb c "|") eqn:E.
  - apply Ascii.eqb_eq in E. subst c. reflexivity.
  - simpl in H. destruct (Str.is_digit c); [apply IH; exact H | reflexivity].
Qed.

Lemma array_index_bar (k : string) : has_bar k = true -> Obj.array_index k = None.
Proof.
  destruct k as [|c rest]; simpl; [discriminate|].
  intro H. destruct (Ascii.eqb c "0") eqn:E0.
  - apply Ascii.eqb_eq in E0. subst c. simpl in H.
    destruct rest; [discriminate | reflexivity].
  - change (Obj.parse_digits (String c rest) 0) with
      (if Str.is_digit c
       then Obj.parse_digits rest (10 * 0 + N.of_nat (Str.code c - 48))%N
       else None).
    destruct (Ascii.eqb c "|") eqn:E.
    + apply Ascii.eqb_eq in E. subst c. reflexivity.
    + simpl in H. destruct (Str.is_digit c); [|reflexivity].
      rewrite (parse_digits_bar _ H). reflexivity.
Qed.

(** [Object.entries] keeps the insertion order of keys that hold a bar. *)
Lemma entries_barred {T : Type} (o : Obj.t T) :
  Forall (fun e => has_bar (fst e) = true) o -> Obj.entries o = o.
Proof.
  intro H. unfold Obj.entries.
  assert (Hidx : Forall (fun e : string * T => Obj.is_index e = false) o).
  { eapply Forall_impl; [|exact H]. intros e He. unfold Obj.is_index.
    rewrite (array_index_bar _ He). reflexivity. }
  rewrite (filter_none _ _ Hidx). simpl.
  apply filter_all. eapply Forall_impl; [|exact Hidx].
  intros e He. simpl in He. rewrite He. reflexivity.
Qed.

Lemma keys_of_In (key : Transaction.t -> string) (txns : list Transaction.t)
      (k : string) :
  In k (keys_of key txns) -> exists t, In t txns /\ key t = k.
Proof.
  unfold keys_of, Str.distinct. generalize (@nil string) as seen.
  induction txns as [|t txns IH]; intros seen; simpl; [tauto|].
  destruct (existsb (String.eqb (key t)) seen).
  - intro H. destruct (IH _ H) as [t' [Hin E]]. exists t'. auto.
  - intros [E|H].
    + exists t. auto.
    + destruct (IH _ H) as [t' [Hin E]]. exists t'. auto.
Qed.

Lemma barred_entries (key : Transaction.t -> string) (txns : list Transaction.t) :
  (forall t, has_bar (key t) = true) ->
  exists o,
    group_by key txns = Ok o
    /\ Obj.entries o = map (fun k => (k, members key k txns)) (keys_of key txns).
Proof.
  intro Hbar.
  destruct (group_by_returns key txns) as [o [Hrun _]].
  { apply Forall_forall. intros t _.
    destruct (Obj.inherited (key t)) eqn:E; [|reflexivity].
    apply inherited_no_bar in E. rewrite Hbar in E. discriminate. }
  exists o. split; [exact Hrun|].
  pose proof (group_by_listing key txns o Hrun) as Hlist.
  rewrite entries_barred; [exact Hlist|].
  rewrite Hlist. apply Forall_forall. intros e Hin.
  apply in_map_iff in Hin. destruct Hin as [k [<- Hin]]. simpl.
  apply keys_of_In in Hin. destruct Hin as [t [_ <-]]. apply Hbar.
Qed.

Lemma split_before_bar (v s : string) :
  has_bar v = false ->
  Str.split "|" (v ++ String "|" s) = v :: Str.split "|" s.
Proof.
  induction v as [|c v IH]; simpl; intro H.
  - reflexivity.
  - destruct (Ascii.eqb c "|"); [discriminate|]. simpl in H.
    rewrite (IH H). reflexivity.
Qed.

Lemma split_head_no_bar (s : string) :
  has_bar (hd EmptyString (Str.split "|" s)) = false.
Proof.
  induction s as [|c s IH]; simpl; [reflexivity|].
  destruct (Ascii.eqb c "|") eqn:E; [reflexivity|].
  destruct (Str.split "|" s) as [|h tl]; simpl in *; rewrite E; [reflexivity|].
  exact IH.
Qed.

(** The text of a key before the first bar is the vendor exactly when the
    vendor holds no bar. *)
Lemma key_head_vendor (vendor rest : string) :
  hd EmptyString (Str.split "|" (vendor ++ String "|" rest)) = vendor
  <-> has_bar vendor = false.
Proof.
  split.
  - intro H. rewrite <- H. apply split_head_no_bar.
  - intro H. rewrite (split_before_bar _ _ H). reflexivity.
Qed.

Lemma duplicate_anomaly_reports (Date_getTime : string -> number)
      (k : string) (group : list Transaction.t) (i : nat) :
  if repeated group
  then exists a, duplicate_anomaly Date_getTime (k, group) i = Some a
                 /\ reports_duplicates k group a
  else duplicate_anomaly Date_getTime (k, group) i = None.
Proof.
  unfold repeated, duplicate_anomaly. destruct group as [|first rest]; [reflexivity|].
  destruct ((3 <=? length (first :: rest))%nat
            && Qgtb (Transaction.amount first) 1000); [|reflexivity].
  eexists. split; [reflexivity|]. repeat split.
Qed.


Lemma same_day_anomaly_reports (k : string) (group : list Transaction.t) (i : nat) :
  if (3 <=? length group)%nat
  then exists a, same_day_anomaly (k, group) i = Some a /\ reports_same_day k group a
  else same_day_anomaly (k, group) i = None.
Proof.
  unfold same_day_anomaly. destruct (3 <=? length group)%nat; [|reflexivity].
  eexists. split; [reflexivity|]. repeat split.
Qed.


(** ** Checks keyed by vendor *)

(** The percentage exceeds [c] exactly when 100 parts exceed [c] wholes. *)
Lemma percent_above (part whole c : nat) :
  Num.gt (percent_of part whole) (Fin (Qnat c)) = true
  <-> (c * whole < 100 * part)%nat.
Proof.
  unfold percent_of, Num.of_nat, Num.div, Num.sgn, Qnat.
  destruct whole as [|w].
  - simpl. destruct part as [|p]; simpl.
    + split; [discriminate | lia].
    + split; [intros _; lia | reflexivity].
  - assert (Hpos : 0 < inject_Z (Z.of_nat (S w))).
    { change 0 with (inject_Z 0). rewrite <- Zlt_Qlt. lia. }
    assert (E : (inject_Z (Z.of_nat (S w)) ?= 0) = Gt).
    { apply Qgt_alt. exact Hpos. }
    rewrite E. simpl Num.mul. rewrite Num_gt_Fin, Qgtb_lt.
    assert (Hmul : inject_Z (Z.of_nat part) / inject_Z (Z.of_nat (S w)) * 100
                   * inject_Z (Z.of_nat (S w))
                   == inject_Z (Z.of_nat part * 100)).
    { rewrite inject_Z_mult. change (inject_Z 100) with 100.
      field. intro H0. rewrite H0 in Hpos. discriminate. }
    rewrite <- (Qmult_lt_r _ _ _ Hpos), Hmul, <- inject_Z_mult, <- Zlt_Qlt.
    lia.
Qed.

Lemma percent_above_20 (part whole : nat) :
  Num.gt (percent_of part whole) (Fin 20) = true <-> (whole < 5 * part)%nat.
Proof.
  change (Fin 20) with (Fin (Qnat 20)). rewrite percent_above. lia.
Qed.

Lemma percent_above_40 (part whole : nat) :
  Num.gt (percent_of part whole) (Fin 40) = true <-> (2 * whole < 5 * part)%nat.
Proof.
  change (Fin 40) with (Fin (Qnat 40)). rewrite percent_above. lia.
Qed.

(** What a loop over the entries of a grouping by vendor reports for one
    vendor: the anomaly of its group, if the group is not empty and the body
    gives one. *)
Lemma grouped_vendor_flags (body : string * list Transaction.t -> nat -> option Anomaly.t)
      (txns : list Transaction.t) (o : Obj.t (list Transaction.t))
      (id : nat) (v : string) :
  (forall e i a, body e i = Some a -> Anomaly.vendor a = Some (fst e)) ->
  grouped Transaction.vendor txns o ->
  exists id',
    filter (has_vendor v) (emitted body (Obj.entries o) id)
    = match members Transaction.vendor v txns with
      | [] => []
      | group => match body (v, group) id' with Some a => [a] | None => [] end
      end.
Proof.
  intros Hbody Hg.
  pose proof (entries_NoDup o (proj1 Hg)) as Hnd.
  destruct (members Transaction.vendor v txns) as [|t rest] eqn:Em.
  - exists id. apply emitted_other_vendor; [exact Hbody|].
    intro Hin. apply in_map_iff in Hin. destruct Hin as [[k l] [Hk Hin]].
    simpl in Hk. subst k.
    apply (grouped_entry _ _ _ v l Hg) in Hin. destruct Hin as [Hl Hne].
    apply Hne. rewrite Hl. exact Em.
  - apply (emitted_vendor_entry body Hbody (Obj.entries o) id v (t :: rest) Hnd).
    apply (grouped_entry _ _ _ v (t :: rest) Hg).
    split; [symmetry; exact Em | discriminate].
Qed.

Lemma weekend_anomaly_vendor (transactions : list Transaction.t)
      (e : string * list Transaction.t) (i : nat) (a : Anomaly.t) :
  weekend_anomaly transactions e i = Some a -> Anomaly.vendor a = Some (fst e).
Proof.
  destruct e as [v group]. unfold weekend_anomaly. intro H. open_body H. reflexivity.
Qed.

Lemma weekend_anomaly_Some (transactions : list Transaction.t) (vendor : string)
      (group : list Transaction.t) (i : nat) (a : Anomaly.t) :
  weekend_anomaly transactions (vendor, group) i = Some a ->
  let all := payments_to vendor transactions in
  (5 <= length group)%nat
  /\ (length all < 5 * length group)%nat
  /\ Anomaly.severity a
     = (if (2 * length all <? 5 * length group)%nat then high else medium)
  /\ Anomaly.amount a = Some (sum_amounts group)
  /\ Anomaly.count a = Some (length group).
Proof.
  intros H all. unfold weekend_anomaly in H.
  change (filter (same_vendor vendor) transactions) with all in H.
  destruct (5 <=? length group)%nat eqn:E5; [|discriminate].
  destruct (Num.gt _ (Fin 20)) eqn:E20; [|discriminate].
  injection H as <-. cbn [Anomaly.severity Anomaly.amount Anomaly.count].
  apply Nat.leb_le in E5. apply percent_above_20 in E20.
  split; [exact E5|]. split; [exact E20|]. split; [|split; reflexivity].
  destruct (Num.gt _ (Fin 40)) eqn:E40.
  - apply percent_above_40 in E40. apply Nat.ltb_lt in E40.
    rewrite E40. reflexivity.
  - destruct (2 * length all <? 5 * length group)%nat eqn:E; [|reflexivity].
    apply Nat.ltb_lt in E. apply percent_above_40 in E.
    rewrite E in E40. discriminate.
Qed.

Lemma weekend_anomaly_None (transactions : list Transaction.t) (vendor : string)
      (group : list Transaction.t) (i : nat) :
  weekend_anomaly transactions (vendor, group) i = None ->
  ~ ((5 <= length group)%nat
     /\ (length (payments_to vendor transactions) < 5 * length group)%nat).
Proof.
  unfold weekend_anomaly. intros H [H5 H20].
  apply Nat.leb_le in H5. rewrite H5 in H.
  apply percent_above_20 in H20.
  change (payments_to vendor transactions)
    with (filter (same_vendor vendor) transactions) in H20.
  rewrite H20 in H. discriminate.
Qed.

Lemma on_weekend_iff (Date_getDay : string -> number) (t : Transaction.t) :
  on_weekend Date_getDay t = true <->
  Transaction.date t <> EmptyString
  /\ (Num.eqb (Date_getDay (Transaction.date t)) (Fin 0) = true
      \/ Num.eqb (Date_getDay (Transaction.date t)) (Fin 6) = true).
Proof.
  unfold on_weekend. destruct (Transaction.date t) as [|c s]; simpl.
  - split; [discriminate | intros [H _]; congruence].
  - rewrite orb_true_iff. split; [intro H; split; [discriminate | exact H] | tauto].
Qed.

(** X6: on an input where no vendor bears an inherited property name the
    weekend check returns.  A payment counts when it bears a date whose day
    of the week is 0 or 6.  A vendor is flagged, once, exactly when it has at
    least 5 such payments and they are more than 20% of all its payments;
    the anomaly is [high] above 40%, else [medium], and bears the number and
    the sum of the weekend payments. *)
Theorem weekend_payments_check (Date_getDay : string -> number)
        (transactions : list Transaction.t) (id : nat) :
  plain_vendors transactions ->
  exists anomalies next,
    detectWeekendPayments Date_getDay transactions id = Ok (anomalies, next)
    /\ forall vendor,
        let weekend := weekend_payments Date_getDay vendor transactions in
        let all := payments_to vendor transactions in
        let flags := filter (has_vendor vendor) anomalies in
        (forall t, In t weekend <->
                   In t transactions /\ Transaction.vendor t = vendor
                   /\ Transaction.date t <> EmptyString
                   /\ (Num.eqb (Date_getDay (Transaction.date t)) (Fin 0) = true
                       \/ Num.eqb (Date_getDay (Transaction.date t)) (Fin 6) = true))
        /\ ((5 <= length weekend)%nat /\ (length all < 5 * length weekend)%nat ->
            exists a,
              flags = [a]
              /\ Anomaly.severity a
                 = (if (2 * length all <? 5 * length weekend)%nat
                    then high else medium)
              /\ Anomaly.amount a = Some (sum_amounts weekend)
              /\ Anomaly.count a = Some (length weekend))
        /\ (~ ((5 <= length weekend)%nat /\ (length all < 5 * length weekend)%nat) ->
            flags = []).
Proof.
  intro Hplain.
  assert (Hmem : forall vendor t,
             In t (weekend_payments Date_getDay vendor transactions) <->
             In t transactions /\ Transaction.vendor t = vendor
             /\ Transaction.date t <> EmptyString
             /\ (Num.eqb (Date_getDay (Transaction.date t)) (Fin 0) = true
                 \/ Num.eqb (Date_getDay (Transaction.date t)) (Fin 6) = true)).
  { intros vendor t. unfold weekend_payments, members.
    rewrite !filter_In, on_weekend_iff, String.eqb_eq. tauto. }
  unfold detectWeekendPayments.
  destruct (length (filter (on_weekend Date_getDay) transactions) =? 0)%nat eqn:E0.
  - exists [], id. split; [reflexivity|]. intro vendor. cbv zeta.
    apply Nat.eqb_eq, length_zero_iff_nil in E0.
    split; [apply Hmem|]. split; [|reflexivity].
    intros [H5 _]. unfold weekend_payments in H5.
    rewrite E0 in H5. simpl in H5. lia.
  - destruct (group_by_vendor_returns
                (filter (on_weekend Date_getDay) transactions)
                (plain_vendors_filter _ _ Hplain)) as [o [Hrun Hg]].
    rewrite Hrun. cbv beta iota delta [bind]. rewrite push_each_emitted.
    eexists _, _. split; [reflexivity|]. intro vendor. cbv zeta.
    split; [apply Hmem|].
    destruct (grouped_vendor_flags (weekend_anomaly transactions) _ o id vendor
                (weekend_anomaly_vendor transactions) Hg) as [id' Hflags].
    fold (weekend_payments Date_getDay vendor transactions) in Hflags.
    rewrite app_nil_l, Hflags. clear Hflags.
    set (weekend := weekend_payments Date_getDay vendor transactions).
    split.
    + intros [H5 H20]. destruct weekend as [|t rest] eqn:Ew; [simpl in H5; lia|].
      destruct (weekend_anomaly transactions (vendor, t :: rest) id') as [a|] eqn:E.
      * exists a. split; [reflexivity|].
        apply weekend_anomaly_Some in E. tauto.
      * apply weekend_anomaly_None in E. exfalso. apply E. split; assumption.
    + intro Hnot. destruct weekend as [|t rest] eqn:Ew; [reflexivity|].
      destruct (weekend_anomaly transactions (vendor, t :: rest) id') as [a|] eqn:E;
        [|reflexivity].
      apply weekend_anomaly_Some in E. exfalso. apply Hnot. tauto.
Qed.

Lemma weekend_payments_check_witness :
  let saturday : string -> number := fun _ => Fin 6 in
  let transactions :=
    repeat (Transaction.mk "Parks" "Acme" 100 "2024-01-06" None) 5 in
  plain_vendors transactions
  /\ exists anomalies next,
      detectWeekendPayments saturday transactions 0 = Ok (anomalies, next)
      /\ exists a,
          filter (has_vendor "Acme") anomalies = [a]
          /\ Anomaly.severity a = high.
Proof.
  intros saturday transactions.
  assert (H : plain_vendors transactions) by (repeat constructor).
  split; [exact H|].
  destruct (weekend_payments_check saturday transactions 0 H)
    as [anomalies [next [Hrun Hspec]]].
  exists anomalies, next. split; [exact Hrun|].
  destruct (proj1 (proj2 (Hspec "Acme"))) as [a [Hflags [Hsev _]]].
  - split; vm_compute; lia.
  - exists a. split; [exact Hflags | exact Hsev].
Defined.

(** What a loop over the entries of a table reports for one vendor. *)
Lemma keyed_flags {V : Type} (body : string * V -> nat -> option Anomaly.t)
      (o : Obj.t V) (id : nat) (v : string) :
  (forall e i a, body e i = Some a -> Anomaly.vendor a = Some (fst e)) ->
  NoDup (map fst o) ->
  exists id',
    filter (has_vendor v) (emitted body (Obj.entries o) id)
    = match Obj.own o v with
      | Some x => match body (v, x) id' with Some a => [a] | None => [] end
      | None => []
      end.
Proof.
  intros Hbody Hnd.
  destruct (Obj.own o v) as [x|] eqn:E.
  - apply (emitted_vendor_entry body Hbody (Obj.entries o) id v x).
    + apply entries_NoDup. exact Hnd.
    + apply entries_In. apply own_In. exact E.
  - exists id. apply emitted_other_vendor; [exact Hbody|].
    intro Hin. apply in_map_iff in Hin. destruct Hin as [[k x] [Hk Hin]].
    simpl in Hk. subst k. apply (proj1 (entries_In o (v, x))) in Hin.
    apply (In_own _ _ _ Hnd) in Hin. congruence.
Qed.

Lemma sum_counts_put_fresh (o : Obj.t VendorStat.t) (k : string) (v : VendorStat.t) :
  Obj.own o k = None ->
  sum_counts (Obj.put o k v) = (sum_counts o + VendorStat.count v)%nat.
Proof.
  induction o as [|[k' v'] o IH]; simpl; intro H.
  - lia.
  - destruct (String.eqb k k'); [discriminate|]. simpl. rewrite (IH H). lia.
Qed.

Lemma sum_counts_put_known (o : Obj.t VendorStat.t) (k : string)
      (v old : VendorStat.t) :
  Obj.own o k = Some old ->
  (sum_counts (Obj.put o k v) + VendorStat.count old
   = sum_counts o + VendorStat.count v)%nat.
Proof.
  induction o as [|[k' v'] o IH]; simpl; intro H.
  - discriminate.
  - destruct (String.eqb k k'); simpl.
    + inversion H; subst. lia.
    + specialize (IH H). lia.
Qed.

Lemma sum_counts_perm (l l' : list (string * VendorStat.t)) :
  Permutation l l' -> sum_counts l = sum_counts l'.
Proof.
  induction 1 as [| x l l' _ IH | x y l | l l' l'' _ IH1 _ IH2]; simpl; lia.
Qed.

Lemma vendor_stat_snoc (txns : list Transaction.t) (t : Transaction.t) :
  VendorStat.mk (S (VendorStat.count (vendor_stat_of txns)))
                (VendorStat.total (vendor_stat_of txns) + Transaction.amount t)
                (set_add (Transaction.department t)
                         (VendorStat.departments (vendor_stat_of txns)))
  = vendor_stat_of (txns ++ [t]).
Proof.
  unfold vendor_stat_of. simpl.
  rewrite sum_amounts_snoc, length_app, fold_left_app. simpl.
  rewrite Nat.add_1_r. reflexivity.
Qed.

Lemma tallied_empty : tallied [] Obj.empty.
Proof. split; [constructor|]. repeat split. Qed.

Lemma add_vendor_stat_tallied (seen : list Transaction.t)
      (o o' : Obj.t VendorStat.t) (t : Transaction.t) :
  tallied seen o -> add_vendor_stat o t = Ok o' -> tallied (seen ++ [t]) o'.
Proof.
  intros (Hnd & Hown & Hkeys & Hsum) Hadd.
  unfold add_vendor_stat, Obj.get in Hadd.
  set (v := Transaction.vendor t) in *.
  pose proof (Hown v) as Hk.
  assert (Hnew : forall stat,
             o' = Obj.put o v stat ->
             stat = vendor_stat_of (members Transaction.vendor v seen ++ [t]) ->
             NoDup (map fst o')
             /\ forall k, Obj.own o' k
                          = option_map vendor_stat_of
                              (nonempty (members Transaction.vendor k (seen ++ [t])))).
  { intros stat -> ->. split; [apply NoDup_put; exact Hnd|].
    intro k. rewrite members_snoc. fold v.
    destruct (String.eqb v k) eqn:E.
    - apply String.eqb_eq in E. subst k.
      rewrite own_put_same, nonempty_snoc. reflexivity.
    - apply String.eqb_neq in E. rewrite own_put_other by congruence.
      rewrite app_nil_r. apply Hown. }
  unfold tallied, keys_of in *.
  rewrite map_app. change (map Transaction.vendor [t]) with [v].
  rewrite distinct_snoc, length_app. simpl length.
  destruct (Obj.own o v) as [stats|] eqn:E.
  - injection Hadd as <-.
    destruct (nonempty (members Transaction.vendor v seen)) as [l|] eqn:El;
      simpl in Hk; [|discriminate].
    apply nonempty_Some in El. destruct El as [El Hne]. injection Hk as ->.
    destruct (Hnew _ eq_refl
                   ltac:(rewrite El; apply vendor_stat_snoc))
      as [H1 H2].
    split; [exact H1|]. split; [exact H2|]. split.
    + rewrite (keys_put_known _ _ _ _ E).
      destruct (existsb (String.eqb v) (map Transaction.vendor seen)) eqn:Ex.
      * rewrite app_nil_r. exact Hkeys.
      * apply members_nil_iff in Ex. congruence.
    + match goal with
      | |- sum_counts (Obj.put o v ?s) = _ =>
          pose proof (sum_counts_put_known o v s _ E) as Hs;
          set (o2 := Obj.put o v s) in *
      end.
      simpl in Hs. lia.
  - destruct (Obj.inherited v); [discriminate|].
    injection Hadd as <-.
    destruct (nonempty (members Transaction.vendor v seen)) as [l|] eqn:El;
      simpl in Hk; [discriminate|].
    apply nonempty_None in El.
    destruct (Hnew _ eq_refl ltac:(rewrite El; reflexivity)) as [H1 H2].
    split; [exact H1|]. split; [exact H2|]. split.
    + rewrite (keys_put_fresh _ _ _ E).
      apply members_nil_iff in El. rewrite El, Hkeys. reflexivity.
    + rewrite (sum_counts_put_fresh _ _ _ E). simpl. lia.
Qed.

Lemma vendor_stats_tallied (transactions : list Transaction.t) :
  plain_vendors transactions ->
  exists o, foldM add_vendor_stat transactions Obj.empty = Ok o
            /\ tallied transactions o.
Proof.
  intro H.
  destruct (foldM_invariant add_vendor_stat
              (fun t => Obj.inherited (Transaction.vendor t) = false)
              (fun _ _ => True) transactions)
    with (seen := @nil Transaction.t) (b := @Obj.empty VendorStat.t)
    as [o [Ho _]]; auto.
  - intros seen b x _ Hx. destruct (add_vendor_stat_returns b x Hx) as [b' Hb'].
    exists b'. auto.
  - exists o. split; [exact Ho|].
    apply (foldM_Ok_invariant add_vendor_stat tallied transactions
             (fun seen b x b' => add_vendor_stat_tallied seen b b' x)
             [] Obj.empty o tallied_empty Ho).
Qed.

Lemma fold_counts (l : list (string * VendorStat.t)) (acc : nat) :
  fold_left (fun sum v => (sum + VendorStat.count v)%nat) (map snd l) acc
  = (acc + sum_counts l)%nat.
Proof.
  revert acc. induction l as [|e l IH]; intro acc; simpl.
  - lia.
  - rewrite IH. lia.
Qed.

(** The average number of payments per vendor that the check computes. *)
Lemma average_count (transactions : list Transaction.t) (o : Obj.t VendorStat.t) :
  tallied transactions o ->
  Num.div
    (Num.of_nat (fold_left (fun sum v => (sum + VendorStat.count v)%nat)
                           (Obj.values o) O))
    (Num.of_nat (length (Obj.keys o)))
  = Num.div (Num.of_nat (length transactions))
            (Num.of_nat (length (keys_of Transaction.vendor transactions))).
Proof.
  intros (_ & _ & Hkeys & Hsum).
  unfold Obj.values, Obj.keys. rewrite fold_counts. simpl.
  rewrite (sum_counts_perm _ _ (entries_perm o)), Hsum.
  rewrite length_map, (Permutation_length (entries_perm o)).
  rewrite <- Hkeys, length_map. reflexivity.
Qed.

(** A count exceeds five times the average exactly when the count times the
    number of vendors exceeds five times the number of payments. *)
Lemma above_five_averages (count payments vendors : nat) :
  (0 < vendors)%nat ->
  Num.gt (Num.of_nat count)
         (Num.mul (Num.div (Num.of_nat payments) (Num.of_nat vendors)) (Fin 5))
  = true
  <-> (5 * payments < count * vendors)%nat.
Proof.
  intro HV. unfold Num.of_nat, Num.div, Num.sgn.
  assert (Hpos : 0 < inject_Z (Z.of_nat vendors)).
  { change 0 with (inject_Z 0). rewrite <- Zlt_Qlt. lia. }
  assert (E : (inject_Z (Z.of_nat vendors) ?= 0) = Gt).
  { apply Qgt_alt. exact Hpos. }
  rewrite E. simpl Num.mul. rewrite Num_gt_Fin, Qgtb_lt.
  assert (Hmul : inject_Z (Z.of_nat payments) / inject_Z (Z.of_nat vendors) * 5
                 * inject_Z (Z.of_nat vendors)
                 == inject_Z (Z.of_nat payments * 5)).
  { rewrite inject_Z_mult. change (inject_Z 5) with 5.
    field. intro H0. rewrite H0 in Hpos. discriminate. }
  rewrite <- (Qmult_lt_r _ _ _ Hpos), Hmul, <- inject_Z_mult, <- Zlt_Qlt.
  lia.
Qed.

Lemma frequency_anomaly_vendor (avgCount : number) (e : string * VendorStat.t)
      (i : nat) (a : Anomaly.t) :
  frequency_anomaly avgCount e i = Some a -> Anomaly.vendor a = Some (fst e).
Proof.
  destruct e as [v stats]. unfold frequency_anomaly. intro H. open_body H.
  reflexivity.
Qed.

Lemma frequency_anomaly_Some (payments vendors : nat) (vendor : string)
      (stats : VendorStat.t) (i : nat) (a : Anomaly.t) :
  (0 < vendors)%nat ->
  frequency_anomaly (Num.div (Num.of_nat payments) (Num.of_nat vendors))
                    (vendor, stats) i = Some a ->
  (20 < VendorStat.count stats)%nat
  /\ (5 * payments < VendorStat.count stats * vendors)%nat
  /\ Anomaly.severity a
     = (if (100 <? VendorStat.count stats)%nat then high else medium)
  /\ Anomaly.amount a = Some (VendorStat.total stats)
  /\ Anomaly.count a = Some (VendorStat.count stats).
Proof.
  intros HV H. unfold frequency_anomaly in H.
  destruct (Num.gt _ _) eqn:E5; [|discriminate].
  destruct (20 <? VendorStat.count stats)%nat eqn:E20; [|discriminate].
  injection H as <-. cbn [Anomaly.severity Anomaly.amount Anomaly.count].
  apply Nat.ltb_lt in E20. apply (above_five_averages _ _ _ HV) in E5.
  repeat split; assumption.
Qed.

Lemma frequency_anomaly_None (payments vendors : nat) (vendor : string)
      (stats : VendorStat.t) (i : nat) :
  (0 < vendors)%nat ->
  frequency_anomaly (Num.div (Num.of_nat payments) (Num.of_nat vendors))
                    (vendor, stats) i = None ->
  ~ ((20 < VendorStat.count stats)%nat
     /\ (5 * payments < VendorStat.count stats * vendors)%nat).
Proof.
  intros HV H [H20 H5]. unfold frequency_anomaly in H.
  apply (above_five_averages _ _ _ HV) in H5. apply Nat.ltb_lt in H20.
  rewrite H5, H20 in H. discriminate.
Qed.

Lemma keys_of_nonempty (key : Transaction.t -> string) (txns : list Transaction.t) :
  txns <> [] -> (0 < length (keys_of key txns))%nat.
Proof.
  destruct txns as [|t txns]; [congruence|]. intros _.
  unfold keys_of, Str.distinct. simpl. lia.
Qed.

(** X7: on an input where no vendor bears an inherited property name the
    high-frequency check returns.  It flags a vendor, once, exactly when the
    vendor has more than 20 payments and more than five times the average
    per vendor, that is when its payments times the number of distinct
    vendors exceed five times the number of all payments; the anomaly is
    [high] above 100 payments, else [medium], and bears the number and the
    sum of the vendor's payments. *)
Theorem high_frequency_check (transactions : list Transaction.t) (id : nat) :
  plain_vendors transactions ->
  exists anomalies next,
    detectHighFrequency transactions id = Ok (anomalies, next)
    /\ forall vendor,
        let paid := payments_to vendor transactions in
        let vendors := keys_of Transaction.vendor transactions in
        let flags := filter (has_vendor vendor) anomalies in
        ((20 < length paid)%nat
         /\ (5 * length transactions < length paid * length vendors)%nat ->
         exists a,
           flags = [a]
           /\ Anomaly.severity a = (if (100 <? length paid)%nat then high else medium)
           /\ Anomaly.amount a = Some (sum_amounts paid)
           /\ Anomaly.count a = Some (length paid))
        /\ (~ ((20 < length paid)%nat
               /\ (5 * length transactions < length paid * length vendors)%nat) ->
            flags = []).
Proof.
  intro Hplain.
  destruct (vendor_stats_tallied transactions Hplain) as [o [Hrun Ht]].
  unfold detectHighFrequency. rewrite Hrun. cbv beta iota zeta delta [bind].
  rewrite (average_count transactions o Ht), push_each_emitted.
  eexists _, _. split; [reflexivity|]. intro vendor. cbv zeta.
  rewrite app_nil_l.
  set (avg := Num.div _ _).
  destruct (keyed_flags (frequency_anomaly avg) o id vendor
              (frequency_anomaly_vendor avg) (proj1 Ht)) as [id' ->].
  rewrite (proj1 (proj2 Ht) vendor). fold (payments_to vendor transactions).
  set (paid := payments_to vendor transactions).
  destruct paid as [|t rest] eqn:Ep.
  - simpl. split; [intros [H _]; lia | reflexivity].
  - assert (HV : (0 < length (keys_of Transaction.vendor transactions))%nat).
    { apply keys_of_nonempty. intro E. subst transactions. discriminate Ep. }
    cbn [nonempty option_map].
    destruct (frequency_anomaly avg (vendor, vendor_stat_of (t :: rest)) id')
      as [a|] eqn:E.
    + apply (frequency_anomaly_Some _ _ _ _ _ _ HV) in E.
      split; [|intro Hnot; exfalso; apply Hnot; tauto].
      intros _. exists a. split; [reflexivity|]. tauto.
    + apply (frequency_anomaly_None _ _ _ _ _ HV) in E.
      split; [intro H; exfalso; apply E; exact H | reflexivity].
Qed.

Lemma high_frequency_check_witness :
  let transactions :=
    repeat (payment "Busy" 10) 25
    ++ map (fun v => payment v 10) ["A"; "B"; "C"; "D"; "E"; "F"; "G"; "H"; "I"] in
  plain_vendors transactions
  /\ exists anomalies next,
      detectHighFrequency transactions 0 = Ok (anomalies, next)
      /\ exists a,
          filter (has_vendor "Busy") anomalies = [a]
          /\ Anomaly.count a = Some 25%nat.
Proof.
  intro transactions.
  assert (H : plain_vendors transactions) by (repeat constructor).
  split; [exact H|].
  destruct (high_frequency_check transactions 0 H)
    as [anomalies [next [Hrun Hspec]]].
  exists anomalies, next. split; [exact Hrun|].
  destruct (proj1 (Hspec "Busy")) as [a [Hflags [_ [_ Hcount]]]].
  - split; vm_compute; lia.
  - exists a. split; [exact Hflags | exact Hcount].
Defined.

Lemma emitted_none {A : Type} (body : A -> nat -> option Anomaly.t)
      (xs : list A) (id : nat) :
  (forall x i, In x xs -> body x i = None) -> emitted body xs id = [].
Proof.
  revert id. induction xs as [|x xs IH]; intros id H; simpl.
  - reflexivity.
  - rewrite (H x id (or_introl eq_refl)). apply IH.
    intros y i Hy. apply H. right. exact Hy.
Qed.

Lemma members_length (key : Transaction.t -> string) (k : string)
      (txns : list Transaction.t) :
  (length (members key k txns) <= length txns)%nat.
Proof. apply filter_length_le. Qed.

(** X8: with five distinct vendors or fewer the high-frequency check flags
    nothing, however many payments a vendor has: no vendor can have more
    than five times the average. *)
Theorem high_frequency_needs_six_vendors (transactions : list Transaction.t)
        (id : nat) :
  plain_vendors transactions ->
  (length (keys_of Transaction.vendor transactions) <= 5)%nat ->
  detectHighFrequency transactions id = Ok ([], id).
Proof.
  intros Hplain Hfew.
  destruct (vendor_stats_tallied transactions Hplain) as [o [Hrun Ht]].
  unfold detectHighFrequency. rewrite Hrun. cbv beta iota zeta delta [bind].
  rewrite (average_count transactions o Ht), push_each_emitted.
  rewrite emitted_none; [simpl; rewrite Nat.add_0_r; reflexivity|].
  intros [v stats] i Hin.
  apply (proj1 (entries_In o (v, stats))) in Hin.
  apply (In_own _ _ _ (proj1 Ht)) in Hin.
  rewrite (proj1 (proj2 Ht) v) in Hin.
  destruct (nonempty (members Transaction.vendor v transactions)) as [l|] eqn:El;
    [|discriminate].
  apply nonempty_Some in El. destruct El as [El Hne]. injection Hin as <-.
  assert (HV : (0 < length (keys_of Transaction.vendor transactions))%nat).
  { apply keys_of_nonempty. intro E. subst transactions. apply Hne.
    reflexivity. }
  destruct (frequency_anomaly _ (v, vendor_stat_of l) i) as [a|] eqn:E;
    [|reflexivity].
  apply (frequency_anomaly_Some _ _ _ _ _ _ HV) in E.
  destruct E as [_ [H5 _]]. simpl in H5.
  pose proof (members_length Transaction.vendor v transactions) as Hle.
  rewrite El in Hle. nia.
Qed.

Lemma high_frequency_needs_six_vendors_witness :
  let transactions :=
    repeat (payment "Busy" 10) 30 ++ [payment "A" 10; payment "B" 10] in
  plain_vendors transactions
  /\ length (payments_to "Busy" transactions) = 30%nat
  /\ detectHighFrequency transactions 0 = Ok ([], O).
Proof.
  intro transactions.
  assert (H : plain_vendors transactions) by (repeat constructor).
  split; [exact H|]. split; [reflexivity|].
  apply (high_frequency_needs_six_vendors transactions 0 H).
  vm_compute. lia.
Defined.

(** ** Large outliers *)

Lemma ascending_nth (l : list Q) :
  StronglySorted Qle l ->
  forall i j x y, (i <= j)%nat -> nth_error l i = Some x -> nth_error l j = Some y ->
                  x <= y.
Proof.
  induction 1 as [|a l Hs IH Hall]; intros i j x y Hij Hi Hj.
  - destruct i; discriminate.
  - destruct i as [|i], j as [|j]; simpl in Hi, Hj.
    + injection Hi as <-. injection Hj as <-. apply Qle_refl.
    + injection Hi as <-. apply nth_error_In in Hj.
      rewrite Forall_forall in Hall. apply Hall. exact Hj.
    + lia.
    + apply (IH i j); [lia | assumption | assumption].
Qed.

Lemma firstn_In {A : Type} (n : nat) (l : list A) (x : A) :
  In x (firstn n l) -> In x l.
Proof.
  intro H. rewrite <- (firstn_skipn n l). apply in_or_app. left. exact H.
Qed.

(** The fence lies at or above the third quartile. *)
Lemma upperFence_above_q3 (transactions : list Transaction.t) (x : Q) :
  Num.gt (Fin x) (upperFence_of (sorted_amounts transactions)) = true ->
  exists q3,
    nth_error (sorted_amounts transactions) (3 * length transactions / 4) = Some q3
    /\ q3 < x.
Proof.
  set (amounts := sorted_amounts transactions).
  assert (Hlen : length amounts = length transactions)
    by apply sorted_amounts_length.
  intro H.
  destruct (nth_error amounts (3 * length amounts / 4)) as [q3|] eqn:E3.
  - destruct (nth_error amounts (length amounts / 4)) as [q1|] eqn:E1.
    + rewrite (upperFence_value amounts q1 q3 E1 E3), Num_gt_Fin, Qgtb_lt in H.
      exists q3. rewrite <- Hlen. split; [exact E3|].
      assert (Hle : q1 <= q3).
      { apply (ascending_nth amounts) with (i := (length amounts / 4)%nat)
                                           (j := (3 * length amounts / 4)%nat).
        - apply Sorted_StronglySorted; [exact Qle_trans|].
          apply sorted_amounts_sorted.
        - apply Nat.Div0.div_le_mono. lia.
        - exact E1.
        - exact E3. }
      lra.
    + unfold upperFence_of, q3_of, q1_of, at_index in H.
      rewrite floor_index_q3, floor_index_q1, E1, E3 in H. discriminate.
  - unfold upperFence_of, q3_of, q1_of, at_index in H.
    rewrite floor_index_q3, E3 in H. discriminate.
Qed.

(** X9: the outlier check reports at most 10 anomalies.  Each stands for a
    transaction of the input above $1,000,000 and strictly above the third
    quartile of the amounts; hence nothing is reported when all the amounts
    are equal, however large they are. *)
Theorem outliers_bounded (transactions : list Transaction.t) (id : nat) :
  let anomalies := fst (detectOutliers transactions id) in
  (length anomalies <= 10)%nat
  /\ snd (detectOutliers transactions id) = (id + length anomalies)%nat
  /\ Forall (fun a =>
               exists t q3,
                 In t transactions /\ flags_outlier t a
                 /\ 1000000 < Transaction.amount t
                 /\ nth_error (sorted_amounts transactions)
                              (3 * length transactions / 4) = Some q3
                 /\ q3 < Transaction.amount t)
            anomalies
  /\ (forall c, Forall (fun t => Transaction.amount t == c) transactions ->
                anomalies = []).
Proof.
  cbv zeta. rewrite detectOutliers_emitted. cbn [fst snd].
  set (fence := upperFence_of (sorted_amounts transactions)).
  set (flagged := firstn 10 (filter (is_outlier fence) transactions)).
  set (body := outlier_anomaly (median_of (sorted_amounts transactions))).
  assert (HF : Forall2 flags_outlier flagged (emitted body flagged id)).
  { apply emitted_always. intros t i. apply outlier_anomaly_flags. }
  assert (Hin : forall t, In t flagged ->
                          In t transactions /\ is_outlier fence t = true).
  { intros t Ht. apply firstn_In in Ht. apply filter_In in Ht. exact Ht. }
  split; [|split; [reflexivity|split]].
  - rewrite <- (Forall2_length HF). unfold flagged. rewrite length_firstn. lia.
  - apply Forall2_with_In in HF. clear -HF Hin.
    induction HF as [|t a l l' [Ht Hflags] _ IH]; constructor; [|exact IH].
    destruct (Hin t Ht) as [Hmem Hout].
    unfold is_outlier in Hout. apply andb_true_iff in Hout.
    destruct Hout as [Hfence Hbig].
    destruct (upperFence_above_q3 transactions _ Hfence) as [q3 [Hq3 Hlt]].
    exists t, q3. apply Qgtb_lt in Hbig. tauto.
  - intros c Hall.
    destruct flagged as [|t rest] eqn:Ef; [reflexivity|]. exfalso.
    destruct (Hin t (or_introl eq_refl)) as [Hmem Hout].
    unfold is_outlier in Hout. apply andb_true_iff in Hout.
    destruct Hout as [Hfence _].
    destruct (upperFence_above_q3 transactions _ Hfence) as [q3 [Hq3 Hlt]].
    apply nth_error_In in Hq3.
    apply (Permutation_in _ (sorted_amounts_perm transactions)) in Hq3.
    apply in_map_iff in Hq3. destruct Hq3 as [t' [Ht' Hin']].
    rewrite Forall_forall in Hall.
    pose proof (Hall t Hmem) as H1. pose proof (Hall t' Hin') as H2.
    rewrite Ht' in H2. rewrite H1, H2 in Hlt. apply (Qlt_irrefl c). exact Hlt.
Qed.

(** ** Vendor concentration *)



(** ** The digit check *)

Lemma observed_all (amounts : list Q) (d : nat) :
  amounts <> [] ->
  Forall (fun q => leads_with d q = true) amounts ->
  observed amounts d == 1.
Proof.
  intros Hne Hall. unfold observed. rewrite (filter_all _ _ Hall).
  assert (Hpos : 0 < Qnat (length amounts)).
  { unfold Qnat. change 0 with (inject_Z 0). rewrite <- Zlt_Qlt.
    destruct amounts; [congruence | simpl; lia]. }
  field. intro H0. rewrite H0 in Hpos. discriminate.
Qed.

Lemma far_from_one (d : nat) : leading_digit d -> 0.1 < Qabs (1 - BENFORD_EXPECTED d).
Proof.
  unfold leading_digit. intro H.
  assert (E : (d = 1 \/ d = 2 \/ d = 3 \/ d = 4 \/ d = 5 \/ d = 6 \/ d = 7
               \/ d = 8 \/ d = 9)%nat) by lia.
  repeat (destruct E as [->|E]; [reflexivity|]). subst d. reflexivity.
Qed.

(** X11: when at least 100 amounts of $100 or more all start with the same
    digit, the digit check reports one anomaly of severity [high]: the share
    of that digit, 100%, is more than 0.1 away from what Benford's law
    expects of any digit. *)
Theorem benford_single_digit (transactions : list Transaction.t) (id d : nat) :
  leading_digit d ->
  (100 <= length (qualifying transactions))%nat ->
  Forall (fun q => leads_with d q = true) (qualifying transactions) ->
  exists a,
    analyzeBenfordsLaw transactions id = ([a], S id)
    /\ Anomaly.severity a = high.
Proof.
  intros Hd Hge Hall.
  set (amounts := qualifying transactions) in *.
  assert (Hdev : 0.1 < deviation_at amounts d).
  { unfold deviation_at, digit_deviation. cbn [Deviation.deviation].
    rewrite (observed_all amounts d); [apply far_from_one; exact Hd | | exact Hall].
    intro E. rewrite E in Hge. simpl in Hge. lia. }
  assert (Hin : In (digit_deviation amounts d) (qualifying_deviations amounts)).
  { apply qualifying_deviations_In. exists d.
    split; [exact Hd | split; [lra | reflexivity]]. }
  unfold analyzeBenfordsLaw. change (map Transaction.amount _) with amounts.
  assert (Hlt : (length amounts <? 100)%nat = false) by (apply Nat.ltb_ge; exact Hge).
  rewrite Hlt. cbv zeta. rewrite deviations_over_counted.
  assert (Hpos : (0 <? length (qualifying_deviations amounts))%nat = true).
  { apply Nat.ltb_lt.
    destruct (qualifying_deviations amounts); [contradiction | simpl; lia]. }
  rewrite Hpos.
  rewrite (existsb_perm _ _ _ (sort_perm by_deviation_desc
                                 (qualifying_deviations amounts))).
  assert (E : existsb (fun x => Qgtb (Deviation.deviation x) 0.1)
                      (qualifying_deviations amounts) = true).
  { apply existsb_exists. exists (digit_deviation amounts d).
    split; [exact Hin | apply Qgtb_lt; exact Hdev]. }
  rewrite E. eexists. split; reflexivity.
Qed.

Lemma benford_single_digit_witness :
  exists a,
    analyzeBenfordsLaw (repeat (payment "Acme" 7250) 100) 0 = ([a], 1%nat)
    /\ Anomaly.severity a = high.
Proof.
  apply (benford_single_digit (repeat (payment "Acme" 7250) 100) 0 7).
  - unfold leading_digit. lia.
  - vm_compute. lia.
  - vm_compute. repeat constructor.
Defined.

Lemma observed_perm (amounts amounts' : list Q) (d : nat) :
  Permutation amounts amounts' -> observed amounts d = observed amounts' d.
Proof.
  intro H. unfold observed.
  rewrite (filter_length_perm _ _ _ H), (Permutation_length H). reflexivity.
Qed.

Lemma qualifying_deviations_perm (amounts amounts' : list Q) :
  Permutation amounts amounts' ->
  qualifying_deviations amounts = qualifying_deviations amounts'.
Proof.
  intro H. unfold qualifying_deviations, deviation_at, digit_deviation.
  cbn [Deviation.deviation].
  rewrite (map_ext _ (fun d => Deviation.mk d (BENFORD_EXPECTED d)
                                 (observed amounts' d)
                                 (Qabs (observed amounts' d - BENFORD_EXPECTED d)))).
  - f_equal. apply filter_ext. intro d. rewrite (observed_perm _ _ d H).
    reflexivity.
  - intro d. rewrite (observed_perm _ _ d H). reflexivity.
Qed.

(** X12: the digit check does not depend on the order of the transactions:
    it counts leading digits, so a rearranged input gives the same findings,
    down to the text of the details. *)
Theorem benford_order_independent (transactions transactions' : list Transaction.t)
        (id : nat) :
  Permutation transactions transactions' ->
  analyzeBenfordsLaw transactions id = analyzeBenfordsLaw transactions' id.
Proof.
  intro H.
  assert (Hq : Permutation (qualifying transactions) (qualifying transactions')).
  { unfold qualifying. apply Permutation_map, filter_perm. exact H. }
  unfold analyzeBenfordsLaw.
  change (map Transaction.amount
            (filter (fun t => Qgeb (Transaction.amount t) 100) transactions))
    with (qualifying transactions).
  change (map Transaction.amount
            (filter (fun t => Qgeb (Transaction.amount t) 100) transactions'))
    with (qualifying transactions').
  cbv zeta. rewrite !deviations_over_counted.
  rewrite (qualifying_deviations_perm _ _ Hq), (Permutation_length Hq).
  reflexivity.
Qed.

Lemma benford_order_independent_witness :
  analyzeBenfordsLaw (repeat (payment "Acme" 150) 99 ++ [payment "Best" 250]) 0
  = analyzeBenfordsLaw ([payment "Best" 250] ++ repeat (payment "Acme" 150) 99) 0.
Proof.
  apply (benford_order_independent
           (repeat (payment "Acme" 150) 99 ++ [payment "Best" 250])
           ([payment "Best" 250] ++ repeat (payment "Acme" 150) 99) 0).
  apply Permutation_app_comm.
Defined.

(** ** The alerts page *)

Lemma passes_iff (severityFilter typeFilter : string) (a : Anomaly.t) :
  passes severityFilter typeFilter a = true <->
  (severityFilter = "all" \/ Severity_text (Anomaly.severity a) = severityFilter)
  /\ (typeFilter = "all" \/ Anomaly.type a = typeFilter).
Proof.
  unfold passes.
  destruct (String.eqb_spec severityFilter "all") as [Es|Es];
    destruct (String.eqb_spec (Severity_text (Anomaly.severity a)) severityFilter)
      as [Ea|Ea];
    destruct (String.eqb_spec typeFilter "all") as [Et|Et];
    destruct (String.eqb_spec (Anomaly.type a) typeFilter) as [Eb|Eb];
    simpl; split; try tauto; try discriminate; intros [[H1|H1] [H2|H2]];
    congruence.
Qed.

Lemma by_severity_le (x y : Anomaly.t) :
  Num.gt (by_severity_then_amount x y) (Fin 0) = false -> listed_before x y.
Proof.
  unfold by_severity_then_amount, listed_before.
  destruct (Anomaly.severity x), (Anomaly.severity y); simpl;
    try discriminate; try (intros _; left; reflexivity);
    intro H; right; (split; [reflexivity|]);
    apply (Qgtb_false_le (amount_or_0 y + - amount_or_0 x) 0) in H; lra.
Qed.

Lemma by_severity_gt (x y : Anomaly.t) :
  Num.gt (by_severity_then_amount x y) (Fin 0) = true -> listed_before y x.
Proof.
  unfold by_severity_then_amount, listed_before.
  destruct (Anomaly.severity x), (Anomaly.severity y); simpl;
    try discriminate; try (intros _; left; reflexivity);
    intro H; right; (split; [reflexivity|]);
    apply (Qgtb_lt (amount_or_0 y + - amount_or_0 x) 0) in H; lra.
Qed.

Lemma listed_before_trans (a b c : Anomaly.t) :
  listed_before a b -> listed_before b c -> listed_before a c.
Proof.
  unfold listed_before. intros [H1|[E1 H1]] [H2|[E2 H2]].
  - left. lra.
  - left. rewrite <- E2. exact H1.
  - left. rewrite E1. exact H2.
  - right. split; [congruence | lra].
Qed.

(** X13: the alerts page lists exactly the anomalies that pass the two
    filters, each as often as it occurs; the filter [all] lets every anomaly
    pass, so with both filters at [all] nothing is left out. *)
Theorem alerts_page_lists_filtered (severityFilter typeFilter : string)
        (anomalies : list Anomaly.t) :
  let shown := sortedAnomalies severityFilter typeFilter anomalies in
  Permutation shown (filteredAnomalies severityFilter typeFilter anomalies)
  /\ (forall a,
         In a shown <->
         In a anomalies
         /\ (severityFilter = "all"
             \/ Severity_text (Anomaly.severity a) = severityFilter)
         /\ (typeFilter = "all" \/ Anomaly.type a = typeFilter))
  /\ (length shown <= length anomalies)%nat
  /\ Permutation (sortedAnomalies "all" "all" anomalies) anomalies.
Proof.
  cbv zeta. unfold sortedAnomalies.
  pose proof (sort_perm by_severity_then_amount
                (filteredAnomalies severityFilter typeFilter anomalies)) as Hperm.
  split; [exact Hperm|]. split; [|split].
  - intro a. split.
    + intro H. apply (Permutation_in _ Hperm) in H.
      unfold filteredAnomalies in H. apply filter_In in H.
      rewrite passes_iff in H. exact H.
    + intro H. apply (Permutation_in _ (Permutation_sym Hperm)).
      unfold filteredAnomalies. apply filter_In.
      rewrite passes_iff. exact H.
  - rewrite (Permutation_length Hperm). apply filter_length_le.
  - eapply Permutation_trans; [apply sort_perm|].
    unfold filteredAnomalies. rewrite filter_all; [apply Permutation_refl|].
    apply Forall_forall. intros a _. reflexivity.
Qed.

(** X14: the alerts page lists the anomalies by severity, [critical] first,
    and within a severity by amount, the largest first, an anomaly without
    amount counting 0: every anomaly of the list is listed before all that
    follow it. *)
Theorem alerts_page_order (severityFilter typeFilter : string)
        (anomalies : list Anomaly.t) :
  StronglySorted listed_before (sortedAnomalies severityFilter typeFilter anomalies).
Proof.
  apply Sorted_StronglySorted.
  - intros a b c. apply listed_before_trans.
  - unfold sortedAnomalies.
    apply sort_sorted with (R := listed_before).
    + exact by_severity_le.
    + exact by_severity_gt.
Qed.

Lemma distinct_from_spec (seen xs : list string) :
  NoDup (Str.distinct_from seen xs)
  /\ forall x, In x (Str.distinct_from seen xs) <-> In x xs /\ ~ In x seen.
Proof.
  revert seen. induction xs as [|y xs IH]; intro seen; simpl.
  - split; [constructor | tauto].
  - destruct (existsb (String.eqb y) seen) eqn:E.
    + apply existsb_eqb_In in E. destruct (IH seen) as [Hnd Hin].
      split; [exact Hnd|]. intro x. rewrite Hin. split; [tauto|].
      intros [[->|H] Hx]; tauto.
    + assert (Hy : ~ In y seen).
      { intro H. apply existsb_eqb_In in H. congruence. }
      destruct (IH (y :: seen)) as [Hnd Hin]. split.
      * constructor; [|exact Hnd]. rewrite Hin. simpl. tauto.
      * intro x. simpl. rewrite Hin. simpl.
        destruct (string_dec y x) as [->|Hne]; tauto.
Qed.

Lemma distinct_spec (xs : list string) :
  NoDup (Str.distinct xs) /\ forall x, In x (Str.distinct xs) <-> In x xs.
Proof.
  destruct (distinct_from_spec [] xs) as [Hnd Hin]. split; [exact Hnd|].
  intro x. rewrite Hin. simpl. tauto.
Qed.

(** The keys of a grouping are the distinct keys of the transactions. *)
Lemma keys_of_spec (key : Transaction.t -> string) (txns : list Transaction.t) :
  NoDup (keys_of key txns)
  /\ forall k, In k (keys_of key txns) <-> exists t, In t txns /\ key t = k.
Proof.
  destruct (distinct_spec (map key txns)) as [Hnd Hin]. split; [exact Hnd|].
  intro k. unfold keys_of. rewrite Hin, in_map_iff.
  split; intros [t [H1 H2]]; exists t; tauto.
Qed.

Lemma analyzeTransactions_shaped
      (Number_toString : Q -> string) (Date_getTime Date_getDay : string -> number)
      (transactions : list Transaction.t) (r : Report.t) :
  analyzeTransactions Number_toString Date_getTime Date_getDay transactions = Ok r ->
  Forall (fun a => exists s, In s shapes /\ has_shape s a) (Report.anomalies r).
Proof.
  intro H. apply analyzeTransactions_parts in H.
  destruct H as (f1 & f2 & f3 & f4 & f5 & f6 & f7 & f8 & f9 & f10
                 & B1 & B2 & B3 & B4 & B5 & B6 & B7 & B8 & B9 & B10 & ->).
  assert (Hblock : forall n id f,
             (n < 10)%nat -> block n id f ->
             Forall (fun a => exists s, In s shapes /\ has_shape s a) (fst f)).
  { intros n id f Hn [_ Hf]. eapply Forall_impl; [|exact Hf].
    intros a Ha. exists (shape_at n). split; [|exact Ha].
    unfold shape_at. apply nth_In. simpl. exact Hn. }
  repeat (apply Forall_app; split);
    match goal with
    | B : block _ _ ?f |- Forall _ (fst ?f) => refine (Hblock _ _ _ _ B); lia
    end.
Qed.

(** X15: the type filter of the alerts page offers every type that occurs
    among the anomalies once, and [getTypeInfo] finds for each type that
    [analyzeTransactions] gives an entry of [TYPE_INFO] of its own: never the
    fallback, never a member of [Object.prototype]. *)
Theorem alerts_page_types
        (Number_toString : Q -> string) (Date_getTime Date_getDay : string -> number)
        (transactions : list Transaction.t) (r : Report.t) :
  analyzeTransactions Number_toString Date_getTime Date_getDay transactions = Ok r ->
  let types := uniqueTypes (Report.anomalies r) in
  NoDup types
  /\ (forall type, In type types <->
                   exists a, In a (Report.anomalies r) /\ Anomaly.type a = type)
  /\ Forall (fun type =>
               exists info,
                 Obj.own TYPE_INFO type = Some info
                 /\ getTypeInfo type = Entry info)
            types.
Proof.
  intros H types.
  destruct (distinct_spec (map Anomaly.type (Report.anomalies r))) as [Hnd Hin].
  assert (Hmem : forall type,
             In type types <->
             exists a, In a (Report.anomalies r) /\ Anomaly.type a = type).
  { intro type. unfold types, uniqueTypes. rewrite Hin, in_map_iff.
    split; intros [a [H1 H2]]; exists a; tauto. }
  split; [exact Hnd|]. split; [exact Hmem|].
  apply Forall_forall. intros type Htype.
  apply Hmem in Htype. destruct Htype as [a [Ha <-]].
  pose proof (analyzeTransactions_shaped _ _ _ _ _ H) as Hshaped.
  rewrite Forall_forall in Hshaped.
  destruct (Hshaped a Ha) as [s [Hs [-> _]]].
  unfold shapes in Hs. simpl in Hs.
  repeat (destruct Hs as [<-|Hs]; [eexists; split; reflexivity|]).
  contradiction.
Qed.

Lemma alerts_page_types_witness :
  exists r,
    analyzeTransactions fraction_text no_date no_date
                        (repeat (payment "Acme LLC" 9950) 3) = Ok r
    /\ uniqueTypes (Report.anomalies r)
       = ["duplicate_payments"; "threshold_avoidance"; "vendor_concentration"]
    /\ NoDup (uniqueTypes (Report.anomalies r)).
Proof.
  eexists. split; [vm_compute; reflexivity|]. split; [reflexivity|].
  apply (alerts_page_types fraction_text no_date no_date
           (repeat (payment "Acme LLC" 9950) 3)).
  vm_compute. reflexivity.
Defined.

(** * Display helpers *)

Lemma string_length_app (s1 s2 : string) :
  String.length (s1 ++ s2) = (String.length s1 + String.length s2)%nat.
Proof. induction s1 as [|c s1 IH]; simpl; [reflexivity | rewrite IH; reflexivity]. Qed.

Lemma substring_0_length (k : nat) (s : string) :
  String.length (String.substring 0 k s) = Nat.min k (String.length s).
Proof.
  revert k. induction s as [|c s IH]; intros [|k]; simpl; try reflexivity.
  rewrite IH. reflexivity.
Qed.

Lemma substring_0_prefix (k : nat) (s : string) :
  String.prefix (String.substring 0 k s) s = true.
Proof.
  revert k. induction s as [|c s IH]; intros [|k]; simpl; try reflexivity.
  destruct (ascii_dec c c) as [_|Hne]; [apply IH | congruence].
Qed.

(** X16: [truncate] returns a text of at most [length] characters as it is.
    Of a longer text it keeps the first [length] characters, or for a
    negative [length] all but the last [-length], and appends three dots: the
    result has [length + 3] characters, so a text one or two characters over
    the limit comes out longer than it went in. *)
Theorem truncate_spec (str : string) (length : Z) :
  let len := Z.of_nat (String.length str) in
  Z.of_nat (String.length (truncate str length))
  = (if (len <=? length)%Z then len
     else if (0 <=? length)%Z then length + 3
          else Z.max (len + length) 0 + 3)%Z
  /\ ((len <= length)%Z -> truncate str length = str)
  /\ ((length < len)%Z ->
      exists kept,
        truncate str length = (kept ++ "...")%string
        /\ String.prefix kept str = true).
Proof.
  cbv zeta. unfold truncate.
  destruct (Z.of_nat (String.length str) <=? length)%Z eqn:E.
  - apply Z.leb_le in E. split; [reflexivity|]. split; [reflexivity | lia].
  - apply Z.leb_gt in E. split; [|split; [lia|]].
    + rewrite string_length_app. unfold slice_to. rewrite substring_0_length.
      simpl String.length.
      destruct (length <? 0)%Z eqn:En.
      * apply Z.ltb_lt in En.
        destruct (0 <=? length)%Z eqn:E0; [apply Z.leb_le in E0; lia|]. lia.
      * apply Z.ltb_ge in En.
        destruct (0 <=? length)%Z eqn:E0; [|apply Z.leb_gt in E0; lia]. lia.
    + intros _. eexists. split; [reflexivity|].
      unfold slice_to. apply substring_0_prefix.
Qed.

Lemma floor_unique (x : Q) (z : Z) :
  inject_Z z <= x -> x < inject_Z (z + 1) -> Qfloor x = z.
Proof.
  intros Hle Hlt.
  pose proof (Qfloor_le x) as H1. pose proof (Qlt_floor x) as H2.
  assert (Ha : (z < Qfloor x + 1)%Z).
  { rewrite Zlt_Qlt. eapply Qle_lt_trans; eassumption. }
  assert (Hb : (Qfloor x < z + 1)%Z).
  { rewrite Zlt_Qlt. eapply Qle_lt_trans; eassumption. }
  lia.
Qed.

(** X17: an amount from $999,500 up to, but not including, $1,000,000 is
    shown as [$1000K]: it is below the step to millions, and its thousands
    round to 1000. *)
Theorem compact_currency_rounds_to_1000K (Number_toString : Q -> string) (amount : Q) :
  999500 <= amount -> amount < 1000000 ->
  formatCompactCurrency Number_toString (Fin amount) = "$1000K".
Proof.
  intros Hlo Hhi. unfold formatCompactCurrency, number_ge.
  assert (E9 : Qle_bool 1000000000 amount = false).
  { destruct (Qle_bool 1000000000 amount) eqn:E; [|reflexivity].
    apply Qle_bool_iff in E. lra. }
  assert (E6 : Qle_bool 1000000 amount = false).
  { destruct (Qle_bool 1000000 amount) eqn:E; [|reflexivity].
    apply Qle_bool_iff in E. lra. }
  assert (E3 : Qle_bool 1000 amount = true) by (apply Qle_bool_iff; lra).
  rewrite E9, E6, E3.
  change (Num.div (Fin amount) (Fin 1000)) with (Fin (amount / 1000)).
  set (q := amount / 1000).
  assert (Hq1 : 999.5 <= q).
  { unfold q. apply Qle_shift_div_l; [reflexivity | lra]. }
  assert (Hq2 : q < 1000).
  { unfold q. apply Qlt_shift_div_r; [reflexivity | lra]. }
  assert (Habs : Qabs q == q) by (apply Qabs_pos; lra).
  unfold toFixed.
  assert (Eneg : Qltb q 0 = false) by (apply Qltb_false_le; lra).
  assert (Ebig : Qle_bool (inject_Z (10 ^ 21)) (Qabs q) = false).
  { destruct (Qle_bool (inject_Z (10 ^ 21)) (Qabs q)) eqn:E; [|reflexivity].
    apply Qle_bool_iff in E. rewrite Habs in E.
    assert (Hc : 1000 < inject_Z (10 ^ 21)) by reflexivity. lra. }
  rewrite Eneg, Ebig. cbv zeta.
  assert (En : Qfloor (Qabs q * inject_Z (10 ^ Z.of_nat 0) + (1 # 2)) = 1000%Z).
  { apply floor_unique; rewrite Habs; change (inject_Z (10 ^ Z.of_nat 0)) with 1.
    - change (inject_Z 1000) with 1000. lra.
    - change (inject_Z (1000 + 1)) with 1001. lra. }
  rewrite En. reflexivity.
Qed.

Lemma compact_currency_rounds_to_1000K_witness :
  formatCompactCurrency fraction_text (Fin 999999) = "$1000K".
Proof.
  apply (compact_currency_rounds_to_1000K fraction_text 999999).
  - unfold Qle. simpl. lia.
  - reflexivity.
Defined.

(** * The checks on inputs with plain vendor names, at work *)

Lemma threshold_avoidance_plain_witness :
  let transactions := repeat (payment "Acme LLC" 9950) 3 in
  plain_vendors transactions
  /\ exists anomalies next,
      detectThresholdAvoidance transactions 0 = Ok (anomalies, next)
      /\ exists a,
          filter (flags_threshold 10000 "Acme LLC") anomalies = [a]
          /\ Anomaly.severity a = high.
Proof.
  intro transactions.
  assert (H : plain_vendors transactions) by (repeat constructor).
  split; [exact H|].
  destruct (threshold_avoidance_plain transactions 0 H)
    as [anomalies [next [Hrun Hspec]]].
  exists anomalies, next. split; [exact Hrun|].
  assert (Hin : In 10000 APPROVAL_THRESHOLDS) by (simpl; tauto).
  destruct (proj2 (proj2 (Hspec 10000 "Acme LLC" Hin))) as [a [Hflags [Hsev _]]].
  - vm_compute. lia.
  - exists a. split; [exact Hflags | exact Hsev].
Defined.

Lemma round_numbers_plain_witness :
  let transactions := repeat (payment "Acme" 10000) 4 in
  let pattern := Pattern.mk 10000 10000 "$10K increments" in
  plain_vendors transactions
  /\ exists anomalies next,
      detectRoundNumbers transactions 0 = Ok (anomalies, next)
      /\ exists a,
          filter (flags_pattern pattern "Acme") anomalies = [a]
          /\ Anomaly.severity a = medium.
Proof.
  intros transactions pattern.
  assert (H : plain_vendors transactions) by (repeat constructor).
  split; [exact H|].
  destruct (round_numbers_plain transactions 0 H)
    as [anomalies [next [Hrun Hspec]]].
  exists anomalies, next. split; [exact Hrun|].
  assert (Hin : In pattern roundPatterns) by (left; reflexivity).
  destruct (proj1 (proj2 (proj2 (Hspec pattern "Acme" Hin))))
    as [a [Hflags [Hsev _]]].
  - split; vm_compute; lia.
  - exists a. split; [exact Hflags | exact Hsev].
Defined.
